(** * kle-py: the KLE JSON codec of [damsenviet.kle.keyboard]

    A shallow embedding of [src/damsenviet/kle/keyboard.py] (the alignment
    tables, the change recorder, the decoder [Keyboard.from_json] and the
    encoder [Keyboard.to_json]) and of [src/damsenviet/kle/exceptions.py],
    followed by the properties of the codec.

    Modelling conventions.
    - Python objects that travel through JSON documents and change bags are
      values of [pyval]; a [dict] is an insertion-ordered association list
      without duplicate keys, as Python prints it.
    - [mpf] numbers are rationals kept in lowest terms; the results of
      [+], [-] and [%] and of [mpf(str(v))] are rounded to the 53 bits of
      mpmath's working precision, to the nearest value with ties to even
      ([with_precision] sets the precision of [decimal], not of mpmath).
    - Strings are sequences of characters with code points below 256;
      [rstrip] strips the characters that [str.isspace] accepts.
    - Exceptions are values of [exn]; a function that can raise returns a
      [result].  Field values of the wrong JSON type raise [TypeError] at the
      place where the value is stored ([bool] is not accepted as a number, a
      numeric string is not accepted by [mpf_of_str]). *)

From Stdlib Require Import ZArith QArith Qround Qpower Qabs.
From Stdlib Require Import List String Ascii Bool Lia Lqa.
From Stdlib Require Import Permutation Sorted.
Import ListNotations.
Local Open Scope string_scope.
Local Open Scope Z_scope.

Set Implicit Arguments.
Set Warnings "-register-all".

(** ** Python values *)

Inductive pyval : Type :=
| PNone
| PBool (b : bool)
| PInt (z : Z)
| PFloat (q : Q)
| PMpf (q : Q)
| PStr (s : string)
| PList (l : list pyval)
| PDict (d : list (string * pyval)).

Definition dict := list (string * pyval).

(** [type(v).__name__] *)
Definition type_name (v : pyval) : string :=
  match v with
  | PNone => "NoneType"
  | PBool _ => "bool"
  | PInt _ => "int"
  | PFloat _ => "float"
  | PMpf _ => "mpf"
  | PStr _ => "str"
  | PList _ => "list"
  | PDict _ => "dict"
  end.

(** The numeric value of the numeric types ([bool] is a subtype of [int]). *)
Definition py_num (v : pyval) : option Q :=
  match v with
  | PBool b => Some (if b then 1%Q else 0%Q)
  | PInt z => Some (inject_Z z)
  | PFloat q => Some q
  | PMpf q => Some q
  | _ => None
  end.

(** ** Dictionaries *)

Fixpoint dict_get (name : string) (d : dict) : option pyval :=
  match d with
  | [] => None
  | (k, v) :: d' => if String.eqb name k then Some v else dict_get name d'
  end.

(** [name in d] *)
Definition dict_mem (name : string) (d : dict) : bool :=
  match dict_get name d with Some _ => true | None => false end.

(** [d[name] = v]: an existing key keeps its place, a new one is appended. *)
Fixpoint dict_set (name : string) (v : pyval) (d : dict) : dict :=
  match d with
  | [] => [(name, v)]
  | (k, w) :: d' =>
      if String.eqb name k then (k, v) :: d' else (k, w) :: dict_set name v d'
  end.

(** [a == b] on Python values: numbers compare by value across the numeric
    types, sequences element-wise, dicts as finite maps, and values of
    unrelated types are never equal. *)
Fixpoint py_eq (a b : pyval) {struct a} : bool :=
  match a with
  | PNone => match b with PNone => true | _ => false end
  | PStr s => match b with PStr t => String.eqb s t | _ => false end
  | PList l =>
      match b with
      | PList m =>
          (fix go (l m : list pyval) {struct l} : bool :=
             match l, m with
             | [], [] => true
             | x :: l', y :: m' => py_eq x y && go l' m'
             | _, _ => false
             end) l m
      | _ => false
      end
  | PDict d =>
      match b with
      | PDict e =>
          Nat.eqb (List.length d) (List.length e)
          && (fix go (d : list (string * pyval)) {struct d} : bool :=
                match d with
                | [] => true
                | (k, v) :: d' =>
                    match dict_get k e with
                    | Some w => py_eq v w
                    | None => false
                    end && go d'
                end) d
      | _ => false
      end
  | _ =>
      match py_num a, py_num b with
      | Some x, Some y => Qeq_bool x y
      | _, _ => false
      end
  end.

(** [a != b] *)
Definition py_ne (a b : pyval) : bool := negb (py_eq a b).

(** ** Exceptions ([exceptions.py]) and results *)

Inductive exn : Type :=
| DeserializeException (message : string) (payload : pyval)
| IndexError
| TypeError
| ValueError.

Inductive result (A : Type) : Type :=
| Ok (a : A)
| Raise (e : exn).
Arguments Ok {A} a.
Arguments Raise {A} e.

Definition bind {A B : Type} (m : result A) (f : A -> result B) : result B :=
  match m with
  | Ok a => f a
  | Raise e => Raise e
  end.

Declare Scope py_scope.
Delimit Scope py_scope with py.
Notation "x <- m ;; k" := (bind m (fun x => k))
  (at level 61, m at next level, right associativity) : py_scope.
Notation "' p <- m ;; k" := (bind m (fun x => let p := x in k))
  (at level 61, p pattern, m at next level, right associativity) : py_scope.
Local Open Scope py_scope.

Definition is_ok {A : Type} (m : result A) : bool :=
  match m with Ok _ => true | Raise _ => false end.

(** ** List indexing *)

(** [l[i]] with Python's negative indices; out of range raises IndexError. *)
Definition py_index {A : Type} (l : list A) (i : Z) : result A :=
  let n := Z.of_nat (List.length l) in
  let j := if i <? 0 then i + n else i in
  if (0 <=? j) && (j <? n) then
    match nth_error l (Z.to_nat j) with
    | Some a => Ok a
    | None => Raise IndexError
    end
  else Raise IndexError.

Fixpoint set_nth {A : Type} (l : list A) (n : nat) (a : A) : list A :=
  match l, n with
  | [], _ => []
  | _ :: l', O => a :: l'
  | b :: l', S n' => b :: set_nth l' n' a
  end.

(** [l[i] = a] *)
Definition py_setitem {A : Type} (l : list A) (i : Z) (a : A) : result (list A) :=
  let n := Z.of_nat (List.length l) in
  let j := if i <? 0 then i + n else i in
  if (0 <=? j) && (j <? n) then Ok (set_nth l (Z.to_nat j) a)
  else Raise IndexError.

(** [enumerate(l)] *)
Fixpoint enumerate_from {A : Type} (i : Z) (l : list A) : list (Z * A) :=
  match l with
  | [] => []
  | a :: l' => (i, a) :: enumerate_from (i + 1) l'
  end.
Definition enumerate {A : Type} (l : list A) : list (Z * A) := enumerate_from 0 l.

(** [range(a, b)] for naturals *)
Definition range (a b : nat) : list Z := map Z.of_nat (seq a (b - a)).

(** A [for] loop whose body may raise. *)
Fixpoint for_each {A S : Type} (l : list A) (body : A -> S -> result S) (s : S)
  : result S :=
  match l with
  | [] => Ok s
  | a :: l' => s' <- body a s ;; for_each l' body s'
  end.

(** [x in l] and [l.index(x)] on integer lists *)
Definition z_in (x : Z) (l : list Z) : bool := existsb (Z.eqb x) l.

Fixpoint z_index_from (n : Z) (x : Z) (l : list Z) : result Z :=
  match l with
  | [] => Raise ValueError
  | y :: l' => if Z.eqb y x then Ok n else z_index_from (n + 1) x l'
  end.
Definition z_index (x : Z) (l : list Z) : result Z := z_index_from 0 x l.

(** [l.remove(x)]: drops the first occurrence, ValueError when absent. *)
Fixpoint z_remove (x : Z) (l : list Z) : result (list Z) :=
  match l with
  | [] => Raise ValueError
  | y :: l' => if Z.eqb y x then Ok l' else l'' <- z_remove x l' ;; Ok (y :: l'')
  end.

(** ** Strings *)

Definition newline : ascii := ascii_of_nat 10.
Definition nl : string := String newline EmptyString.

(** [s.split("\n")] *)
Fixpoint split_lines (s : string) : list string :=
  match s with
  | EmptyString => [EmptyString]
  | String c s' =>
      if Ascii.eqb c newline then EmptyString :: split_lines s'
      else match split_lines s' with
           | h :: t => String c h :: t
           | [] => [String c EmptyString]
           end
  end.

(** ["\n".join(l)] *)
Fixpoint join_lines (l : list string) : string :=
  match l with
  | [] => EmptyString
  | [a] => a
  | a :: l' => a ++ nl ++ join_lines l'
  end.

(** White space, as [str.isspace] has it for the code points below 256. *)
Definition is_space (c : ascii) : bool :=
  let n := nat_of_ascii c in
  ((9 <=? n) && (n <=? 13) || (28 <=? n) && (n <=? 32)
   || (n =? 133) || (n =? 160))%nat.

(** [s.rstrip()] *)
Fixpoint rstrip (s : string) : string :=
  match s with
  | EmptyString => EmptyString
  | String c s' =>
      match rstrip s' with
      | EmptyString => if is_space c then EmptyString else String c EmptyString
      | r => String c r
      end
  end.

(** [needle in haystack] on strings *)
Fixpoint str_contains (needle haystack : string) : bool :=
  String.prefix needle haystack
  || match haystack with
     | EmptyString => false
     | String _ h' => str_contains needle h'
     end.

(** ** Numbers *)

(** An [mpf]: a rational in lowest terms. *)
Record mpf : Type := Mpf { mpf_q : Q }.

(** The working precision of mpmath, in bits. *)
Definition prec : Z := 53.

(** [n / d] rounded to the nearest integer, ties to even, for [0 < d]. *)
Definition round_half_even (n d : Z) : Z :=
  let q := n / d in
  match 2 * (n mod d) ?= d with
  | Lt => q
  | Gt => q + 1
  | Eq => if Z.even q then q else q + 1
  end.

(** [floor(log2(a / d))] for positive [a] and [d]. *)
Definition ilog2 (a d : Z) : Z :=
  let k := Z.log2 a - Z.log2 d in
  if a * 2 ^ Z.max 0 (- k) <? d * 2 ^ Z.max 0 k then k - 1 else k.

(** Rounding to [prec] bits: [x] is scaled by a power of two [2 ^ e] to a
    mantissa of [prec] bits, the mantissa is rounded to the nearest integer
    with ties to even, and the result is scaled back.  The exponent is not
    bounded. *)
Definition mpf_round (x : Q) : Q :=
  let n := Qnum x in
  let d := Zpos (Qden x) in
  if n =? 0 then 0%Q
  else
    let a := Z.abs n in
    let e := ilog2 a d - (prec - 1) in
    let m := round_half_even (a * 2 ^ Z.max 0 (- e)) (d * 2 ^ Z.max 0 e) in
    Qred (Qmake (Z.sgn n * m * 2 ^ Z.max 0 e) (Z.to_pos (2 ^ Z.max 0 (- e)))).

Definition mpf_of_Z (z : Z) : mpf := Mpf (inject_Z z).
Definition mpf_add (a b : mpf) : mpf := Mpf (mpf_round (mpf_q a + mpf_q b)).
Definition mpf_sub (a b : mpf) : mpf := Mpf (mpf_round (mpf_q a - mpf_q b)).
Definition mpf_eqb (a b : mpf) : bool := Qeq_bool (mpf_q a) (mpf_q b).
Definition mpf_ltb (a b : mpf) : bool := negb (Qle_bool (mpf_q b) (mpf_q a)).

(** [a % b], whose sign follows the divisor: the remainder is computed
    exactly and then rounded.  (mpmath returns a dividend that is smaller
    than the divisor as it is; the dividends of [keyboard.py] are results of
    [+], which are rounded already, or the remainder is only compared
    with 0.) *)
Definition mpf_mod (a b : mpf) : mpf :=
  Mpf (mpf_round (mpf_q a - mpf_q b * inject_Z (Qfloor (mpf_q a / mpf_q b)))).

(** [int(a)] truncates towards zero. *)
Definition mpf_int (a : mpf) : Z := Z.quot (Qnum (mpf_q a)) (Zpos (Qden (mpf_q a))).

(** A text size: a Python [int] or [float]. *)
Inductive num : Type :=
| NInt (z : Z)
| NFloat (q : Q).

Definition num_q (n : num) : Q :=
  match n with NInt z => inject_Z z | NFloat q => q end.
Definition num_eqb (a b : num) : bool := Qeq_bool (num_q a) (num_q b).
(** [bool(n)] *)
Definition num_truth (n : num) : bool := negb (Qeq_bool (num_q n) 0).
Definition num0 : num := NInt 0.

(** The type variables [T] and [S] of [utils.py]: types whose values are
    Python objects. *)
Class ToPy (T : Type) : Type := to_py : T -> pyval.

#[export] Instance mpf_ToPy : ToPy mpf := fun a => PMpf (mpf_q a).
#[export] Instance num_ToPy : ToPy num :=
  fun n => match n with NInt z => PInt z | NFloat q => PFloat q end.
#[export] Instance Z_ToPy : ToPy Z := PInt.
#[export] Instance bool_ToPy : ToPy bool := PBool.
#[export] Instance string_ToPy : ToPy string := PStr.
#[export] Instance unit_ToPy : ToPy unit := fun _ => PNone.
#[export] Instance pyval_ToPy : ToPy pyval := fun v => v.
#[export] Instance list_ToPy {T : Type} `{ToPy T} : ToPy (list T) :=
  fun l => PList (map to_py l).

(** *** Reading JSON values *)

(** [mpf(str(v))] for a JSON number *)
Definition mpf_of_str (v : pyval) : result mpf :=
  match v with
  | PInt z => Ok (Mpf (mpf_round (inject_Z z)))
  | PFloat q => Ok (Mpf (mpf_round q))
  | _ => Raise ValueError
  end.

Definition as_num (v : pyval) : result num :=
  match v with
  | PInt z => Ok (NInt z)
  | PFloat q => Ok (NFloat q)
  | _ => Raise TypeError
  end.

Definition as_int (v : pyval) : result Z :=
  match v with PInt z => Ok z | _ => Raise TypeError end.

Definition as_str (v : pyval) : result string :=
  match v with PStr s => Ok s | _ => Raise TypeError end.

Definition as_bool (v : pyval) : result bool :=
  match v with PBool b => Ok b | _ => Raise TypeError end.

(** ** The data model

    The classes of [key.py], [label.py], [switch.py], [metadata.py] and
    [background.py] are imported by [keyboard.py]; their fields and defaults
    are those the specification lists. *)

Module Label.
(** Modelled from the spec: the Label object of [label.py] (text, color,
    size), a plain record with setters. *)
Record t : Type := mk {
  text : string;
  color : string;
  size : num
}.
Definition set_text (v : string) (k : t) : t :=
  {| text := v; color := color k; size := size k |}.
Definition set_color (v : string) (k : t) : t :=
  {| text := text k; color := v; size := size k |}.
Definition set_size (v : num) (k : t) : t :=
  {| text := text k; color := color k; size := v |}.
(** Modelled from the spec: [Label()], whose text and color are empty and
    whose size is 0. *)
Definition init : t := mk "" "" num0.
End Label.

Module Switch.
(** Modelled from the spec: the Switch object of [switch.py] (mount, brand,
    type). *)
Record t : Type := mk {
  mount : string;
  brand : string;
  type : string
}.
Definition set_mount (v : string) (k : t) : t :=
  {| mount := v; brand := brand k; type := type k |}.
Definition set_brand (v : string) (k : t) : t :=
  {| mount := mount k; brand := v; type := type k |}.
Definition set_type (v : string) (k : t) : t :=
  {| mount := mount k; brand := brand k; type := v |}.
(** Modelled from the spec: [Switch()], all of whose strings are empty. *)
Definition init : t := mk "" "" "".
End Switch.

Module Background.
(** Modelled from the spec: the Background object of [background.py] (name,
    style). *)
Record t : Type := mk {
  name : string;
  style : string
}.
Definition set_name (v : string) (k : t) : t :=
  {| name := v; style := style k |}.
Definition set_style (v : string) (k : t) : t :=
  {| name := name k; style := v |}.
(** Modelled from the spec: [Background()], both of whose strings are
    empty. *)
Definition init : t := mk "" "".
End Background.

Module Key.
(** Modelled from the spec: the Key object of [key.py], a plain record with
    setters; the validation done by its setters is not modelled. *)
Record t : Type := mk {
  x : mpf;
  y : mpf;
  width : mpf;
  height : mpf;
  x2 : mpf;
  y2 : mpf;
  width2 : mpf;
  height2 : mpf;
  rotation_angle : mpf;
  rotation_x : mpf;
  rotation_y : mpf;
  labels : list Label.t;
  is_homing : bool;
  is_stepped : bool;
  is_decal : bool;
  is_ghosted : bool;
  profile_and_row : string;
  color : string;
  switch : Switch.t;
  default_text_color : string;
  default_text_size : num
}.
Definition set_x (v : mpf) (k : t) : t :=
  {| x := v; y := y k; width := width k; height := height k; x2 := x2 k;
     y2 := y2 k; width2 := width2 k; height2 := height2 k;
     rotation_angle := rotation_angle k; rotation_x := rotation_x k;
     rotation_y := rotation_y k; labels := labels k;
     is_homing := is_homing k; is_stepped := is_stepped k;
     is_decal := is_decal k; is_ghosted := is_ghosted k;
     profile_and_row := profile_and_row k; color := color k;
     switch := switch k; default_text_color := default_text_color k;
     default_text_size := default_text_size k |}.
Definition set_y (v : mpf) (k : t) : t :=
  {| x := x k; y := v; width := width k; height := height k; x2 := x2 k;
     y2 := y2 k; width2 := width2 k; height2 := height2 k;
     rotation_angle := rotation_angle k; rotation_x := rotation_x k;
     rotation_y := rotation_y k; labels := labels k;
     is_homing := is_homing k; is_stepped := is_stepped k;
     is_decal := is_decal k; is_ghosted := is_ghosted k;
     profile_and_row := profile_and_row k; color := color k;
     switch := switch k; default_text_color := default_text_color k;
     default_text_size := default_text_size k |}.
Definition set_width (v : mpf) (k : t) : t :=
  {| x := x k; y := y k; width := v; height := height k; x2 := x2 k;
     y2 := y2 k; width2 := width2 k; height2 := height2 k;
     rotation_angle := rotation_angle k; rotation_x := rotation_x k;
     rotation_y := rotation_y k; labels := labels k;
     is_homing := is_homing k; is_stepped := is_stepped k;
     is_decal := is_decal k; is_ghosted := is_ghosted k;
     profile_and_row := profile_and_row k; color := color k;
     switch := switch k; default_text_color := default_text_color k;
     default_text_size := default_text_size k |}.
Definition set_height (v : mpf) (k : t) : t :=
  {| x := x k; y := y k; width := width k; height := v; x2 := x2 k;
     y2 := y2 k; width2 := width2 k; height2 := height2 k;
     rotation_angle := rotation_angle k; rotation_x := rotation_x k;
     rotation_y := rotation_y k; labels := labels k;
     is_homing := is_homing k; is_stepped := is_stepped k;
     is_decal := is_decal k; is_ghosted := is_ghosted k;
     profile_and_row := profile_and_row k; color := color k;
     switch := switch k; default_text_color := default_text_color k;
     default_text_size := default_text_size k |}.
Definition set_x2 (v : mpf) (k : t) : t :=
  {| x := x k; y := y k; width := width k; height := height k; x2 := v;
     y2 := y2 k; width2 := width2 k; height2 := height2 k;
     rotation_angle := rotation_angle k; rotation_x := rotation_x k;
     rotation_y := rotation_y k; labels := labels k;
     is_homing := is_homing k; is_stepped := is_stepped k;
     is_decal := is_decal k; is_ghosted := is_ghosted k;
     profile_and_row := profile_and_row k; color := color k;
     switch := switch k; default_text_color := default_text_color k;
     default_text_size := default_text_size k |}.
Definition set_y2 (v : mpf) (k : t) : t :=
  {| x := x k; y := y k; width := width k; height := height k; x2 := x2 k;
     y2 := v; width2 := width2 k; height2 := height2 k;
     rotation_angle := rotation_angle k; rotation_x := rotation_x k;
     rotation_y := rotation_y k; labels := labels k;
     is_homing := is_homing k; is_stepped := is_stepped k;
     is_decal := is_decal k; is_ghosted := is_ghosted k;
     profile_and_row := profile_and_row k; color := color k;
     switch := switch k; default_text_color := default_text_color k;
     default_text_size := default_text_size k |}.
Definition set_width2 (v : mpf) (k : t) : t :=
  {| x := x k; y := y k; width := width k; height := height k; x2 := x2 k;
     y2 := y2 k; width2 := v; height2 := height2 k;
     rotation_angle := rotation_angle k; rotation_x := rotation_x k;
     rotation_y := rotation_y k; labels := labels k;
     is_homing := is_homing k; is_stepped := is_stepped k;
     is_decal := is_decal k; is_ghosted := is_ghosted k;
     profile_and_row := profile_and_row k; color := color k;
     switch := switch k; default_text_color := default_text_color k;
     default_text_size := default_text_size k |}.
Definition set_height2 (v : mpf) (k : t) : t :=
  {| x := x k; y := y k; width := width k; height := height k; x2 := x2 k;
     y2 := y2 k; width2 := width2 k; height2 := v;
     rotation_angle := rotation_angle k; rotation_x := rotation_x k;
     rotation_y := rotation_y k; labels := labels k;
     is_homing := is_homing k; is_stepped := is_stepped k;
     is_decal := is_decal k; is_ghosted := is_ghosted k;
     profile_and_row := profile_and_row k; color := color k;
     switch := switch k; default_text_color := default_text_color k;
     default_text_size := default_text_size k |}.
Definition set_rotation_angle (v : mpf) (k : t) : t :=
  {| x := x k; y := y k; width := width k; height := height k; x2 := x2 k;
     y2 := y2 k; width2 := width2 k; height2 := height2 k;
     rotation_angle := v; rotation_x := rotation_x k;
     rotation_y := rotation_y k; labels := labels k;
     is_homing := is_homing k; is_stepped := is_stepped k;
     is_decal := is_decal k; is_ghosted := is_ghosted k;
     profile_and_row := profile_and_row k; color := color k;
     switch := switch k; default_text_color := default_text_color k;
     default_text_size := default_text_size k |}.
Definition set_rotation_x (v : mpf) (k : t) : t :=
  {| x := x k; y := y k; width := width k; height := height k; x2 := x2 k;
     y2 := y2 k; width2 := width2 k; height2 := height2 k;
     rotation_angle := rotation_angle k; rotation_x := v;
     rotation_y := rotation_y k; labels := labels k;
     is_homing := is_homing k; is_stepped := is_stepped k;
     is_decal := is_decal k; is_ghosted := is_ghosted k;
     profile_and_row := profile_and_row k; color := color k;
     switch := switch k; default_text_color := default_text_color k;
     default_text_size := default_text_size k |}.
Definition set_rotation_y (v : mpf) (k : t) : t :=
  {| x := x k; y := y k; width := width k; height := height k; x2 := x2 k;
     y2 := y2 k; width2 := width2 k; height2 := height2 k;
     rotation_angle := rotation_angle k; rotation_x := rotation_x k;
     rotation_y := v; labels := labels k; is_homing := is_homing k;
     is_stepped := is_stepped k; is_decal := is_decal k;
     is_ghosted := is_ghosted k; profile_and_row := profile_and_row k;
     color := color k; switch := switch k;
     default_text_color := default_text_color k;
     default_text_size := default_text_size k |}.
Definition set_labels (v : list Label.t) (k : t) : t :=
  {| x := x k; y := y k; width := width k; height := height k; x2 := x2 k;
     y2 := y2 k; width2 := width2 k; height2 := height2 k;
     rotation_angle := rotation_angle k; rotation_x := rotation_x k;
     rotation_y := rotation_y k; labels := v; is_homing := is_homing k;
     is_stepped := is_stepped k; is_decal := is_decal k;
     is_ghosted := is_ghosted k; profile_and_row := profile_and_row k;
     color := color k; switch := switch k;
     default_text_color := default_text_color k;
     default_text_size := default_text_size k |}.
Definition set_is_homing (v : bool) (k : t) : t :=
  {| x := x k; y := y k; width := width k; height := height k; x2 := x2 k;
     y2 := y2 k; width2 := width2 k; height2 := height2 k;
     rotation_angle := rotation_angle k; rotation_x := rotation_x k;
     rotation_y := rotation_y k; labels := labels k; is_homing := v;
     is_stepped := is_stepped k; is_decal := is_decal k;
     is_ghosted := is_ghosted k; profile_and_row := profile_and_row k;
     color := color k; switch := switch k;
     default_text_color := default_text_color k;
     default_text_size := default_text_size k |}.
Definition set_is_stepped (v : bool) (k : t) : t :=
  {| x := x k; y := y k; width := width k; height := height k; x2 := x2 k;
     y2 := y2 k; width2 := width2 k; height2 := height2 k;
     rotation_angle := rotation_angle k; rotation_x := rotation_x k;
     rotation_y := rotation_y k; labels := labels k;
     is_homing := is_homing k; is_stepped := v; is_decal := is_decal k;
     is_ghosted := is_ghosted k; profile_and_row := profile_and_row k;
     color := color k; switch := switch k;
     default_text_color := default_text_color k;
     default_text_size := default_text_size k |}.
Definition set_is_decal (v : bool) (k : t) : t :=
  {| x := x k; y := y k; width := width k; height := height k; x2 := x2 k;
     y2 := y2 k; width2 := width2 k; height2 := height2 k;
     rotation_angle := rotation_angle k; rotation_x := rotation_x k;
     rotation_y := rotation_y k; labels := labels k;
     is_homing := is_homing k; is_stepped := is_stepped k; is_decal := v;
     is_ghosted := is_ghosted k; profile_and_row := profile_and_row k;
     color := color k; switch := switch k;
     default_text_color := default_text_color k;
     default_text_size := default_text_size k |}.
Definition set_is_ghosted (v : bool) (k : t) : t :=
  {| x := x k; y := y k; width := width k; height := height k; x2 := x2 k;
     y2 := y2 k; width2 := width2 k; height2 := height2 k;
     rotation_angle := rotation_angle k; rotation_x := rotation_x k;
     rotation_y := rotation_y k; labels := labels k;
     is_homing := is_homing k; is_stepped := is_stepped k;
     is_decal := is_decal k; is_ghosted := v;
     profile_and_row := profile_and_row k; color := color k;
     switch := switch k; default_text_color := default_text_color k;
     default_text_size := default_text_size k |}.
Definition set_profile_and_row (v : string) (k : t) : t :=
  {| x := x k; y := y k; width := width k; height := height k; x2 := x2 k;
     y2 := y2 k; width2 := width2 k; height2 := height2 k;
     rotation_angle := rotation_angle k; rotation_x := rotation_x k;
     rotation_y := rotation_y k; labels := labels k;
     is_homing := is_homing k; is_stepped := is_stepped k;
     is_decal := is_decal k; is_ghosted := is_ghosted k;
     profile_and_row := v; color := color k; switch := switch k;
     default_text_color := default_text_color k;
     default_text_size := default_text_size k |}.
Definition set_color (v : string) (k : t) : t :=
  {| x := x k; y := y k; width := width k; height := height k; x2 := x2 k;
     y2 := y2 k; width2 := width2 k; height2 := height2 k;
     rotation_angle := rotation_angle k; rotation_x := rotation_x k;
     rotation_y := rotation_y k; labels := labels k;
     is_homing := is_homing k; is_stepped := is_stepped k;
     is_decal := is_decal k; is_ghosted := is_ghosted k;
     profile_and_row := profile_and_row k; color := v; switch := switch k;
     default_text_color := default_text_color k;
     default_text_size := default_text_size k |}.
Definition set_switch (v : Switch.t) (k : t) : t :=
  {| x := x k; y := y k; width := width k; height := height k; x2 := x2 k;
     y2 := y2 k; width2 := width2 k; height2 := height2 k;
     rotation_angle := rotation_angle k; rotation_x := rotation_x k;
     rotation_y := rotation_y k; labels := labels k;
     is_homing := is_homing k; is_stepped := is_stepped k;
     is_decal := is_decal k; is_ghosted := is_ghosted k;
     profile_and_row := profile_and_row k; color := color k; switch := v;
     default_text_color := default_text_color k;
     default_text_size := default_text_size k |}.
Definition set_default_text_color (v : string) (k : t) : t :=
  {| x := x k; y := y k; width := width k; height := height k; x2 := x2 k;
     y2 := y2 k; width2 := width2 k; height2 := height2 k;
     rotation_angle := rotation_angle k; rotation_x := rotation_x k;
     rotation_y := rotation_y k; labels := labels k;
     is_homing := is_homing k; is_stepped := is_stepped k;
     is_decal := is_decal k; is_ghosted := is_ghosted k;
     profile_and_row := profile_and_row k; color := color k;
     switch := switch k; default_text_color := v;
     default_text_size := default_text_size k |}.
Definition set_default_text_size (v : num) (k : t) : t :=
  {| x := x k; y := y k; width := width k; height := height k; x2 := x2 k;
     y2 := y2 k; width2 := width2 k; height2 := height2 k;
     rotation_angle := rotation_angle k; rotation_x := rotation_x k;
     rotation_y := rotation_y k; labels := labels k;
     is_homing := is_homing k; is_stepped := is_stepped k;
     is_decal := is_decal k; is_ghosted := is_ghosted k;
     profile_and_row := profile_and_row k; color := color k;
     switch := switch k; default_text_color := default_text_color k;
     default_text_size := v |}.
(** Modelled from the spec: [Key()], with width and height 1, every other
    number 0, flags false, strings empty and twelve fresh labels. *)
Definition init : t :=
  mk (mpf_of_Z 0) (mpf_of_Z 0) (mpf_of_Z 1) (mpf_of_Z 1)
     (mpf_of_Z 0) (mpf_of_Z 0) (mpf_of_Z 0) (mpf_of_Z 0)
     (mpf_of_Z 0) (mpf_of_Z 0) (mpf_of_Z 0)
     (repeat Label.init 12) false false false false
     "" "" Switch.init "" num0.
End Key.

Module Metadata.
(** Modelled from the spec: the Metadata object of [metadata.py]. *)
Record t : Type := mk {
  author : string;
  background_color : string;
  background : Background.t;
  name : string;
  notes : string;
  radii : string;
  switch : Switch.t;
  css : string;
  is_switches_pcb_mounted : bool;
  include_switches_pcb_mounted : bool;
  is_switches_plate_mounted : bool;
  include_switches_plate_mounted : bool
}.
Definition set_author (v : string) (k : t) : t :=
  {| author := v; background_color := background_color k;
     background := background k; name := name k; notes := notes k;
     radii := radii k; switch := switch k; css := css k;
     is_switches_pcb_mounted := is_switches_pcb_mounted k;
     include_switches_pcb_mounted := include_switches_pcb_mounted k;
     is_switches_plate_mounted := is_switches_plate_mounted k;
     include_switches_plate_mounted := include_switches_plate_mounted k |}.
Definition set_background_color (v : string) (k : t) : t :=
  {| author := author k; background_color := v; background := background k;
     name := name k; notes := notes k; radii := radii k; switch := switch k;
     css := css k; is_switches_pcb_mounted := is_switches_pcb_mounted k;
     include_switches_pcb_mounted := include_switches_pcb_mounted k;
     is_switches_plate_mounted := is_switches_plate_mounted k;
     include_switches_plate_mounted := include_switches_plate_mounted k |}.
Definition set_background (v : Background.t) (k : t) : t :=
  {| author := author k; background_color := background_color k;
     background := v; name := name k; notes := notes k; radii := radii k;
     switch := switch k; css := css k;
     is_switches_pcb_mounted := is_switches_pcb_mounted k;
     include_switches_pcb_mounted := include_switches_pcb_mounted k;
     is_switches_plate_mounted := is_switches_plate_mounted k;
     include_switches_plate_mounted := include_switches_plate_mounted k |}.
Definition set_name (v : string) (k : t) : t :=
  {| author := author k; background_color := background_color k;
     background := background k; name := v; notes := notes k;
     radii := radii k; switch := switch k; css := css k;
     is_switches_pcb_mounted := is_switches_pcb_mounted k;
     include_switches_pcb_mounted := include_switches_pcb_mounted k;
     is_switches_plate_mounted := is_switches_plate_mounted k;
     include_switches_plate_mounted := include_switches_plate_mounted k |}.
Definition set_notes (v : string) (k : t) : t :=
  {| author := author k; background_color := background_color k;
     background := background k; name := name k; notes := v;
     radii := radii k; switch := switch k; css := css k;
     is_switches_pcb_mounted := is_switches_pcb_mounted k;
     include_switches_pcb_mounted := include_switches_pcb_mounted k;
     is_switches_plate_mounted := is_switches_plate_mounted k;
     include_switches_plate_mounted := include_switches_plate_mounted k |}.
Definition set_radii (v : string) (k : t) : t :=
  {| author := author k; background_color := background_color k;
     background := background k; name := name k; notes := notes k;
     radii := v; switch := switch k; css := css k;
     is_switches_pcb_mounted := is_switches_pcb_mounted k;
     include_switches_pcb_mounted := include_switches_pcb_mounted k;
     is_switches_plate_mounted := is_switches_plate_mounted k;
     include_switches_plate_mounted := include_switches_plate_mounted k |}.
Definition set_switch (v : Switch.t) (k : t) : t :=
  {| author := author k; background_color := background_color k;
     background := background k; name := name k; notes := notes k;
     radii := radii k; switch := v; css := css k;
     is_switches_pcb_mounted := is_switches_pcb_mounted k;
     include_switches_pcb_mounted := include_switches_pcb_mounted k;
     is_switches_plate_mounted := is_switches_plate_mounted k;
     include_switches_plate_mounted := include_switches_plate_mounted k |}.
Definition set_css (v : string) (k : t) : t :=
  {| author := author k; background_color := background_color k;
     background := background k; name := name k; notes := notes k;
     radii := radii k; switch := switch k; css := v;
     is_switches_pcb_mounted := is_switches_pcb_mounted k;
     include_switches_pcb_mounted := include_switches_pcb_mounted k;
     is_switches_plate_mounted := is_switches_plate_mounted k;
     include_switches_plate_mounted := include_switches_plate_mounted k |}.
Definition set_is_switches_pcb_mounted (v : bool) (k : t) : t :=
  {| author := author k; background_color := background_color k;
     background := background k; name := name k; notes := notes k;
     radii := radii k; switch := switch k; css := css k;
     is_switches_pcb_mounted := v;
     include_switches_pcb_mounted := include_switches_pcb_mounted k;
     is_switches_plate_mounted := is_switches_plate_mounted k;
     include_switches_plate_mounted := include_switches_plate_mounted k |}.
Definition set_include_switches_pcb_mounted (v : bool) (k : t) : t :=
  {| author := author k; background_color := background_color k;
     background := background k; name := name k; notes := notes k;
     radii := radii k; switch := switch k; css := css k;
     is_switches_pcb_mounted := is_switches_pcb_mounted k;
     include_switches_pcb_mounted := v;
     is_switches_plate_mounted := is_switches_plate_mounted k;
     include_switches_plate_mounted := include_switches_plate_mounted k |}.
Definition set_is_switches_plate_mounted (v : bool) (k : t) : t :=
  {| author := author k; background_color := background_color k;
     background := background k; name := name k; notes := notes k;
     radii := radii k; switch := switch k; css := css k;
     is_switches_pcb_mounted := is_switches_pcb_mounted k;
     include_switches_pcb_mounted := include_switches_pcb_mounted k;
     is_switches_plate_mounted := v;
     include_switches_plate_mounted := include_switches_plate_mounted k |}.
Definition set_include_switches_plate_mounted (v : bool) (k : t) : t :=
  {| author := author k; background_color := background_color k;
     background := background k; name := name k; notes := notes k;
     radii := radii k; switch := switch k; css := css k;
     is_switches_pcb_mounted := is_switches_pcb_mounted k;
     include_switches_pcb_mounted := include_switches_pcb_mounted k;
     is_switches_plate_mounted := is_switches_plate_mounted k;
     include_switches_plate_mounted := v |}.
(** Modelled from the spec: [Metadata()], with empty strings and false
    flags. *)
Definition init : t :=
  mk "" "" Background.init "" "" "" Switch.init "" false false false false.
End Metadata.


(** ** Alignment tables *)

(** [label_map[a][i]] is the canonical slot of aligned position [i] under
    alignment [a]; -1 marks an unused position. *)
Definition label_map : list (list Z) :=
  [ [0; 6; 2; 8; 9; 11; 3; 5; 1; 4; 7; 10];
    [1; 7; -1; -1; 9; 11; 4; -1; -1; -1; -1; 10];
    [3; -1; 5; -1; 9; 11; -1; -1; 4; -1; -1; 10];
    [4; -1; -1; -1; 9; 11; -1; -1; -1; -1; -1; 10];
    [0; 6; 2; 8; 10; -1; 3; 5; 1; 4; 7; -1];
    [1; 7; -1; -1; 10; -1; 4; -1; -1; -1; -1; -1];
    [3; -1; 5; -1; 10; -1; -1; -1; 4; -1; -1; -1];
    [4; -1; -1; -1; 10; -1; -1; -1; -1; -1; -1; -1] ].

Definition disallowed_alignnment_for_labels : list (list Z) :=
  [ [1; 2; 3; 5; 6; 7];
    [2; 3; 6; 7];
    [1; 2; 3; 5; 6; 7];
    [1; 3; 5; 7];
    [];
    [1; 3; 5; 7];
    [1; 2; 3; 5; 6; 7];
    [2; 3; 6; 7];
    [1; 2; 3; 5; 6; 7];
    [4; 5; 6; 7];
    [];
    [4; 5; 6; 7] ].

(** [unaligned]: scatters the aligned items into a 12-element list.  The
    index read from [label_map] is used as Python uses it: -1 addresses the
    last slot. *)
Definition unaligned {A : Type} (aligned_items : list A) (alignment : Z)
  (default_val : A) : result (list A) :=
  for_each (enumerate aligned_items)
    (fun '(i, aligned_item) unaligned_items =>
       row <- py_index label_map alignment ;;
       slot <- py_index row i ;;
       py_setitem unaligned_items slot aligned_item)
    (repeat default_val 12).

(** The loop of [compare_text_sizes] over the positions [idxs]. *)
Fixpoint compare_text_sizes_loop (idxs : list Z) (text_sizes aligned_text_sizes : list num)
  (aligned_text_labels : list string) : result bool :=
  match idxs with
  | [] => Ok true
  | i :: idxs' =>
      label <- py_index aligned_text_labels i ;;
      if String.eqb label "" then
        compare_text_sizes_loop idxs' text_sizes aligned_text_sizes aligned_text_labels
      else
        t <- py_index text_sizes i ;;
        a <- py_index aligned_text_sizes i ;;
        if negb (Bool.eqb (num_truth t) (num_truth a))
           || (negb (num_eqb t num0) && negb (num_eqb t a))
        then Ok false
        else compare_text_sizes_loop idxs' text_sizes aligned_text_sizes
               aligned_text_labels
  end.

Definition compare_text_sizes (text_sizes : num + list num)
  (aligned_text_sizes : list num) (aligned_text_labels : list string)
  : result bool :=
  let text_sizes :=
    match text_sizes with
    | inl n => n :: repeat num0 11
    | inr l => l
    end in
  compare_text_sizes_loop (range 0 12) text_sizes aligned_text_sizes
    aligned_text_labels.

(** ** Playback of changes *)

(** [if name in changes: body(changes[name])] *)
Definition on_field {S : Type} (name : string) (body : pyval -> S -> result S)
  (changes : dict) (s : S) : result S :=
  match dict_get name changes with
  | Some v => body v s
  | None => Ok s
  end.

(** [name in v] for the value found under ["background"] *)
Definition py_contains (name : string) (v : pyval) : result bool :=
  match v with
  | PDict d => Ok (dict_mem name d)
  | PList l => Ok (existsb (py_eq (PStr name)) l)
  | PStr s => Ok (str_contains name s)
  | _ => Raise TypeError
  end.

(** [v[name]] with a string subscript *)
Definition py_getitem (v : pyval) (name : string) : result pyval :=
  match v with
  | PDict d =>
      match dict_get name d with
      | Some w => Ok w
      | None => Raise IndexError
      end
  | _ => Raise TypeError
  end.

Definition set_str {S : Type} (set : string -> S -> S) (v : pyval) (s : S)
  : result S :=
  x <- as_str v ;; Ok (set x s).

Definition set_bool {S : Type} (set : bool -> S -> S) (v : pyval) (s : S)
  : result S :=
  x <- as_bool v ;; Ok (set x s).

Definition set_background_field (name : string)
  (set : string -> Background.t -> Background.t) (bg : pyval)
  (metadata : Metadata.t) : result Metadata.t :=
  present <- py_contains name bg ;;
  if present then
    v <- py_getitem bg name ;;
    x <- as_str v ;;
    Ok (Metadata.set_background (set x (Metadata.background metadata)) metadata)
  else Ok metadata.

Definition set_metadata_switch (set : string -> Switch.t -> Switch.t)
  (v : pyval) (metadata : Metadata.t) : result Metadata.t :=
  x <- as_str v ;;
  Ok (Metadata.set_switch (set x (Metadata.switch metadata)) metadata).

Definition playback_metadata_changes (metadata : Metadata.t)
  (metadata_changes : dict) : result Metadata.t :=
  m <- on_field "author" (set_str Metadata.set_author) metadata_changes metadata ;;
  m <- on_field "backcolor" (set_str Metadata.set_background_color)
         metadata_changes m ;;
  m <- on_field "background"
         (fun bg m =>
            m <- set_background_field "name" Background.set_name bg m ;;
            set_background_field "style" Background.set_style bg m)
         metadata_changes m ;;
  m <- on_field "name" (set_str Metadata.set_name) metadata_changes m ;;
  m <- on_field "notes" (set_str Metadata.set_notes) metadata_changes m ;;
  m <- on_field "radii" (set_str Metadata.set_radii) metadata_changes m ;;
  m <- on_field "switchMount" (set_metadata_switch Switch.set_mount)
         metadata_changes m ;;
  m <- on_field "switchBrand" (set_metadata_switch Switch.set_brand)
         metadata_changes m ;;
  m <- on_field "switchType" (set_metadata_switch Switch.set_type)
         metadata_changes m ;;
  m <- on_field "css" (set_str Metadata.set_css) metadata_changes m ;;
  m <- on_field "pcb"
         (fun v m =>
            b <- as_bool v ;;
            Ok (Metadata.set_include_switches_pcb_mounted true
                  (Metadata.set_is_switches_pcb_mounted b m)))
         metadata_changes m ;;
  on_field "plate"
    (fun v m =>
       b <- as_bool v ;;
       Ok (Metadata.set_include_switches_plate_mounted true
             (Metadata.set_is_switches_plate_mounted b m)))
    metadata_changes m.

(** The key under construction together with the running values that
    [playback_key_changes] receives and returns. *)
Record playback_state : Type := mk_playback {
  pb_key : Key.t;
  pb_labels_color : list string;
  pb_labels_size : list num;
  pb_alignment : Z;
  pb_rotation_x : mpf;
  pb_rotation_y : mpf
}.

Definition pb_set_key (k : Key.t) (s : playback_state) : playback_state :=
  mk_playback k (pb_labels_color s) (pb_labels_size s) (pb_alignment s)
    (pb_rotation_x s) (pb_rotation_y s).
Definition pb_set_labels_color (c : list string) (s : playback_state)
  : playback_state :=
  mk_playback (pb_key s) c (pb_labels_size s) (pb_alignment s)
    (pb_rotation_x s) (pb_rotation_y s).
Definition pb_set_labels_size (z : list num) (s : playback_state)
  : playback_state :=
  mk_playback (pb_key s) (pb_labels_color s) z (pb_alignment s)
    (pb_rotation_x s) (pb_rotation_y s).
Definition pb_set_alignment (a : Z) (s : playback_state) : playback_state :=
  mk_playback (pb_key s) (pb_labels_color s) (pb_labels_size s) a
    (pb_rotation_x s) (pb_rotation_y s).
Definition pb_set_rotation_x (x : mpf) (s : playback_state) : playback_state :=
  mk_playback (pb_key s) (pb_labels_color s) (pb_labels_size s) (pb_alignment s)
    x (pb_rotation_y s).
Definition pb_set_rotation_y (y : mpf) (s : playback_state) : playback_state :=
  mk_playback (pb_key s) (pb_labels_color s) (pb_labels_size s) (pb_alignment s)
    (pb_rotation_x s) y.

(** [key.field = mpf(str(v))] *)
Definition key_mpf (set : mpf -> Key.t -> Key.t) (v : pyval) (s : playback_state)
  : result playback_state :=
  x <- mpf_of_str v ;; Ok (pb_set_key (set x (pb_key s)) s).

Definition key_str (set : string -> Key.t -> Key.t) (v : pyval)
  (s : playback_state) : result playback_state :=
  x <- as_str v ;; Ok (pb_set_key (set x (pb_key s)) s).

Definition key_bool (set : bool -> Key.t -> Key.t) (v : pyval)
  (s : playback_state) : result playback_state :=
  x <- as_bool v ;; Ok (pb_set_key (set x (pb_key s)) s).

Definition play_rx (v : pyval) (s : playback_state) : result playback_state :=
  rx <- mpf_of_str v ;;
  let s := pb_set_key (Key.set_rotation_x rx (pb_key s)) s in
  let s := pb_set_rotation_x rx s in
  let s := pb_set_key (Key.set_x (pb_rotation_x s) (pb_key s)) s in
  Ok (pb_set_key (Key.set_y (pb_rotation_y s) (pb_key s)) s).

Definition play_ry (v : pyval) (s : playback_state) : result playback_state :=
  ry <- mpf_of_str v ;;
  let s := pb_set_key (Key.set_rotation_y ry (pb_key s)) s in
  let s := pb_set_rotation_y ry s in
  let s := pb_set_key (Key.set_x (pb_rotation_x s) (pb_key s)) s in
  Ok (pb_set_key (Key.set_y (pb_rotation_y s) (pb_key s)) s).

Definition play_a (v : pyval) (s : playback_state) : result playback_state :=
  a <- as_int v ;; Ok (pb_set_alignment a s).

Definition play_f (v : pyval) (s : playback_state) : result playback_state :=
  f <- as_num v ;;
  let s := pb_set_key (Key.set_default_text_size f (pb_key s)) s in
  Ok (pb_set_labels_size (map (fun _ => num0) (pb_labels_size s)) s).

Definition play_f2 (v : pyval) (s : playback_state) : result playback_state :=
  f2 <- as_num v ;;
  sizes <- for_each (range 1 12) (fun i sizes => py_setitem sizes i f2)
             (pb_labels_size s) ;;
  Ok (pb_set_labels_size sizes s).

Definition play_fa (v : pyval) (s : playback_state) : result playback_state :=
  match v with
  | PList fa =>
      sizes <- for_each (enumerate fa)
                 (fun '(i, e) sizes => n <- as_num e ;; py_setitem sizes i n)
                 (pb_labels_size s) ;;
      sizes <- for_each (range (List.length fa) 12)
                 (fun i sizes => py_setitem sizes i num0) sizes ;;
      Ok (pb_set_labels_size sizes s)
  | _ => Raise TypeError
  end.

Definition play_t (v : pyval) (s : playback_state) : result playback_state :=
  t <- as_str v ;;
  let labels_color := split_lines t in
  first <- py_index labels_color 0 ;;
  let s :=
    if negb (String.eqb first "")
    then pb_set_key (Key.set_default_text_color first (pb_key s)) s
    else s in
  colors <- unaligned labels_color (pb_alignment s) "" ;;
  current <- for_each (enumerate colors)
               (fun '(i, color) current => py_setitem current i color)
               (pb_labels_color s) ;;
  Ok (pb_set_labels_color current s).

Definition play_x (v : pyval) (s : playback_state) : result playback_state :=
  x <- mpf_of_str v ;;
  Ok (pb_set_key (Key.set_x (mpf_add (Key.x (pb_key s)) x) (pb_key s)) s).

Definition play_y (v : pyval) (s : playback_state) : result playback_state :=
  y <- mpf_of_str v ;;
  Ok (pb_set_key (Key.set_y (mpf_add (Key.y (pb_key s)) y) (pb_key s)) s).

Definition play_w (v : pyval) (s : playback_state) : result playback_state :=
  w <- mpf_of_str v ;;
  Ok (pb_set_key (Key.set_width2 w (Key.set_width w (pb_key s))) s).

Definition play_h (v : pyval) (s : playback_state) : result playback_state :=
  h <- mpf_of_str v ;;
  Ok (pb_set_key (Key.set_height2 h (Key.set_height h (pb_key s))) s).

(** [key.switch.mount = v] *)
Definition play_switch_mount (v : pyval) (s : playback_state)
  : result playback_state :=
  m <- as_str v ;;
  Ok (pb_set_key
        (Key.set_switch (Switch.set_mount m (Key.switch (pb_key s))) (pb_key s)) s).

(** The fields of a key-changes mapping, in the order in which
    [playback_key_changes] looks them up. *)
Definition key_change_steps
  : list (string * (pyval -> playback_state -> result playback_state)) :=
  [ ("r", key_mpf Key.set_rotation_angle);
    ("rx", play_rx);
    ("ry", play_ry);
    ("a", play_a);
    ("f", play_f);
    ("f2", play_f2);
    ("fa", play_fa);
    ("p", key_str Key.set_profile_and_row);
    ("c", key_str Key.set_color);
    ("t", play_t);
    ("x", play_x);
    ("y", play_y);
    ("w", play_w);
    ("h", play_h);
    ("x2", key_mpf Key.set_x2);
    ("y2", key_mpf Key.set_y2);
    ("w2", key_mpf Key.set_width2);
    ("h2", key_mpf Key.set_height2);
    ("n", key_bool Key.set_is_homing);
    ("l", key_bool Key.set_is_stepped);
    ("d", key_bool Key.set_is_decal);
    ("g", key_bool Key.set_is_ghosted);
    ("sm", play_switch_mount);
    ("sb", play_switch_mount);
    ("st", play_switch_mount) ].

Definition play_steps
  (steps : list (string * (pyval -> playback_state -> result playback_state)))
  (key_changes : dict) (s : playback_state) : result playback_state :=
  for_each steps (fun '(name, body) s => on_field name body key_changes s) s.

Definition playback_key_changes (key : Key.t) (key_changes : dict)
  (current_labels_color : list string) (current_labels_size : list num)
  (alignment : Z) (cluster_rotation_x cluster_rotation_y : mpf)
  : result playback_state :=
  play_steps key_change_steps key_changes
    (mk_playback key current_labels_color current_labels_size alignment
       cluster_rotation_x cluster_rotation_y).

(** ** Sorting *)

(** [a < b] on tuples of numbers *)
Fixpoint tuple_ltb (a b : list mpf) : bool :=
  match a, b with
  | x :: a', y :: b' => if mpf_eqb x y then tuple_ltb a' b' else mpf_ltb x y
  | [], _ :: _ => true
  | _, [] => false
  end.

Definition key_sort_criteria (key : Key.t) : list mpf :=
  [ mpf_mod (mpf_add (Key.rotation_angle key) (mpf_of_Z 360)) (mpf_of_Z 360);
    Key.rotation_x key;
    Key.rotation_y key;
    Key.y key;
    Key.x key ].

Section StableSort.
Variables (A K : Type) (ltb : K -> K -> bool) (key : A -> K).

Fixpoint insert_stable (a : A) (l : list A) : list A :=
  match l with
  | [] => [a]
  | b :: l' => if ltb (key b) (key a) then b :: insert_stable a l' else a :: l
  end.

(** [sorted(l, key=key)]: a stable sort that compares keys with [<]. *)
Definition sorted (l : list A) : list A := fold_right insert_stable [] l.
End StableSort.

(** ** The change recorder *)

(** What [record_change] stores for [val]: an [mpf] becomes [int(val)] when
    [val % 1 == 0] and [float(val)] otherwise, anything else is stored as is. *)
Definition recorded (val : pyval) : pyval :=
  match val with
  | PMpf q =>
      if mpf_eqb (mpf_mod (Mpf q) (mpf_of_Z 1)) (mpf_of_Z 0)
      then PInt (mpf_int (Mpf q))
      else PFloat q
  | _ => val
  end.

Definition record_change {T S : Type} `{ToPy T} `{ToPy S} (changes : dict)
  (name : string) (val : T) (default_val : S) : dict * T :=
  if py_ne (to_py val) (to_py default_val)
  then (dict_set name (recorded (to_py val)) changes, val)
  else (changes, val).

(** ** Aligned key properties *)

(** [_reduced_text_sizes]: a copy without the zeroes on the right. *)
Fixpoint _reduced_text_sizes (text_sizes : list num) : list num :=
  match text_sizes with
  | [] => []
  | a :: l =>
      match _reduced_text_sizes l with
      | [] => if num_eqb a num0 then [] else [a]
      | r => a :: r
      end
  end.

(** The candidate alignments, in the order of preference. *)
Definition alignment_candidates : list Z := [7; 5; 6; 4; 3; 1; 2; 0].

(** The [try] block run for a slot [i] whose text is not empty: every
    candidate of the copy that slot [i] disallows is removed from
    [alignments]; a ValueError ends the block. *)
Fixpoint remove_disallowed (copy : list Z) (i : Z) (alignments : list Z)
  : result (list Z) :=
  match copy with
  | [] => Ok alignments
  | alignment :: copy' =>
      d <- py_index disallowed_alignnment_for_labels i ;;
      if z_in alignment d then
        match z_remove alignment alignments with
        | Ok alignments' => remove_disallowed copy' i alignments'
        | Raise ValueError => Ok alignments
        | Raise e => Raise e
        end
      else remove_disallowed copy' i alignments
  end.

(** The alignments left after the impossible ones are removed. *)
Definition possible_alignments (texts : list string) : result (list Z) :=
  for_each (range 0 (List.length texts))
    (fun i alignments =>
       t <- py_index texts i ;;
       if negb (String.eqb t "")
       then remove_disallowed alignments i alignments
       else Ok alignments)
    alignment_candidates.

(** The colors and sizes of the labels, with the values that match the key's
    defaults (and those of empty labels) changed to base values. *)
Definition key_labels_color (key : Key.t) : list string :=
  map (fun label =>
         let c := Label.color label in
         let c := if String.eqb (Label.text label) "" then "" else c in
         if String.eqb (Label.color label) (Key.default_text_color key)
         then "" else c)
      (Key.labels key).

Definition key_labels_size (key : Key.t) : list num :=
  map (fun label =>
         let z := Label.size label in
         let z := if String.eqb (Label.text label) "" then num0 else z in
         if num_eqb (Label.size label) (Key.default_text_size key)
         then num0 else z)
      (Key.labels key).

(** The body of the loop that generates the label arrays in aligned order. *)
Definition align_slot (texts colors : list string) (sizes : list num)
  (alignment : Z) (i : Z) (acc : list string * list string * list num)
  : result (list string * list string * list num) :=
  let '(aligned_text_labels, aligned_text_color, aligned_text_size) := acc in
  row <- py_index label_map alignment ;;
  if negb (z_in i row) then Ok acc
  else
    ndx <- z_index i row ;;
    if 0 <=? ndx then
      t <- py_index texts i ;;
      aligned_text_labels <-
        (if negb (String.eqb t "") then py_setitem aligned_text_labels ndx t
         else Ok aligned_text_labels) ;;
      c <- py_index colors i ;;
      aligned_text_color <-
        (if negb (String.eqb c "") then py_setitem aligned_text_color ndx c
         else Ok aligned_text_color) ;;
      z <- py_index sizes i ;;
      aligned_text_size <-
        (if negb (num_eqb z num0) then py_setitem aligned_text_size ndx z
         else Ok aligned_text_size) ;;
      Ok (aligned_text_labels, aligned_text_color, aligned_text_size)
    else Ok acc.

(** [_aligned_key_properties] up to its clean-up loop. *)
Definition aligned_arrays (key : Key.t)
  : result (Z * list string * list string * list num) :=
  let texts := map Label.text (Key.labels key) in
  let colors := key_labels_color key in
  let sizes := key_labels_size key in
  alignments <- possible_alignments texts ;;
  alignment <- py_index alignments 0 ;;
  '(aligned_text_labels, aligned_text_color, aligned_text_size) <-
    for_each (range 0 12) (align_slot texts colors sizes alignment)
      (repeat "" 12, repeat "" 12, repeat num0 12) ;;
  Ok (alignment, aligned_text_labels, aligned_text_color, aligned_text_size).

(** The body of the clean-up loop.  Its second test compares the list
    [aligned_text_size] with the number [key.default_text_size]. *)
Definition clean_up_slot (key : Key.t) (current_labels_size : list num)
  (aligned_text_labels : list string) (i : Z) (aligned_text_size : list num)
  : result (list num) :=
  label <- py_index aligned_text_labels i ;;
  aligned_text_size <-
    (if String.eqb label "" then
       z <- py_index current_labels_size i ;;
       py_setitem aligned_text_size i z
     else Ok aligned_text_size) ;;
  if py_eq (to_py aligned_text_size) (to_py (Key.default_text_size key))
  then py_setitem aligned_text_size i num0
  else Ok aligned_text_size.

Definition _aligned_key_properties (key : Key.t) (current_labels_size : list num)
  : result (Z * list string * list string * list num) :=
  '(alignment, aligned_text_labels, aligned_text_color, aligned_text_size) <-
    aligned_arrays key ;;
  aligned_text_size <-
    for_each (range 0 (List.length (_reduced_text_sizes aligned_text_size)))
      (clean_up_slot key current_labels_size aligned_text_labels)
      aligned_text_size ;;
  Ok (alignment, aligned_text_labels, aligned_text_color, aligned_text_size).

(** The clean-up loop body without the comparison of the size array with the
    default size, and [_aligned_key_properties] built on it. *)
Definition clean_up_slot_without_comparison (current_labels_size : list num)
  (aligned_text_labels : list string) (i : Z) (aligned_text_size : list num)
  : result (list num) :=
  label <- py_index aligned_text_labels i ;;
  if String.eqb label "" then
    z <- py_index current_labels_size i ;;
    py_setitem aligned_text_size i z
  else Ok aligned_text_size.

Definition _aligned_key_properties_without_comparison (key : Key.t)
  (current_labels_size : list num)
  : result (Z * list string * list string * list num) :=
  '(alignment, aligned_text_labels, aligned_text_color, aligned_text_size) <-
    aligned_arrays key ;;
  aligned_text_size <-
    for_each (range 0 (List.length (_reduced_text_sizes aligned_text_size)))
      (clean_up_slot_without_comparison current_labels_size aligned_text_labels)
      aligned_text_size ;;
  Ok (alignment, aligned_text_labels, aligned_text_color, aligned_text_size).

(** ** The keyboard *)

Module Keyboard.

Record t : Type := mk {
  metadata : Metadata.t;
  keys : list Key.t
}.

(** [Keyboard.__init__(self, metadata=None, keys=None)] *)
Definition init (metadata : option Metadata.t) (keys : option (list Key.t)) : t :=
  mk Metadata.init [].

(** *** Decoding *)

(** The local variables of [from_json]. *)
Record decoder : Type := mk_decoder {
  keyboard : t;
  current : Key.t;
  current_labels_size : list num;
  current_labels_color : list string;
  alignment : Z;
  cluster_rotation_x : mpf;
  cluster_rotation_y : mpf
}.

Definition decoder_init : decoder :=
  let current := Key.init in
  mk_decoder (init None None) current
    (map (fun _ => num0) (Key.labels current))
    (map (fun _ => "") (Key.labels current))
    4 (mpf_of_Z 0) (mpf_of_Z 0).

Definition set_current (k : Key.t) (d : decoder) : decoder :=
  mk_decoder (keyboard d) k (current_labels_size d) (current_labels_color d)
    (alignment d) (cluster_rotation_x d) (cluster_rotation_y d).

Definition set_keyboard (kb : t) (d : decoder) : decoder :=
  mk_decoder kb (current d) (current_labels_size d) (current_labels_color d)
    (alignment d) (cluster_rotation_x d) (cluster_rotation_y d).

(** [labels[i].field = v] *)
Definition set_label (set : Label.t -> Label.t) (i : Z) (labels : list Label.t)
  : result (list Label.t) :=
  label <- py_index labels i ;;
  py_setitem labels i (set label).

(** A label string: a new key is made from [current] and appended, and
    [current] is adjusted for the next key. *)
Definition decode_labels (labels : string) (d : decoder) : result decoder :=
  let current := current d in
  let new_key := current in
  let new_key :=
    if negb (mpf_eqb (Key.width2 new_key) (mpf_of_Z 0))
    then Key.set_width2 (Key.width2 current) new_key
    else Key.set_width2 (Key.width current) new_key in
  let new_key :=
    if negb (mpf_eqb (Key.height2 new_key) (mpf_of_Z 0))
    then Key.set_height2 (Key.height2 current) new_key
    else Key.set_height2 (Key.height current) new_key in
  texts <- unaligned (split_lines labels) (alignment d) "" ;;
  key_labels <- for_each (enumerate texts)
                  (fun '(i, text) => set_label (Label.set_text text) i)
                  (Key.labels new_key) ;;
  sizes <- unaligned (current_labels_size d) (alignment d) num0 ;;
  key_labels <- for_each (enumerate sizes)
                  (fun '(i, size) =>
                     if num_eqb size num0
                     then set_label (Label.set_size (Key.default_text_size new_key)) i
                     else set_label (Label.set_size size) i)
                  key_labels ;;
  key_labels <- for_each (enumerate (current_labels_color d))
                  (fun '(i, color) =>
                     if String.eqb color ""
                     then set_label (Label.set_color (Key.default_text_color new_key)) i
                     else set_label (Label.set_color color) i)
                  key_labels ;;
  let new_key := Key.set_labels key_labels new_key in
  let kb := keyboard d in
  let kb := mk (metadata kb) (keys kb ++ [new_key])%list in
  let current := Key.set_x (mpf_add (Key.x current) (Key.width current)) current in
  let current := Key.set_width (mpf_of_Z 1) current in
  let current := Key.set_height (mpf_of_Z 1) current in
  let current := Key.set_x2 (mpf_of_Z 0) current in
  let current := Key.set_y2 (mpf_of_Z 0) current in
  let current := Key.set_width2 (mpf_of_Z 0) current in
  let current := Key.set_height2 (mpf_of_Z 0) current in
  let current := Key.set_is_homing false current in
  let current := Key.set_is_stepped false current in
  let current := Key.set_is_decal false current in
  Ok (set_current current (set_keyboard kb d)).

Definition rotation_message : string :=
  "rotataion changes can only be made at the" ++ "beginning of the row".

Definition item_message : string :=
  "expected an object specifying key changes or" ++ "text labels for a key".

Definition has_rotation (key_changes : dict) : bool :=
  dict_mem "r" key_changes || dict_mem "rx" key_changes
  || dict_mem "ry" key_changes.

(** The call of [playback_key_changes] and the assignment of what it
    returns. *)
Definition apply_key_changes (key_changes : dict) (d : decoder) : result decoder :=
  s <- playback_key_changes (current d) key_changes (current_labels_color d)
         (current_labels_size d) (alignment d) (cluster_rotation_x d)
         (cluster_rotation_y d) ;;
  Ok (mk_decoder (keyboard d) (pb_key s) (pb_labels_size s)
        (pb_labels_color s) (pb_alignment s) (pb_rotation_x s)
        (pb_rotation_y s)).

(** A key-changes mapping at index [k] of the row [row]. *)
Definition decode_key_changes (row : list pyval) (k : Z) (key_changes : dict)
  (d : decoder) : result decoder :=
  if negb (k =? 0) && has_rotation key_changes
  then Raise (DeserializeException rotation_message (PList row))
  else apply_key_changes key_changes d.

(** The element at index [k] of the row [row]. *)
Definition decode_item (row : list pyval) (ki : Z * pyval) (d : decoder)
  : result decoder :=
  let '(k, item) := ki in
  match item with
  | PStr labels => decode_labels labels d
  | PDict key_changes => decode_key_changes row k key_changes d
  | _ => Raise (DeserializeException item_message item)
  end.

(** The element at index [r] of the document. *)
Definition decode_element (ri : Z * pyval) (d : decoder) : result decoder :=
  let '(r, element) := ri in
  d <- match element with
       | PList row =>
           d <- for_each (enumerate row) (decode_item row) d ;;
           let current := current d in
           Ok (set_current
                 (Key.set_y (mpf_add (Key.y current) (mpf_of_Z 1)) current) d)
       | PDict metadata_changes =>
           if negb (r =? 0) then
             Raise (DeserializeException
                      "metadata can only be specified as first item" element)
           else
             m <- playback_metadata_changes (metadata (keyboard d))
                    metadata_changes ;;
             Ok (set_keyboard (mk m (keys (keyboard d))) d)
       | _ =>
           Raise (DeserializeException
                    ("encountered unexpected type of " ++ type_name element)
                    element)
       end ;;
  Ok (set_current (Key.set_x (Key.rotation_x (current d)) (current d)) d).

(** [from_json]; its parameter [normalize] is not read by the body. *)
Definition from_json (keyboard_json : pyval) : result t :=
  match keyboard_json with
  | PList elements =>
      d <- for_each (enumerate elements) decode_element decoder_init ;;
      Ok (keyboard d)
  | _ => Raise (DeserializeException "Expected an array of objects:" keyboard_json)
  end.

(** *** Encoding *)

(** The metadata-changes mapping of [to_json]. *)
Definition metadata_changes (self : t) : dict :=
  let m := metadata self in
  let default_metadata := Metadata.init in
  let changes : dict := [] in
  let '(changes, _) :=
    record_change changes "backcolor" (Metadata.background_color m)
      (Metadata.background_color default_metadata) in
  let '(changes, _) :=
    record_change changes "name" (Metadata.name m)
      (Metadata.name default_metadata) in
  let '(changes, _) :=
    record_change changes "author" (Metadata.author m)
      (Metadata.author default_metadata) in
  let '(changes, _) :=
    record_change changes "notes" (Metadata.notes m)
      (Metadata.notes default_metadata) in
  let background_changes : dict := [] in
  let default_background := Background.init in
  let '(background_changes, _) :=
    record_change background_changes "name"
      (Background.name (Metadata.background m))
      (Background.name default_background) in
  let '(background_changes, _) :=
    record_change background_changes "style"
      (Background.style (Metadata.background m))
      (Background.style default_background) in
  let '(changes, _) :=
    if (0 <? List.length background_changes)%nat
    then record_change changes "background" (PDict background_changes) tt
    else (changes, PDict background_changes) in
  let '(changes, _) :=
    record_change changes "radii" (Metadata.radii m)
      (Metadata.radii default_metadata) in
  let '(changes, _) :=
    record_change changes "switchMount" (Switch.mount (Metadata.switch m))
      (Switch.mount (Metadata.switch default_metadata)) in
  let '(changes, _) :=
    record_change changes "switchBrand" (Switch.brand (Metadata.switch m))
      (Switch.brand (Metadata.switch default_metadata)) in
  let '(changes, _) :=
    record_change changes "switchType" (Switch.type (Metadata.switch m))
      (Switch.type (Metadata.switch default_metadata)) in
  let '(changes, _) :=
    record_change changes "css" (Metadata.css m)
      (Metadata.css default_metadata) in
  let '(changes, _) :=
    if Metadata.include_switches_plate_mounted m
       || negb (Bool.eqb (Metadata.is_switches_plate_mounted m)
                  (Metadata.is_switches_plate_mounted default_metadata))
    then record_change changes "plate" (Metadata.is_switches_plate_mounted m) tt
    else (changes, Metadata.is_switches_plate_mounted m) in
  let '(changes, _) :=
    if Metadata.include_switches_pcb_mounted m
       || negb (Bool.eqb (Metadata.is_switches_pcb_mounted m)
                  (Metadata.is_switches_pcb_mounted default_metadata))
    then record_change changes "pcb" (Metadata.is_switches_pcb_mounted m) tt
    else (changes, Metadata.is_switches_pcb_mounted m) in
  changes.

(** The local variables of the loop of [to_json] over the sorted keys. *)
Record encoder : Type := mk_encoder {
  e_keyboard_json : list pyval;
  e_row : list pyval;
  e_current : Key.t;
  e_align : Z;
  e_labels_color : string;
  e_labels_size : list num;
  e_rotation_angle : mpf;
  e_rotation_x : mpf;
  e_rotation_y : mpf;
  e_is_new_row : bool
}.

(** The text colors as written under ["t"]: position 0 takes the key's
    default text color when it is empty; otherwise every position from 2 on
    whose color is set and differs from position 0 takes the default. *)
Definition ordered_text_color (key : Key.t) (aligned_text_color : list string)
  : result (list string) :=
  c0 <- py_index aligned_text_color 0 ;;
  if String.eqb c0 "" then
    py_setitem aligned_text_color 0 (Key.default_text_color key)
  else
    for_each (range 2 12)
      (fun i colors =>
         ci <- py_index colors i ;;
         c0 <- py_index colors 0 ;;
         if negb (String.eqb ci "") && negb (String.eqb ci c0)
         then py_setitem colors i (Key.default_text_color key)
         else Ok colors)
      aligned_text_color.

(** The loop that decides whether ["f2"] can be written: it stops at the
    first position that differs from position 1. *)
Fixpoint optimize_f2_loop (idxs : list Z) (aligned_text_size : list num)
  (optimizeF2 : bool) : result bool :=
  match idxs with
  | [] => Ok optimizeF2
  | i :: idxs' =>
      if negb optimizeF2 then Ok optimizeF2
      else
        zi <- py_index aligned_text_size i ;;
        z1 <- py_index aligned_text_size 1 ;;
        optimize_f2_loop idxs' aligned_text_size (num_eqb zi z1)
  end.

(** The text sizes: what is written under ["f"], ["f2"] or ["fa"] when the
    running sizes do not already give the aligned ones. *)
Definition record_text_sizes (key : Key.t) (aligned_text_size : list num)
  (aligned_text_labels : list string) (key_changes : dict)
  (current_labels_size : list num) : result (dict * list num) :=
  same <- compare_text_sizes (inr current_labels_size) aligned_text_size
            aligned_text_labels ;;
  if negb same then
    if (List.length (_reduced_text_sizes aligned_text_size) =? 0)%nat then
      let '(key_changes, _) :=
        record_change key_changes "f" (Key.default_text_size key) (-1) in
      Ok (key_changes, current_labels_size)
    else
      z0 <- py_index aligned_text_size 0 ;;
      optimizeF2 <-
        optimize_f2_loop
          (range 2 (List.length (_reduced_text_sizes aligned_text_size)))
          aligned_text_size (negb (num_truth z0)) ;;
      if optimizeF2 then
        f2 <- py_index aligned_text_size 1 ;;
        let '(key_changes, _) := record_change key_changes "f2" f2 (-1) in
        Ok (key_changes, num0 :: repeat f2 11)
      else
        let current_labels_size := aligned_text_size in
        let '(key_changes, _) :=
          record_change key_changes "fa" (_reduced_text_sizes aligned_text_size)
            (@nil num) in
        Ok (key_changes, current_labels_size)
  else Ok (key_changes, current_labels_size).

(** One turn of the loop of [to_json]. *)
Definition encode_key (key : Key.t) (e : encoder) : result encoder :=
  let key_changes : dict := [] in
  '(alignment, aligned_text_labels, aligned_text_color, aligned_text_size) <-
    _aligned_key_properties key (e_labels_size e) ;;
  let current := e_current e in
  let is_cluster_changed :=
    negb (mpf_eqb (Key.rotation_angle key) (e_rotation_angle e))
    || negb (mpf_eqb (Key.rotation_x key) (e_rotation_x e))
    || negb (mpf_eqb (Key.rotation_y key) (e_rotation_y e)) in
  let is_row_changed := negb (mpf_eqb (Key.y key) (Key.y current)) in
  let '(keyboard_json, row, is_new_row) :=
    if (0 <? List.length (e_row e))%nat && (is_row_changed || is_cluster_changed)
    then ((e_keyboard_json e ++ [PList (e_row e)])%list, [], true)
    else (e_keyboard_json e, e_row e, e_is_new_row e) in
  let '(current, rotation_angle, rotation_x, rotation_y, is_new_row) :=
    if is_new_row then
      let current := Key.set_y (mpf_add (Key.y current) (mpf_of_Z 1)) current in
      let current :=
        if negb (mpf_eqb (Key.rotation_y key) (e_rotation_y e))
           || negb (mpf_eqb (Key.rotation_x key) (e_rotation_x e))
        then Key.set_y (Key.rotation_y key) current
        else current in
      let current := Key.set_x (Key.rotation_x key) current in
      (current, Key.rotation_angle key, Key.rotation_x key, Key.rotation_y key,
       false)
    else (current, e_rotation_angle e, e_rotation_x e, e_rotation_y e,
          is_new_row) in
  let '(key_changes, v) :=
    record_change key_changes "r" (Key.rotation_angle key)
      (Key.rotation_angle current) in
  let current := Key.set_rotation_angle v current in
  let '(key_changes, v) :=
    record_change key_changes "rx" (Key.rotation_x key)
      (Key.rotation_x current) in
  let current := Key.set_rotation_x v current in
  let '(key_changes, v) :=
    record_change key_changes "ry" (Key.rotation_y key)
      (Key.rotation_y current) in
  let current := Key.set_rotation_y v current in
  let '(key_changes, v) :=
    record_change key_changes "y" (mpf_sub (Key.y key) (Key.y current))
      (mpf_of_Z 0) in
  let current := Key.set_y (mpf_add (Key.y current) v) current in
  let '(key_changes, v) :=
    record_change key_changes "x" (mpf_sub (Key.x key) (Key.x current))
      (mpf_of_Z 0) in
  let current :=
    Key.set_x (mpf_add (mpf_add (Key.x current) v) (Key.width key)) current in
  let '(key_changes, v) :=
    record_change key_changes "c" (Key.color key) (Key.color current) in
  let current := Key.set_color v current in
  aligned_text_color <- ordered_text_color key aligned_text_color ;;
  let '(key_changes, current_labels_color) :=
    record_change key_changes "t" (rstrip (join_lines aligned_text_color))
      (e_labels_color e) in
  let '(key_changes, v) :=
    record_change key_changes "g" (Key.is_ghosted key) (Key.is_ghosted current) in
  let current := Key.set_is_ghosted v current in
  let '(key_changes, v) :=
    record_change key_changes "p" (Key.profile_and_row key)
      (Key.profile_and_row current) in
  let current := Key.set_profile_and_row v current in
  let '(key_changes, v) :=
    record_change key_changes "sm" (Switch.mount (Key.switch key))
      (Switch.mount (Key.switch current)) in
  let current := Key.set_switch (Switch.set_mount v (Key.switch current)) current in
  let '(key_changes, v) :=
    record_change key_changes "sb" (Switch.brand (Key.switch key))
      (Switch.brand (Key.switch current)) in
  let current := Key.set_switch (Switch.set_brand v (Key.switch current)) current in
  let '(key_changes, v) :=
    record_change key_changes "st" (Switch.type (Key.switch key))
      (Switch.type (Key.switch current)) in
  let current := Key.set_switch (Switch.set_type v (Key.switch current)) current in
  let '(key_changes, align) :=
    record_change key_changes "a" alignment (e_align e) in
  let '(key_changes, v) :=
    record_change key_changes "f" (Key.default_text_size key)
      (Key.default_text_size current) in
  let current := Key.set_default_text_size v current in
  let current_labels_size :=
    if dict_mem "f" key_changes then repeat num0 12 else e_labels_size e in
  '(key_changes, current_labels_size) <-
    record_text_sizes key aligned_text_size aligned_text_labels key_changes
      current_labels_size ;;
  let '(key_changes, _) :=
    record_change key_changes "w" (Key.width key) (mpf_of_Z 1) in
  let '(key_changes, _) :=
    record_change key_changes "h" (Key.height key) (mpf_of_Z 1) in
  let '(key_changes, _) :=
    record_change key_changes "w2" (Key.width2 key) (Key.width key) in
  let '(key_changes, _) :=
    record_change key_changes "h2" (Key.height2 key) (Key.height key) in
  let '(key_changes, _) :=
    record_change key_changes "x2" (Key.x2 key) (mpf_of_Z 0) in
  let '(key_changes, _) :=
    record_change key_changes "y2" (Key.y2 key) (mpf_of_Z 0) in
  let '(key_changes, _) :=
    record_change key_changes "n" (Key.is_homing key) false in
  let '(key_changes, _) :=
    record_change key_changes "l" (Key.is_stepped key) false in
  let '(key_changes, _) :=
    record_change key_changes "d" (Key.is_decal key) false in
  let row :=
    if (0 <? List.length key_changes)%nat then (row ++ [PDict key_changes])%list
    else row in
  let row := (row ++ [PStr (rstrip (join_lines aligned_text_labels))])%list in
  Ok (mk_encoder keyboard_json row current align current_labels_color
        current_labels_size rotation_angle rotation_x rotation_y is_new_row).

(** The keys in the order in which [to_json] writes them. *)
Definition sorted_keys (self : t) : list Key.t :=
  sorted tuple_ltb key_sort_criteria (keys self).

Definition encoder_init (self : t) : encoder :=
  let keyboard_json : list pyval := [] in
  let current := Key.init in
  let changes := metadata_changes self in
  let keyboard_json :=
    if (0 <? List.length changes)%nat then (keyboard_json ++ [PDict changes])%list
    else keyboard_json in
  let current := Key.set_y (mpf_sub (Key.y current) (mpf_of_Z 1)) current in
  mk_encoder keyboard_json [] current 4 (Key.default_text_color current)
    (map (fun _ => num0) (Key.labels current))
    (mpf_of_Z 0) (mpf_of_Z 0) (mpf_of_Z 0) true.

Definition to_json (self : t) : result pyval :=
  e <- for_each (sorted_keys self) encode_key (encoder_init self) ;;
  let keyboard_json :=
    if (0 <? List.length (e_row e))%nat
    then (e_keyboard_json e ++ [PList (e_row e)])%list
    else e_keyboard_json e in
  Ok (PList keyboard_json).

End Keyboard.

(** ** Documents used below *)

(** [[["A"]]] *)
Definition doc_A : pyval := PList [PList [PStr "A"]].

(** ** Reference definitions *)

(** A candidate alignment [a] is eliminated by [texts] when some slot with a
    non-empty text lists [a] in [disallowed_alignnment_for_labels]. *)
Definition eliminated (texts : list string) (a : Z) : bool :=
  existsb
    (fun i =>
       negb (String.eqb (nth i texts "") "")
       && z_in a (nth i disallowed_alignnment_for_labels []))
    (seq 0 (List.length texts)).

(** The candidates that survive, in the order of preference. *)
Definition surviving (texts : list string) : list Z :=
  filter (fun a => negb (eliminated texts a)) alignment_candidates.

(** [a] is eliminated by one of the first [n] slots. *)
Definition eliminated_upto (texts : list string) (n : nat) (a : Z) : bool :=
  existsb
    (fun i =>
       negb (String.eqb (nth i texts "") "")
       && z_in a (nth i disallowed_alignnment_for_labels []))
    (seq 0 n).

(** The three aligned arrays all have twelve entries. *)
Definition twelve (acc : list string * list string * list num) : Prop :=
  let '(l, c, s) := acc in
  List.length l = 12%nat /\ List.length c = 12%nat /\ List.length s = 12%nat.

(** The steps of [playback_key_changes] before and after the one for ["t"]. *)
Definition steps_before_t
  : list (string * (pyval -> playback_state -> result playback_state)) :=
  firstn 9 key_change_steps.

Definition steps_after_t
  : list (string * (pyval -> playback_state -> result playback_state)) :=
  skipn 10 key_change_steps.

(** A step that leaves the running colors and the key's default text color
    alone. *)
Definition keeps_colors (s s' : playback_state) : Prop :=
  pb_labels_color s' = pb_labels_color s
  /\ Key.default_text_color (pb_key s') = Key.default_text_color (pb_key s).

(** A step that moreover leaves the alignment alone. *)
Definition keeps_colors_and_alignment (s s' : playback_state) : Prop :=
  keeps_colors s s' /\ pb_alignment s' = pb_alignment s.

(** A playback state as [from_json] has it before the first element. *)
Definition colors_12 : list string := repeat "" 12.
Definition sizes_12 : list num := repeat num0 12.

(** The value ["#111111\n#222222"] of a field ["t"]. *)
Definition two_colors : string := "#111111" ++ nl ++ "#222222".

(** [a <= b] on tuples of numbers, as a proposition *)
Fixpoint lex_le (a b : list mpf) : Prop :=
  match a, b with
  | x :: a', y :: b' =>
      (mpf_q x < mpf_q y)%Q \/ (mpf_q x == mpf_q y /\ lex_le a' b')
  | [], _ => True
  | _ :: _, [] => False
  end.

(** The key [k1] does not come after [k2] by [key_sort_criteria]. *)
Definition criteria_le (k1 k2 : Key.t) : Prop :=
  lex_le (key_sort_criteria k1) (key_sort_criteria k2).

(** [[[{"x":1},"A"],[{"r":15},"B"]]] *)
Definition doc_rotation_first : pyval :=
  PList [ PList [PDict [("x", PInt 1)]; PStr "A"];
          PList [PDict [("r", PInt 15)]; PStr "B"] ].

(** [[[{"x":1},{"r":15},"B"]]] *)
Definition row_rotation_not_first : list pyval :=
  [PDict [("x", PInt 1)]; PDict [("r", PInt 15)]; PStr "B"].
Definition doc_rotation_not_first : pyval :=
  PList [PList row_rotation_not_first].

(** [[[5]]] *)
Definition doc_bare_number : pyval := PList [PList [PInt 5]].

(** [type(item) is str or type(item) is dict] *)
Definition is_str_or_dict (item : pyval) : bool :=
  match item with
  | PStr _ | PDict _ => true
  | _ => false
  end.

(** [[[{"f":5,"f2":7},"A\nB",{"f":5},"C\nD",{"f2":7},"E\nF"]]] *)
Definition doc_three_keys : pyval :=
  PList [PList [ PDict [("f", PInt 5); ("f2", PInt 7)]; PStr ("A" ++ nl ++ "B");
                 PDict [("f", PInt 5)]; PStr ("C" ++ nl ++ "D");
                 PDict [("f2", PInt 7)]; PStr ("E" ++ nl ++ "F") ]].

(** What [to_json] writes for the keyboard decoded from [doc_three_keys]:
    [[[{"f":5,"f2":7},"A\nB",{"f":5},"C\nD","E\nF"]]] *)
Definition doc_three_keys_encoded : pyval :=
  PList [PList [ PDict [("f", PInt 5); ("f2", PInt 7)]; PStr ("A" ++ nl ++ "B");
                 PDict [("f", PInt 5)]; PStr ("C" ++ nl ++ "D");
                 PStr ("E" ++ nl ++ "F") ]].

(** The label strings of a row and of a document, in reading order. *)
Definition row_strings (row : list pyval) : list string :=
  flat_map (fun v => match v with PStr s => [s] | _ => [] end) row.

Definition doc_strings (elements : list pyval) : list string :=
  flat_map (fun v => match v with PList row => row_strings row | _ => [] end)
    elements.

(** The label string that [to_json] writes for a key. *)
Definition key_label_string (key : Key.t) : result string :=
  '(_, aligned_text_labels, _, _) <- aligned_arrays key ;;
  Ok (rstrip (join_lines aligned_text_labels)).

(** The keyboard decoded from [doc_A]. *)
Definition keyboard_A : Keyboard.t :=
  Eval vm_compute in
    match Keyboard.from_json doc_A with
    | Ok kb => kb
    | Raise _ => Keyboard.init None None
    end.

(** [type(element) is list or type(element) is dict] *)
Definition is_list_or_dict (element : pyval) : bool :=
  match element with
  | PList _ | PDict _ => true
  | _ => false
  end.

(** [type(v) is list] *)
Definition is_list (v : pyval) : bool :=
  match v with
  | PList _ => true
  | _ => false
  end.

(** What [playback_key_changes] never touches: the labels of the key, the
    brand and the type of its switch, and the number of running sizes and
    colors. *)
Definition playback_keeps (s s' : playback_state) : Prop :=
  Key.labels (pb_key s') = Key.labels (pb_key s)
  /\ Switch.brand (Key.switch (pb_key s')) = Switch.brand (Key.switch (pb_key s))
  /\ Switch.type (Key.switch (pb_key s')) = Switch.type (Key.switch (pb_key s))
  /\ List.length (pb_labels_size s') = List.length (pb_labels_size s)
  /\ List.length (pb_labels_color s') = List.length (pb_labels_color s).

(** A key as [from_json] makes them: twelve labels, and the brand and type of
    the switch as [Switch()] has them. *)
Definition decoded_key (k : Key.t) : Prop :=
  List.length (Key.labels k) = 12%nat
  /\ Switch.brand (Key.switch k) = Switch.brand Switch.init
  /\ Switch.type (Key.switch k) = Switch.type Switch.init.

(** The invariant of the loop of [from_json]. *)
Definition decoder_inv (d : Keyboard.decoder) : Prop :=
  decoded_key (Keyboard.current d)
  /\ List.length (Keyboard.current_labels_size d) = 12%nat
  /\ List.length (Keyboard.current_labels_color d) = 12%nat
  /\ Forall decoded_key (Keyboard.keys (Keyboard.keyboard d)).


(** The slot that [unaligned] writes for the entry [t] of [label_map]:
    Python reads the index -1 as the last slot. *)
Definition written_slot (t : Z) : nat :=
  if t <? 0 then 11%nat else Z.to_nat t.

(** In every row of [label_map] the entries other than -1 are pairwise
    different. *)
Definition rows_distinct : bool :=
  forallb
    (fun row =>
       forallb
         (fun i =>
            forallb
              (fun j =>
                 (i =? j)%nat || (nth i row (-1) <? 0)
                 || negb (nth i row (-1) =? nth j row (-1)))
              (seq 0 12))
         (seq 0 12))
    label_map.

(** The steps of [playback_key_changes] before the three that write the
    switch. *)
Definition steps_before_switch
  : list (string * (pyval -> playback_state -> result playback_state)) :=
  firstn 22 key_change_steps.

(** [[f(a, b) for a, b in zip(l1, l2)]] *)
Fixpoint zip_with {A B C : Type} (f : A -> B -> C) (l1 : list A) (l2 : list B)
  : list C :=
  match l1, l2 with
  | a :: l1', b :: l2' => f a b :: zip_with f l1' l2'
  | _, _ => []
  end.

(** A row is written with its rotation at the start when a key-changes
    mapping of the row that holds ["r"], ["rx"] or ["ry"] is the first
    element of the row. *)
Definition rotation_at_start (row : list pyval) : Prop :=
  forall (k : nat) (key_changes : dict),
    nth_error row k = Some (PDict key_changes) ->
    Keyboard.has_rotation key_changes = true -> k = 0%nat.

(** What the loop of [to_json] keeps about the rotation: the running key has
    the rotation of the cluster, an opened row is not empty, and the rows
    written so far have their rotation at the start. *)
Definition encoder_rotation_inv (e : Keyboard.encoder) : Prop :=
  mpf_eqb (Key.rotation_angle (Keyboard.e_current e))
    (Keyboard.e_rotation_angle e) = true
  /\ mpf_eqb (Key.rotation_x (Keyboard.e_current e))
       (Keyboard.e_rotation_x e) = true
  /\ mpf_eqb (Key.rotation_y (Keyboard.e_current e))
       (Keyboard.e_rotation_y e) = true
  /\ (Keyboard.e_is_new_row e = false -> Keyboard.e_row e <> [])
  /\ rotation_at_start (Keyboard.e_row e)
  /\ (forall row, In (PList row) (Keyboard.e_keyboard_json e) ->
                  rotation_at_start row).

(** The keyboard decoded from [doc_rotation_first]. *)
Definition keyboard_rotated : Keyboard.t :=
  Eval vm_compute in
    match Keyboard.from_json doc_rotation_first with
    | Ok kb => kb
    | Raise _ => Keyboard.init None None
    end.

(** The fields looked up between ["ry"] and ["x"], and those after ["y"]. *)
Definition steps_a_to_t
  : list (string * (pyval -> playback_state -> result playback_state)) :=
  firstn 7 (skipn 3 key_change_steps).

Definition steps_after_y
  : list (string * (pyval -> playback_state -> result playback_state)) :=
  skipn 12 key_change_steps.

(** A step that leaves the position of the key, its rotation origin and the
    origin of the cluster alone. *)
Definition keeps_position (s s' : playback_state) : Prop :=
  Key.x (pb_key s') = Key.x (pb_key s)
  /\ Key.y (pb_key s') = Key.y (pb_key s)
  /\ Key.rotation_x (pb_key s') = Key.rotation_x (pb_key s)
  /\ Key.rotation_y (pb_key s') = Key.rotation_y (pb_key s)
  /\ pb_rotation_x s' = pb_rotation_x s
  /\ pb_rotation_y s' = pb_rotation_y s.

(** [mpf(str(key_changes[name]))], or [default] without the field. *)
Definition field_mpf (name : string) (key_changes : dict) (default : mpf) : mpf :=
  match dict_get name key_changes with
  | Some v => match mpf_of_str v with Ok x => x | Raise _ => default end
  | None => default
  end.

(** [base + mpf(str(key_changes[name]))], or [base] without the field. *)
Definition field_offset (name : string) (key_changes : dict) (base : mpf) : mpf :=
  match dict_get name key_changes with
  | Some v => match mpf_of_str v with
              | Ok x => mpf_add base x
              | Raise _ => base
              end
  | None => base
  end.

(** The fields looked up before ["f"], and those after ["fa"]. *)
Definition steps_before_f
  : list (string * (pyval -> playback_state -> result playback_state)) :=
  firstn 4 key_change_steps.

Definition steps_after_fa
  : list (string * (pyval -> playback_state -> result playback_state)) :=
  skipn 7 key_change_steps.

(** The number held by a JSON value, 0 for a value that is not a number. *)
Definition num_of (v : pyval) : num :=
  match as_num v with Ok n => n | Raise _ => num0 end.

(** The running sizes after a key-changes mapping: ["fa"] gives its entries
    followed by zeroes, else ["f2"] gives its value in the positions 1 to 11
    behind the old entry 0 (behind 0 when ["f"] is there too), else ["f"]
    gives twelve zeroes. *)
Definition sizes_after (key_changes : dict) (sizes : list num) : list num :=
  match dict_get "fa" key_changes with
  | Some (PList fa) => map num_of fa ++ repeat num0 (12 - List.length fa)
  | Some _ => sizes
  | None =>
      match dict_get "f2" key_changes with
      | Some v =>
          (if dict_mem "f" key_changes then num0 else hd num0 sizes)
            :: repeat (num_of v) 11
      | None => if dict_mem "f" key_changes then repeat num0 12 else sizes
      end
  end.

(** A document whose rows hold label strings only. *)
Definition plain_doc (rows : list (list string)) : pyval :=
  PList (map (fun row => PList (map PStr row)) rows).

(** The place of a key: x, y, width and height. *)
Definition key_box (k : Key.t) : mpf * mpf * mpf * mpf :=
  (Key.x k, Key.y k, Key.width k, Key.height k).

(** The unit squares of row [r], from column [j] on. *)
Definition grid_row {A : Type} (r j : Z) (row : list A)
  : list (mpf * mpf * mpf * mpf) :=
  map (fun '(j, _) => (mpf_of_Z j, mpf_of_Z r, mpf_of_Z 1, mpf_of_Z 1))
    (enumerate_from j row).

(** The unit squares of the rows, from row [r] on. *)
Definition grid_from {A : Type} (r : Z) (rows : list (list A))
  : list (mpf * mpf * mpf * mpf) :=
  flat_map (fun '(r, row) => grid_row r 0 row) (enumerate_from r rows).

(** The decoder at column [j] of row [r] of a document of plain rows. *)
Definition at_cell (r j : Z) (d : Keyboard.decoder) : Prop :=
  Key.x (Keyboard.current d) = mpf_of_Z j
  /\ Key.y (Keyboard.current d) = mpf_of_Z r
  /\ Key.width (Keyboard.current d) = mpf_of_Z 1
  /\ Key.height (Keyboard.current d) = mpf_of_Z 1
  /\ Key.rotation_x (Keyboard.current d) = mpf_of_Z 0
  /\ List.length (Key.labels (Keyboard.current d)) = 12%nat
  /\ List.length (Keyboard.current_labels_size d) = 12%nat
  /\ List.length (Keyboard.current_labels_color d) = 12%nat
  /\ Keyboard.alignment d = 4.

(** The call raised a [DeserializeException]. *)
Definition raises_deserialize {A : Type} (r : result A) : bool :=
  match r with
  | Raise (DeserializeException _ _) => true
  | _ => false
  end.

(** A document as [to_json] builds it: rows of strings and mappings, with a
    mapping in place of a row at index 0 only. *)
Definition written_elements (elements : list pyval) : Prop :=
  forall (i : nat) (element : pyval),
    nth_error elements i = Some element ->
    (exists row,
        element = PList row
        /\ Forall (fun item => is_str_or_dict item = true) row)
    \/ (i = 0%nat /\ exists m, element = PDict m).

(** What the loop of [to_json] keeps about the shape of what it writes. *)
Definition encoder_written_inv (e : Keyboard.encoder) : Prop :=
  encoder_rotation_inv e
  /\ Forall (fun item => is_str_or_dict item = true) (Keyboard.e_row e)
  /\ written_elements (Keyboard.e_keyboard_json e).

(** [[["A","B"],[{"r":15},"C"]]] *)
Definition doc_ABC : pyval :=
  PList [ PList [PStr "A"; PStr "B"];
          PList [PDict [("r", PInt 15)]; PStr "C"] ].

(** The keyboard decoded from [doc_ABC], and the same keyboard with its keys
    in the opposite order. *)
Definition keyboard_ABC : Keyboard.t :=
  Eval vm_compute in
    match Keyboard.from_json doc_ABC with
    | Ok kb => kb
    | Raise _ => Keyboard.init None None
    end.

Definition keyboard_CBA : Keyboard.t :=
  Keyboard.mk (Keyboard.metadata keyboard_ABC) (rev (Keyboard.keys keyboard_ABC)).

(** A key with the text "B" in slot 1 and the text "F" in slot 9. *)
Definition key_B_F : Key.t :=
  Key.set_labels
    (map (fun text => Label.set_text text Label.init)
       [""; "B"; ""; ""; ""; ""; ""; ""; ""; "F"; ""; ""])
    Key.init.

(** [type(v) in (int, float)] *)
Definition is_number (v : pyval) : bool :=
  match v with
  | PInt _ | PFloat _ => true
  | _ => false
  end.

(** A mapping whose fields are rotation fields that hold numbers. *)
Definition only_rotation_numbers (key_changes : dict) : Prop :=
  forall (name : string) (v : pyval),
    dict_get name key_changes = Some v ->
    (name = "r" \/ name = "rx" \/ name = "ry") /\ is_number v = true.

(** The fields [names] hold numbers in the mapping, where they are there. *)
Definition fields_are_numbers (names : list string) (key_changes : dict) : bool :=
  forallb
    (fun name =>
       match dict_get name key_changes with
       | Some v => is_number v
       | None => true
       end)
    names.

(** Powers of two with an integer exponent. *)
Definition pow2 (e : Z) : Q := (2 ^ e)%Q.

(** The mantissa and the exponent that [mpf_round] works with, for a
    positive fraction. *)
Definition exponent (n d : Z) : Z := ilog2 n d - (prec - 1).
Definition mantissa (n d : Z) : Z :=
  round_half_even (n * 2 ^ Z.max 0 (- exponent n d))
    (d * 2 ^ Z.max 0 (exponent n d)).

(** [x] is a multiple of [2 ^ t]. *)
Definition dyadic (t : Z) (x : Q) : Prop :=
  exists j : Z, (x == inject_Z j * pow2 t)%Q.

(** The number has at most [prec] bits: rounding does not change it. *)
Definition has_working_precision (a : mpf) : Prop :=
  (mpf_round (mpf_q a) == mpf_q a)%Q.

(** What the loop of [from_json] keeps about the rotation angles: that of
    the running key and those of the keys made have at most [prec] bits. *)
Definition decoder_angles (d : Keyboard.decoder) : Prop :=
  has_working_precision (Key.rotation_angle (Keyboard.current d))
  /\ Forall (fun key => has_working_precision (Key.rotation_angle key))
       (Keyboard.keys (Keyboard.keyboard d)).

(** * Properties *)

Unset Implicit Arguments.

(** ** General lemmas *)

Lemma bind_ok_inv {A B : Type} (m : result A) (f : A -> result B) (b : B) :
  bind m f = Ok b -> exists a, m = Ok a /\ f a = Ok b.
Proof.
  destruct m as [a|e]; simpl; intros H; [eauto | discriminate].
Qed.

Lemma for_each_app {A S : Type} (l1 l2 : list A) (body : A -> S -> result S)
  (s : S) :
  for_each (l1 ++ l2) body s = bind (for_each l1 body s) (for_each l2 body).
Proof.
  revert s; induction l1 as [|a l1 IH]; intros s; simpl; [reflexivity|].
  destruct (body a s) as [s'|e]; simpl; [apply IH | reflexivity].
Qed.

Lemma for_each_ext {A S : Type} (l : list A) (f g : A -> S -> result S) (s : S) :
  (forall a s, f a s = g a s) -> for_each l f s = for_each l g s.
Proof.
  intros E; revert s; induction l as [|a l IH]; intros s; simpl; [reflexivity|].
  rewrite E. destruct (g a s); simpl; auto.
Qed.

Lemma enumerate_from_app {A : Type} (l1 l2 : list A) (i : Z) :
  enumerate_from i (l1 ++ l2)
  = (enumerate_from i l1 ++ enumerate_from (i + Z.of_nat (List.length l1)) l2)%list.
Proof.
  revert i; induction l1 as [|a l1 IH]; intros i; simpl.
  - now rewrite Z.add_0_r.
  - rewrite IH. do 3 f_equal. lia.
Qed.

(** ** The constructor *)

(** C10: [Keyboard(metadata, keys)] stores neither argument: whatever is
    passed, the metadata of the new keyboard is a fresh default [Metadata()]
    and its list of keys is empty. *)
Theorem Keyboard_init_ignores_arguments :
  forall (metadata : option Metadata.t) (keys : option (list Key.t)),
    Keyboard.metadata (Keyboard.init metadata keys) = Metadata.init
    /\ Keyboard.keys (Keyboard.init metadata keys) = [].
Proof.
  intros metadata keys. split; reflexivity.
Qed.

(** ** Decoding a single label *)

(** C9: decoding [[["A"]]] succeeds and gives a keyboard with exactly one
    key; its label 0 has the text "A" and every other label is empty, its
    width and height are 1 and it sits at (0, 0). *)
Theorem from_json_single_label :
  exists kb key,
    Keyboard.from_json doc_A = Ok kb
    /\ Keyboard.keys kb = [key]
    /\ map Label.text (Key.labels key) = "A" :: repeat "" 11
    /\ Key.width key = mpf_of_Z 1
    /\ Key.height key = mpf_of_Z 1
    /\ Key.x key = mpf_of_Z 0
    /\ Key.y key = mpf_of_Z 0.
Proof.
  eexists. eexists. split; [vm_compute; reflexivity|].
  repeat split; reflexivity.
Qed.

(** ** The change recorder *)

Lemma dict_get_set_same (name : string) (v : pyval) (d : dict) :
  dict_get name (dict_set name v d) = Some v.
Proof.
  induction d as [|[k w] d IH]; simpl.
  - now rewrite String.eqb_refl.
  - destruct (String.eqb name k) eqn:E; simpl; rewrite E; auto.
Qed.

Lemma dict_get_set_other (name other : string) (v : pyval) (d : dict) :
  other <> name -> dict_get other (dict_set name v d) = dict_get other d.
Proof.
  intros N. apply String.eqb_neq in N.
  induction d as [|[k w] d IH]; simpl.
  - now rewrite N.
  - destruct (String.eqb name k) eqn:E; simpl.
    + apply String.eqb_eq in E. subst k. now rewrite N.
    + now rewrite IH.
Qed.

(** ** Rounding to the working precision *)

Lemma round_half_even_ge (n d : Z) :
  0 < d -> n / d <= round_half_even n d.
Proof.
  intros Hd. unfold round_half_even. cbv zeta.
  destruct (2 * (n mod d) ?= d); [destruct (Z.even _)| |]; lia.
Qed.

Lemma ilog2_le (a d : Z) : ilog2 a d <= Z.log2 a - Z.log2 d.
Proof.
  unfold ilog2. cbv zeta. destruct (_ <? _); lia.
Qed.

(** Scaled below the leading bit, the numerator is not below the
    denominator. *)
Lemma scaled_ge (a d e : Z) :
  0 < a -> 0 < d -> e <= Z.log2 a - Z.log2 d - 1 ->
  d * 2 ^ Z.max 0 e <= a * 2 ^ Z.max 0 (- e).
Proof.
  intros Ha Hd He.
  pose proof (Z.log2_spec a Ha) as [La _].
  pose proof (Z.log2_spec d Hd) as [_ Ld].
  pose proof (Z.log2_nonneg a) as Na.
  pose proof (Z.log2_nonneg d) as Nd.
  destruct (Z.le_gt_cases 0 e) as [E|E].
  - rewrite (Z.max_r 0 e), (Z.max_l 0 (- e)) by lia.
    rewrite Z.pow_0_r, Z.mul_1_r.
    apply Z.le_trans with (2 ^ Z.log2 a); [|exact La].
    apply Z.le_trans with (2 ^ Z.succ (Z.log2 d) * 2 ^ e).
    + apply Z.mul_le_mono_nonneg_r; [apply Z.pow_nonneg|]; lia.
    + rewrite <- Z.pow_add_r by lia. apply Z.pow_le_mono_r; lia.
  - rewrite (Z.max_l 0 e), (Z.max_r 0 (- e)) by lia.
    rewrite Z.pow_0_r, Z.mul_1_r.
    apply Z.le_trans with (2 ^ Z.succ (Z.log2 d)); [lia|].
    apply Z.le_trans with (2 ^ Z.log2 a * 2 ^ (- e)).
    + rewrite <- Z.pow_add_r by lia. apply Z.pow_le_mono_r; lia.
    + apply Z.mul_le_mono_nonneg_r; [apply Z.pow_nonneg|]; lia.
Qed.

Lemma mantissa_pos (a d : Z) :
  0 < a -> 0 < d ->
  let e := ilog2 a d - (prec - 1) in
  0 < round_half_even (a * 2 ^ Z.max 0 (- e)) (d * 2 ^ Z.max 0 e).
Proof.
  intros Ha Hd e.
  assert (He : e <= Z.log2 a - Z.log2 d - 1).
  { subst e. pose proof (ilog2_le a d). unfold prec. lia. }
  pose proof (scaled_ge a d e Ha Hd He) as S.
  assert (Dp : 0 < d * 2 ^ Z.max 0 e).
  { apply Z.mul_pos_pos; [exact Hd|]. apply Z.pow_pos_nonneg; lia. }
  apply Z.lt_le_trans with (a * 2 ^ Z.max 0 (- e) / (d * 2 ^ Z.max 0 e)).
  - apply Z.div_str_pos. lia.
  - apply round_half_even_ge. exact Dp.
Qed.

Lemma mpf_round_zero (x : Q) : (mpf_round x == 0 <-> x == 0)%Q.
Proof.
  unfold mpf_round. cbv zeta. destruct x as [n d]. cbn [Qnum Qden].
  destruct (n =? 0) eqn:E.
  - apply Z.eqb_eq in E. subst n. split; intros _; reflexivity.
  - apply Z.eqb_neq in E.
    rewrite (Qred_correct _).
    pose proof (mantissa_pos (Z.abs n) (Zpos d) ltac:(lia) ltac:(lia)) as M.
    cbv zeta in M.
    set (e := ilog2 (Z.abs n) (Z.pos d) - (prec - 1)) in *.
    set (m := round_half_even _ _) in *.
    assert (P : 0 < 2 ^ Z.max 0 e) by (apply Z.pow_pos_nonneg; lia).
    unfold Qeq. cbn [Qnum Qden]. rewrite !Z.mul_1_r, !Z.mul_0_l.
    split; intros H; [|lia].
    exfalso. apply Z.mul_eq_0 in H. destruct H as [H|H]; [|lia].
    apply Z.mul_eq_0 in H. destruct H as [H|H]; [|lia].
    destruct n; simpl in H; lia.
Qed.

Lemma Qred_Z (z : Z) : Qred (z # 1) = z # 1.
Proof.
  unfold Qred.
  pose proof (Z.ggcd_gcd z 1) as G.
  pose proof (Z.ggcd_correct_divisors z 1) as D.
  destruct (Z.ggcd z 1) as [g [a b]]. simpl in *.
  rewrite Z.gcd_1_r in G. subst g. destruct D as [D1 D2].
  rewrite Z.mul_1_l in D1, D2. subst a. subst b. reflexivity.
Qed.

(** An integer of at most [prec] bits is not changed by the rounding. *)
Lemma mpf_round_Z (z : Z) :
  Z.abs z < 2 ^ prec -> mpf_round (inject_Z z) = inject_Z z.
Proof.
  intros Hz. unfold mpf_round, inject_Z. cbv zeta. cbn [Qnum Qden].
  destruct (z =? 0) eqn:E.
  - apply Z.eqb_eq in E. now subst z.
  - apply Z.eqb_neq in E.
    assert (Ha : 0 < Z.abs z) by lia.
    pose proof (Z.log2_spec _ Ha) as [La Lb].
    pose proof (Z.log2_nonneg (Z.abs z)) as Na.
    assert (L52 : Z.log2 (Z.abs z) <= prec - 1).
    { apply Z.lt_succ_r. apply (Z.pow_lt_mono_r_iff 2); unfold prec in *; lia. }
    assert (I : ilog2 (Z.abs z) 1 = Z.log2 (Z.abs z)).
    { unfold ilog2. cbv zeta. change (Z.log2 1) with 0. rewrite Z.sub_0_r.
      rewrite (Z.max_l 0 (- _)), (Z.max_r 0 (Z.log2 _)) by lia.
      rewrite Z.pow_0_r, Z.mul_1_r, Z.mul_1_l.
      destruct (_ <? _) eqn:T; [apply Z.ltb_lt in T; lia | reflexivity]. }
    rewrite I.
    set (j := prec - 1 - Z.log2 (Z.abs z)).
    assert (Hj : 0 <= j) by (subst j; lia).
    replace (Z.max 0 (Z.log2 (Z.abs z) - (prec - 1))) with 0 by lia.
    replace (Z.max 0 (- (Z.log2 (Z.abs z) - (prec - 1)))) with j by lia.
    rewrite Z.pow_0_r, !Z.mul_1_r.
    assert (R : round_half_even (Z.abs z * 2 ^ j) 1 = Z.abs z * 2 ^ j).
    { unfold round_half_even. cbv zeta. rewrite Z.mod_1_r, Z.div_1_r.
      reflexivity. }
    rewrite R.
    assert (P : 0 < 2 ^ j) by (apply Z.pow_pos_nonneg; lia).
    rewrite <- (Qred_Z z). apply Qred_complete.
    unfold Qeq. cbn [Qnum Qden]. rewrite Z2Pos.id by exact P.
    rewrite Z.mul_1_r. rewrite Z.mul_assoc.
    replace (Z.sgn z * Z.abs z) with z by (destruct z; simpl; lia).
    reflexivity.
Qed.

Lemma round_half_even_le (n d : Z) :
  0 < d -> round_half_even n d <= n / d + 1.
Proof.
  intros Hd. unfold round_half_even. cbv zeta.
  destruct (2 * (n mod d) ?= d); [destruct (Z.even _)| |]; lia.
Qed.

Lemma mpf_round_nonneg (x : Q) : (0 <= x -> 0 <= mpf_round x)%Q.
Proof.
  intros Hx. unfold mpf_round. cbv zeta. destruct x as [n d].
  cbn [Qnum Qden]. unfold Qle in Hx. cbn [Qnum Qden] in Hx.
  rewrite Z.mul_1_r in Hx. simpl in Hx.
  destruct (n =? 0) eqn:E; [apply Qle_refl|].
  apply Z.eqb_neq in E. rewrite (Qred_correct _).
  set (e := ilog2 (Z.abs n) (Z.pos d) - (prec - 1)).
  set (m := round_half_even _ _).
  assert (M : 0 <= m).
  { subst m. apply Z.le_trans with
      (Z.abs n * 2 ^ Z.max 0 (- e) / (Z.pos d * 2 ^ Z.max 0 e)).
    - apply Z.div_pos.
      + apply Z.mul_nonneg_nonneg; [lia | apply Z.pow_nonneg; lia].
      + apply Z.mul_pos_pos; [lia | apply Z.pow_pos_nonneg; lia].
    - apply round_half_even_ge.
      apply Z.mul_pos_pos; [lia | apply Z.pow_pos_nonneg; lia]. }
  unfold Qle. cbn [Qnum Qden]. rewrite Z.mul_1_r. simpl.
  apply Z.mul_nonneg_nonneg; [|apply Z.pow_nonneg; lia].
  apply Z.mul_nonneg_nonneg; [|exact M].
  destruct n; simpl; lia.
Qed.

(** Rounding does not cross an integer of less than [prec] bits. *)
Lemma mpf_round_le_Z (x : Q) (c : Z) :
  (0 <= x)%Q -> (x < inject_Z c)%Q -> c < 2 ^ (prec - 1) ->
  (mpf_round x <= inject_Z c)%Q.
Proof.
  intros Hx Hc Hb. unfold mpf_round. cbv zeta. destruct x as [n d].
  cbn [Qnum Qden]. unfold Qle in Hx. unfold Qlt in Hc.
  cbn [Qnum Qden inject_Z] in Hx, Hc. rewrite Z.mul_1_r in Hx, Hc.
  simpl in Hx.
  assert (Cpos : 0 < c) by nia.
  destruct (n =? 0) eqn:E.
  { unfold Qle. simpl. lia. }
  apply Z.eqb_neq in E. rewrite (Qred_correct _).
  assert (Hn : 0 < n) by lia.
  rewrite (Z.abs_eq n) by lia.
  replace (Z.sgn n) with 1 by (destruct n; simpl; lia).
  assert (K : Z.log2 n - Z.log2 (Z.pos d) <= prec - 1).
  { assert (L1 : Z.log2 n <= Z.log2 (c * Z.pos d))
      by (apply Z.log2_le_mono; lia).
    pose proof (Z.log2_mul_above c (Z.pos d) ltac:(lia) ltac:(lia)) as L2.
    assert (L3 : Z.log2 c < prec - 1).
    { apply Z.log2_lt_pow2; [exact Cpos | exact Hb]. }
    lia. }
  pose proof (ilog2_le n (Z.pos d)) as I.
  set (e := ilog2 n (Z.pos d) - (prec - 1)) in *.
  assert (He : e <= 0) by (subst e; lia).
  rewrite (Z.max_l 0 e), (Z.max_r 0 (- e)) by lia.
  rewrite Z.pow_0_r, !Z.mul_1_r, Z.mul_1_l.
  set (t := - e). assert (Ht : 0 <= t) by (subst t; lia).
  assert (P : 0 < 2 ^ t) by (apply Z.pow_pos_nonneg; lia).
  pose proof (round_half_even_le (n * 2 ^ t) (Z.pos d) ltac:(lia)) as R.
  assert (Q : n * 2 ^ t / Z.pos d < c * 2 ^ t).
  { apply Z.div_lt_upper_bound; [lia|]. nia. }
  unfold Qle. cbn [Qnum Qden inject_Z]. rewrite Z2Pos.id by exact P.
  lia.
Qed.

Lemma pow2_pos (e : Z) : (0 < pow2 e)%Q.
Proof.
  apply Qpower_0_lt. reflexivity.
Qed.

Lemma pow2_add (a b : Z) : (pow2 (a + b) == pow2 a * pow2 b)%Q.
Proof.
  apply Qpower_plus. discriminate.
Qed.

Lemma pow2_opp (e : Z) : (pow2 (- e) == / pow2 e)%Q.
Proof.
  apply Qpower_opp.
Qed.

Lemma pow2_Z (e : Z) : 0 <= e -> (inject_Z (2 ^ e) == pow2 e)%Q.
Proof.
  intros H. unfold pow2. now rewrite Zpower_Qpower.
Qed.

Lemma pow2_le (a b : Z) : a <= b -> (pow2 a <= pow2 b)%Q.
Proof.
  intros H. apply Qpower_le_compat_l; [exact H | discriminate].
Qed.

Lemma pow2_lt (a b : Z) : a < b -> (pow2 a < pow2 b)%Q.
Proof.
  intros H. apply Qpower_lt_compat_l; [exact H | reflexivity].
Qed.

Lemma pow2_lt_inv (a b : Z) : (pow2 a < pow2 b)%Q -> a < b.
Proof.
  intros H. apply (Qpower_lt_compat_l_inv 2); [exact H | reflexivity].
Qed.

Lemma pow2_cancel (e : Z) : (pow2 e * pow2 (- e) == 1)%Q.
Proof.
  rewrite <- pow2_add, Z.add_opp_diag_r. reflexivity.
Qed.

(** The value of a scaled fraction. *)
Lemma scaled_value (a d e : Z) :
  0 < d ->
  (inject_Z (a * 2 ^ Z.max 0 (- e)) / inject_Z (d * 2 ^ Z.max 0 e)
   == inject_Z a / inject_Z d * pow2 (- e))%Q.
Proof.
  intros Hd.
  assert (Dq : ~ (inject_Z d == 0)%Q).
  { intros H. unfold Qeq in H. simpl in H. lia. }
  pose proof (pow2_pos e) as Pe. pose proof (pow2_pos (- e)) as Pm.
  destruct (Z.le_gt_cases 0 e) as [E|E].
  - rewrite (Z.max_r 0 e), (Z.max_l 0 (- e)) by lia.
    rewrite Z.pow_0_r, Z.mul_1_r, inject_Z_mult, (pow2_Z e E), pow2_opp.
    field. split; [lra | exact Dq].
  - rewrite (Z.max_l 0 e), (Z.max_r 0 (- e)) by lia.
    rewrite Z.pow_0_r, Z.mul_1_r, inject_Z_mult, (pow2_Z (- e)) by lia.
    field. exact Dq.
Qed.

Lemma Qmake_div (a : Z) (d : positive) :
  (a # d == inject_Z a / inject_Z (Z.pos d))%Q.
Proof.
  unfold Qeq, Qdiv, Qmult, Qinv, inject_Z. simpl. lia.
Qed.

(** [ilog2] is the binary logarithm of the fraction, rounded down. *)
Lemma ilog2_spec (a d : Z) :
  0 < a -> 0 < d ->
  (pow2 (ilog2 a d) <= inject_Z a / inject_Z d
   /\ inject_Z a / inject_Z d < pow2 (ilog2 a d + 1))%Q.
Proof.
  intros Ha Hd.
  assert (Dq : (0 < inject_Z d)%Q).
  { unfold Qlt. simpl. lia. }
  pose proof (Z.log2_spec a Ha) as [La Ua].
  pose proof (Z.log2_spec d Hd) as [Ld Ud].
  pose proof (Z.log2_nonneg a) as Na.
  pose proof (Z.log2_nonneg d) as Nd.
  set (la := Z.log2 a) in *. set (ld := Z.log2 d) in *.
  assert (QLa : (pow2 la <= inject_Z a)%Q).
  { rewrite <- pow2_Z by lia. now rewrite <- Zle_Qle. }
  assert (QUa : (inject_Z a < pow2 (la + 1))%Q).
  { rewrite <- pow2_Z by lia. now rewrite <- Zlt_Qlt. }
  assert (QLd : (pow2 ld <= inject_Z d)%Q).
  { rewrite <- pow2_Z by lia. now rewrite <- Zle_Qle. }
  assert (QUd : (inject_Z d < pow2 (ld + 1))%Q).
  { rewrite <- pow2_Z by lia. now rewrite <- Zlt_Qlt. }
  (* the fraction lies between 2^(k-1) and 2^(k+1) *)
  assert (Lo : (pow2 (la - ld - 1) * inject_Z d <= inject_Z a)%Q).
  { apply Qle_trans with (pow2 la); [|exact QLa].
    replace la with ((la - ld - 1) + (ld + 1)) at 2 by lia.
    rewrite pow2_add. apply Qmult_le_l; [apply pow2_pos|].
    now apply Qlt_le_weak. }
  assert (Hi : (inject_Z a < pow2 (la - ld + 1) * inject_Z d)%Q).
  { apply Qlt_le_trans with (pow2 (la + 1)); [exact QUa|].
    replace (la + 1) with ((la - ld + 1) + ld) at 1 by lia.
    rewrite pow2_add. apply Qmult_le_l; [apply pow2_pos|]. exact QLd. }
  (* the test of [ilog2] compares the fraction with 2^k *)
  unfold ilog2. cbv zeta. fold la ld. set (k := la - ld) in *.
  assert (T : a * 2 ^ Z.max 0 (- k) < d * 2 ^ Z.max 0 k
              <-> (inject_Z a < pow2 k * inject_Z d)%Q).
  { pose proof (pow2_pos k) as Pk. pose proof (pow2_pos (- k)) as Pm.
    rewrite Zlt_Qlt, !inject_Z_mult.
    destruct (Z.le_gt_cases 0 k) as [E|E].
    - rewrite (Z.max_r 0 k), (Z.max_l 0 (- k)) by lia.
      rewrite Z.pow_0_r, (pow2_Z k E). change (inject_Z 1) with 1%Q.
      rewrite Qmult_1_r, (Qmult_comm (inject_Z d)). tauto.
    - rewrite (Z.max_l 0 k), (Z.max_r 0 (- k)) by lia.
      rewrite Z.pow_0_r, (pow2_Z (- k)) by lia. change (inject_Z 1) with 1%Q.
      rewrite Qmult_1_r. pose proof (pow2_cancel k) as C.
      split; intros H.
      + apply (Qmult_lt_r _ _ (pow2 (- k))); [exact Pm|].
        rewrite (Qmult_comm (pow2 k)), <- Qmult_assoc, C, Qmult_1_r. exact H.
      + apply (Qmult_lt_r _ _ (pow2 (- k))) in H; [|exact Pm].
        rewrite (Qmult_comm (pow2 k)), <- Qmult_assoc, C, Qmult_1_r in H.
        exact H. }
  assert (Div : forall c : Q,
             ((c * inject_Z d <= inject_Z a <-> c <= inject_Z a / inject_Z d)
              /\ (inject_Z a < c * inject_Z d <-> inject_Z a / inject_Z d < c))%Q).
  { intros c. split; split; intros H.
    - apply Qle_shift_div_l; assumption.
    - apply (Qmult_le_r _ _ (inject_Z d)) in H; [|exact Dq].
      assert (E : (inject_Z a / inject_Z d * inject_Z d == inject_Z a)%Q)
        by (field; lra).
      now rewrite E in H.
    - apply Qlt_shift_div_r; assumption.
    - apply (Qmult_lt_r _ _ (inject_Z d)) in H; [|exact Dq].
      assert (E : (inject_Z a / inject_Z d * inject_Z d == inject_Z a)%Q)
        by (field; lra).
      now rewrite E in H. }
  destruct (a * 2 ^ Z.max 0 (- k) <? d * 2 ^ Z.max 0 k) eqn:B.
  - apply Z.ltb_lt in B. apply T in B. split.
    + apply Div. exact Lo.
    + replace (k - 1 + 1) with k by lia. apply Div. exact B.
  - apply Z.ltb_ge in B. split.
    + apply Div. apply Qnot_lt_le. intros H. apply T in H. lia.
    + apply Div. exact Hi.
Qed.

Lemma mpf_round_opp (x : Q) : mpf_round (- x) = (- mpf_round x)%Q.
Proof.
  unfold mpf_round. cbv zeta. destruct x as [n d]. cbn [Qopp Qnum Qden].
  rewrite Z.abs_opp, Z.sgn_opp.
  replace (- n =? 0) with (n =? 0)
    by (destruct n; reflexivity).
  destruct (n =? 0); [reflexivity|].
  rewrite <- Qred_opp. unfold Qopp. cbn [Qnum Qden].
  now rewrite <- !Z.mul_opp_l.
Qed.

Lemma mpf_round_pos (n : Z) (d : positive) :
  0 < n ->
  (mpf_round (n # d)
   == inject_Z (mantissa n (Z.pos d)) * pow2 (exponent n (Z.pos d)))%Q.
Proof.
  intros Hn. unfold mpf_round. cbv zeta. cbn [Qnum Qden].
  assert (E : (n =? 0) = false) by (apply Z.eqb_neq; lia).
  rewrite E, (Z.abs_eq n) by lia.
  replace (Z.sgn n) with 1 by (destruct n; simpl; lia).
  rewrite (Qred_correct _), Z.mul_1_l.
  fold (exponent n (Z.pos d)). fold (mantissa n (Z.pos d)).
  set (e := exponent n (Z.pos d)). set (m := mantissa n (Z.pos d)).
  pose proof (pow2_pos e) as Pe.
  destruct (Z.le_gt_cases 0 e) as [H|H].
  - rewrite (Z.max_r 0 e), (Z.max_l 0 (- e)) by lia.
    rewrite Z.pow_0_r. change (Z.to_pos 1) with 1%positive.
    change (m * 2 ^ e # 1)%Q with (inject_Z (m * 2 ^ e)).
    now rewrite inject_Z_mult, (pow2_Z e H).
  - rewrite (Z.max_l 0 e), (Z.max_r 0 (- e)) by lia.
    rewrite Z.pow_0_r, Z.mul_1_r.
    assert (P : 0 < 2 ^ (- e)) by (apply Z.pow_pos_nonneg; lia).
    rewrite Qmake_div, Z2Pos.id by exact P.
    rewrite (pow2_Z (- e)) by lia.
    rewrite pow2_opp. field. lra.
Qed.

(** The fraction scaled by the exponent has [prec] bits before the point. *)
Lemma scaled_range (n : Z) (d : positive) :
  0 < n ->
  let e := exponent n (Z.pos d) in
  2 ^ (prec - 1) * (Z.pos d * 2 ^ Z.max 0 e) <= n * 2 ^ Z.max 0 (- e)
  /\ n * 2 ^ Z.max 0 (- e) < 2 ^ prec * (Z.pos d * 2 ^ Z.max 0 e).
Proof.
  intros Hn e.
  destruct (ilog2_spec n (Z.pos d) Hn ltac:(lia)) as [Lo Hi].
  pose proof (scaled_value n (Z.pos d) e ltac:(lia)) as V.
  set (N := n * 2 ^ Z.max 0 (- e)) in *.
  set (D := Z.pos d * 2 ^ Z.max 0 e) in *.
  assert (Dp : 0 < D).
  { subst D. apply Z.mul_pos_pos; [lia | apply Z.pow_pos_nonneg; lia]. }
  assert (Dq : (0 < inject_Z D)%Q) by (unfold Qlt; simpl; lia).
  pose proof (pow2_pos (- e)) as Pm.
  assert (I : ilog2 n (Z.pos d) = e + (prec - 1)) by (subst e; unfold exponent; lia).
  rewrite I in Lo, Hi.
  (* N / D lies in [2^(prec-1), 2^prec) *)
  assert (Lo' : (pow2 (prec - 1) <= inject_Z N / inject_Z D)%Q).
  { rewrite V. apply Qle_trans with (pow2 (e + (prec - 1)) * pow2 (- e))%Q.
    - rewrite <- pow2_add. apply pow2_le. lia.
    - apply Qmult_le_compat_r; [exact Lo | now apply Qlt_le_weak]. }
  assert (Hi' : (inject_Z N / inject_Z D < pow2 prec)%Q).
  { rewrite V. apply Qlt_le_trans with (pow2 (e + (prec - 1) + 1) * pow2 (- e))%Q.
    - apply Qmult_lt_compat_r; [exact Pm | exact Hi].
    - rewrite <- pow2_add. apply pow2_le. lia. }
  rewrite <- (pow2_Z (prec - 1)) in Lo' by (unfold prec; lia).
  rewrite <- (pow2_Z prec) in Hi' by (unfold prec; lia).
  split.
  - apply (Qmult_le_r _ _ (inject_Z D)) in Lo'; [|exact Dq].
    assert (E : (inject_Z N / inject_Z D * inject_Z D == inject_Z N)%Q)
      by (field; lra).
    rewrite E, <- inject_Z_mult, <- Zle_Qle in Lo'. exact Lo'.
  - apply (Qmult_lt_r _ _ (inject_Z D)) in Hi'; [|exact Dq].
    assert (E : (inject_Z N / inject_Z D * inject_Z D == inject_Z N)%Q)
      by (field; lra).
    rewrite E, <- inject_Z_mult, <- Zlt_Qlt in Hi'. exact Hi'.
Qed.

Lemma mantissa_range (n : Z) (d : positive) :
  0 < n -> 2 ^ (prec - 1) <= mantissa n (Z.pos d) <= 2 ^ prec.
Proof.
  intros Hn. destruct (scaled_range n d Hn) as [Lo Hi]. cbv zeta in Lo, Hi.
  unfold mantissa.
  set (e := exponent n (Z.pos d)) in *.
  set (N := n * 2 ^ Z.max 0 (- e)) in *.
  set (D := Z.pos d * 2 ^ Z.max 0 e) in *.
  assert (Dp : 0 < D).
  { subst D. apply Z.mul_pos_pos; [lia | apply Z.pow_pos_nonneg; lia]. }
  pose proof (round_half_even_ge N D Dp).
  pose proof (round_half_even_le N D Dp).
  assert (2 ^ (prec - 1) <= N / D) by (apply Z.div_le_lower_bound; lia).
  assert (N / D < 2 ^ prec) by (apply Z.div_lt_upper_bound; lia).
  lia.
Qed.

Lemma round_half_even_exact (m d : Z) :
  0 < d -> round_half_even (m * d) d = m.
Proof.
  intros Hd. unfold round_half_even. cbv zeta.
  rewrite Z.mod_mul, Z.div_mul by lia.
  destruct (2 * 0 ?= d) eqn:C; try reflexivity.
  - apply Z.compare_eq in C. lia.
  - apply Z.compare_gt_iff in C. lia.
Qed.

(** A number of at most [prec] bits is not changed by the rounding. *)
Lemma mpf_round_exact_pos (n : Z) (d : positive) (m e : Z) :
  0 < n -> m < 2 ^ prec -> (n # d == inject_Z m * pow2 e)%Q ->
  (mpf_round (n # d) == n # d)%Q.
Proof.
  intros Hn Hm Hx.
  rewrite (mpf_round_pos n d Hn).
  destruct (scaled_range n d Hn) as [Lo _]. cbv zeta in Lo.
  pose proof (scaled_value n (Z.pos d) (exponent n (Z.pos d)) ltac:(lia)) as V.
  unfold mantissa.
  set (E := exponent n (Z.pos d)) in *.
  set (N := n * 2 ^ Z.max 0 (- E)) in *.
  set (D := Z.pos d * 2 ^ Z.max 0 E) in *.
  assert (Dp : 0 < D).
  { subst D. apply Z.mul_pos_pos; [lia | apply Z.pow_pos_nonneg; lia]. }
  assert (Dq : (0 < inject_Z D)%Q) by (unfold Qlt; simpl; lia).
  rewrite <- Qmake_div, Hx in V.
  assert (Xp : (0 < n # d)%Q) by (unfold Qlt; simpl; lia).
  assert (Mp : 0 < m).
  { rewrite Hx in Xp. pose proof (pow2_pos e) as Pe.
    destruct (Z.lt_trichotomy m 0) as [L|[L|L]]; [| |exact L].
    - exfalso. assert (inject_Z m < 0)%Q by (unfold Qlt; simpl; lia). nra.
    - subst m. exfalso. change (inject_Z 0) with 0%Q in Xp. lra. }
  (* the scaled fraction is m * 2^(e - E), and e - E is not negative *)
  assert (V' : (inject_Z N / inject_Z D == inject_Z m * pow2 (e - E))%Q).
  { rewrite V. unfold Z.sub. rewrite pow2_add. ring. }
  assert (J : 0 <= e - E).
  { (* 2^(prec-1) <= m * 2^(e-E) < 2^prec * 2^(e-E) *)
    assert (L1 : (inject_Z (2 ^ (prec - 1)) <= inject_Z N / inject_Z D)%Q).
    { apply Qle_shift_div_l; [exact Dq|].
      rewrite <- inject_Z_mult, <- Zle_Qle. exact Lo. }
    rewrite V' in L1.
    assert (L2 : (inject_Z m < inject_Z (2 ^ prec))%Q) by (now rewrite <- Zlt_Qlt).
    pose proof (pow2_pos (e - E)) as P.
    assert (L3 : (inject_Z (2 ^ (prec - 1)) < inject_Z (2 ^ prec) * pow2 (e - E))%Q).
    { apply Qle_lt_trans with (inject_Z m * pow2 (e - E))%Q; [exact L1|].
      apply Qmult_lt_compat_r; assumption. }
    rewrite (pow2_Z (prec - 1)), (pow2_Z prec) in L3 by (unfold prec; lia).
    rewrite <- pow2_add in L3. apply pow2_lt_inv in L3. lia. }
  (* so the numerator is a multiple of the denominator *)
  assert (NE : N = m * 2 ^ (e - E) * D).
  { rewrite <- (pow2_Z (e - E) J), <- inject_Z_mult in V'.
    apply (Qmult_inj_r _ _ (inject_Z D)) in V'; [|lra].
    assert (F : (inject_Z N / inject_Z D * inject_Z D == inject_Z N)%Q)
      by (field; lra).
    rewrite F, <- inject_Z_mult in V'.
    unfold Qeq in V'. simpl in V'. lia. }
  rewrite NE, round_half_even_exact by exact Dp.
  rewrite Hx, inject_Z_mult, (pow2_Z (e - E) J), <- Qmult_assoc, <- pow2_add.
  replace (e - E + E) with e by lia. reflexivity.
Qed.

Lemma mpf_round_exact (x : Q) (m e : Z) :
  Z.abs m < 2 ^ prec -> (x == inject_Z m * pow2 e)%Q -> (mpf_round x == x)%Q.
Proof.
  intros Hm Hx. destruct x as [n d].
  destruct (Z.lt_trichotomy n 0) as [L|[L|L]].
  - (* a negative number: round its opposite *)
    assert (E : (n # d) = (- (- n # d))%Q).
    { unfold Qopp. cbn [Qnum Qden]. now rewrite Z.opp_involutive. }
    rewrite E, mpf_round_opp.
    rewrite (mpf_round_exact_pos (- n) d (- m) e); [reflexivity|lia| |].
    + assert (Xn : (n # d < 0)%Q) by (unfold Qlt; simpl; lia).
      pose proof (pow2_pos e) as Pe. rewrite Hx in Xn.
      assert (m < 0).
      { destruct (Z.lt_trichotomy m 0) as [M|[M|M]]; [exact M| |].
        - subst m. change (inject_Z 0) with 0%Q in Xn. lra.
        - assert (0 < inject_Z m)%Q by (unfold Qlt; simpl; lia). nra. }
      lia.
    + rewrite inject_Z_opp. change (- n # d)%Q with (- (n # d))%Q.
      rewrite Hx. ring.
  - subst n. reflexivity.
  - apply (mpf_round_exact_pos n d m e); [exact L|lia|exact Hx].
Qed.

Lemma dyadic_opp (t : Z) (x : Q) : dyadic t x -> dyadic t (- x).
Proof.
  intros [j H]. exists (- j). rewrite H, inject_Z_opp. ring.
Qed.

Lemma dyadic_plus (t : Z) (x y : Q) : dyadic t x -> dyadic t y -> dyadic t (x + y).
Proof.
  intros [j H] [k K]. exists (j + k). rewrite H, K, inject_Z_plus. ring.
Qed.

Lemma dyadic_Z (t z : Z) : t <= 0 -> dyadic t (inject_Z z).
Proof.
  intros H. exists (z * 2 ^ (- t)).
  rewrite inject_Z_mult, (pow2_Z (- t)) by lia.
  rewrite <- Qmult_assoc, (Qmult_comm (pow2 (- t))), pow2_cancel. ring.
Qed.

Lemma dyadic_comp (t : Z) (x y : Q) : (x == y)%Q -> dyadic t x -> dyadic t y.
Proof.
  intros E [j H]. exists j. now rewrite <- E.
Qed.

(** The rounding of a number that is not below [2 ^ p] is a multiple of
    [2 ^ (p - (prec - 1))]. *)
Lemma mpf_round_dyadic_pos (p : Z) (n : Z) (d : positive) :
  0 < n -> (pow2 p <= n # d)%Q -> dyadic (p - (prec - 1)) (mpf_round (n # d)).
Proof.
  intros Hn Hp.
  destruct (ilog2_spec n (Z.pos d) Hn ltac:(lia)) as [_ Hi].
  rewrite <- Qmake_div in Hi.
  assert (I : p <= ilog2 n (Z.pos d)).
  { apply Z.lt_succ_r. apply pow2_lt_inv.
    apply Qle_lt_trans with (n # d)%Q; assumption. }
  exists (mantissa n (Z.pos d) * 2 ^ (exponent n (Z.pos d) - (p - (prec - 1)))).
  rewrite (mpf_round_pos n d Hn).
  rewrite inject_Z_mult, pow2_Z by (unfold exponent; lia).
  rewrite <- Qmult_assoc, <- pow2_add.
  replace (exponent n (Z.pos d) - (p - (prec - 1)) + (p - (prec - 1)))
    with (exponent n (Z.pos d)) by lia.
  reflexivity.
Qed.

Lemma mpf_round_dyadic (p : Z) (x : Q) :
  (pow2 p <= Qabs x)%Q -> dyadic (p - (prec - 1)) (mpf_round x).
Proof.
  intros Hp. destruct x as [n d].
  pose proof (pow2_pos p) as Pp.
  destruct (Z.lt_trichotomy n 0) as [L|[L|L]].
  - assert (E : (n # d) = (- (- n # d))%Q).
    { unfold Qopp. cbn [Qnum Qden]. now rewrite Z.opp_involutive. }
    rewrite E, mpf_round_opp. apply dyadic_opp.
    apply mpf_round_dyadic_pos; [lia|].
    unfold Qabs in Hp. cbn [Qnum Qden] in Hp.
    replace (Z.abs n) with (- n) in Hp by lia. exact Hp.
  - subst n. exfalso. unfold Qabs in Hp. simpl in Hp.
    change (0 # d)%Q with (0 # d)%Q in Hp.
    assert ((0 # d) == 0)%Q by reflexivity. lra.
  - apply mpf_round_dyadic_pos; [exact L|].
    unfold Qabs in Hp. cbn [Qnum Qden] in Hp.
    replace (Z.abs n) with n in Hp by lia. exact Hp.
Qed.

(** A multiple of [2 ^ t] below [2 ^ (t + prec)] is not changed by the
    rounding. *)
Lemma mpf_round_dyadic_exact (t : Z) (x : Q) :
  dyadic t x -> (Qabs x < pow2 (t + prec))%Q -> (mpf_round x == x)%Q.
Proof.
  intros [j H] B. apply (mpf_round_exact x j t); [|exact H].
  rewrite H in B. rewrite Qabs_Qmult in B.
  pose proof (pow2_pos t) as Pt.
  rewrite (Qabs_pos (pow2 t)) in B by lra.
  rewrite pow2_add, (Qmult_comm (pow2 t)) in B.
  apply Qmult_lt_r in B; [|exact Pt].
  rewrite <- (pow2_Z prec) in B by (unfold prec; lia).
  assert (A : (Qabs (inject_Z j) == inject_Z (Z.abs j))%Q).
  { unfold Qabs, inject_Z. reflexivity. }
  rewrite A, <- Zlt_Qlt in B. exact B.
Qed.

(** What [mpf_round] returns has at most [prec] bits. *)
Lemma mpf_round_idempotent (x : Q) : (mpf_round (mpf_round x) == mpf_round x)%Q.
Proof.
  assert (P : forall (n : Z) (d : positive),
             0 < n ->
             exists m e, Z.abs m < 2 ^ prec
                         /\ (mpf_round (n # d) == inject_Z m * pow2 e)%Q).
  { intros n d Hn. pose proof (mantissa_range n d Hn) as [Lo Hi].
    pose proof (mpf_round_pos n d Hn) as V.
    assert (Pp : 0 < 2 ^ (prec - 1)) by reflexivity.
    destruct (Z.eq_dec (mantissa n (Z.pos d)) (2 ^ prec)) as [E|E].
    - exists (2 ^ (prec - 1)), (exponent n (Z.pos d) + 1).
      split; [reflexivity|]. rewrite V, E, pow2_add.
      change (pow2 1) with 2%Q.
      change (inject_Z (2 ^ prec)) with (inject_Z (2 ^ (prec - 1)) * 2)%Q.
      ring.
    - exists (mantissa n (Z.pos d)), (exponent n (Z.pos d)).
      split; [lia | exact V]. }
  destruct x as [n d].
  destruct (Z.lt_trichotomy n 0) as [L|[L|L]].
  - assert (E : (n # d) = (- (- n # d))%Q).
    { unfold Qopp. cbn [Qnum Qden]. now rewrite Z.opp_involutive. }
    rewrite E, !mpf_round_opp.
    destruct (P (- n) d ltac:(lia)) as [m [e [Hm He]]].
    now rewrite (mpf_round_exact _ m e Hm He).
  - subst n. reflexivity.
  - destruct (P n d L) as [m [e [Hm He]]].
    now apply (mpf_round_exact _ m e Hm He).
Qed.

Lemma mpf_mod_1_zero (q : Q) :
  mpf_eqb (mpf_mod (Mpf q) (mpf_of_Z 1)) (mpf_of_Z 0) = true
  <-> q == inject_Z (Qfloor q).
Proof.
  unfold mpf_eqb, mpf_mod, mpf_of_Z; cbn [mpf_q].
  rewrite Qeq_bool_iff.
  assert (E : Qfloor (q / inject_Z 1) = Qfloor q).
  { apply Qfloor_comp. unfold Qeq, Qdiv, Qmult, Qinv, inject_Z. simpl.
    rewrite Pos.mul_1_r. ring. }
  rewrite E. clear E.
  change (inject_Z 0) with 0%Q. rewrite mpf_round_zero.
  split; intros H.
  - rewrite <- (Qplus_0_l (inject_Z (Qfloor q))).
    rewrite <- H. ring.
  - rewrite H at 1. ring.
Qed.

Lemma mpf_int_exact (q : Q) :
  q == inject_Z (Qfloor q) -> inject_Z (mpf_int (Mpf q)) == q.
Proof.
  destruct q as [n d]. unfold mpf_int, Qeq; simpl. intros H.
  rewrite Z.mul_1_r in *. rewrite H at 1.
  rewrite Z.quot_mul by discriminate. symmetry. exact H.
Qed.

(** C6: [record_change] returns [val] unchanged and always returns; it puts
    [name] into the bag exactly when [val != default_val] (every other entry
    of the bag stays as it was), and what it stores for an [mpf] is an
    integer when the fractional part is zero and a real number otherwise. *)
Theorem record_change_spec :
  forall (T S : Type) (HT : ToPy T) (HS : ToPy S) (changes : dict)
         (name : string) (val : T) (default_val : S),
    let out := record_change changes name val default_val in
    snd out = val
    /\ (py_ne (to_py val) (to_py default_val) = true ->
        dict_get name (fst out) = Some (recorded (to_py val))
        /\ forall other, other <> name ->
             dict_get other (fst out) = dict_get other changes)
    /\ (py_ne (to_py val) (to_py default_val) = false -> fst out = changes)
    /\ (forall q, to_py val = PMpf q ->
        (q == inject_Z (Qfloor q) ->
         exists z, recorded (to_py val) = PInt z /\ inject_Z z == q)
        /\ (~ q == inject_Z (Qfloor q) -> recorded (to_py val) = PFloat q))
    /\ ((forall q, to_py val <> PMpf q) -> recorded (to_py val) = to_py val).
Proof.
  intros T S HT HS changes name val default_val out. subst out.
  unfold record_change.
  destruct (py_ne (to_py val) (to_py default_val)) eqn:E; simpl.
  - split; [reflexivity|]. split.
    + intros _. split.
      * apply dict_get_set_same.
      * intros other N. now apply dict_get_set_other.
    + split; [discriminate|]. split.
      * intros q Hq. rewrite Hq. unfold recorded.
        destruct (mpf_eqb _ _) eqn:M.
        -- apply mpf_mod_1_zero in M. split.
           ++ intros _. eexists. split; [reflexivity|]. now apply mpf_int_exact.
           ++ intros N. contradiction.
        -- split.
           ++ intros Z0. apply mpf_mod_1_zero in Z0. congruence.
           ++ reflexivity.
      * intros N. destruct (to_py val); try reflexivity. now destruct (N q).
  - split; [reflexivity|]. split; [discriminate|]. split; [reflexivity|].
    split.
    + intros q Hq. rewrite Hq. unfold recorded.
      destruct (mpf_eqb _ _) eqn:M.
      * apply mpf_mod_1_zero in M. split.
        -- intros _. eexists. split; [reflexivity|]. now apply mpf_int_exact.
        -- intros N. contradiction.
      * split.
        -- intros Z0. apply mpf_mod_1_zero in Z0. congruence.
        -- reflexivity.
    + intros N. destruct (to_py val); try reflexivity. now destruct (N q).
Qed.

Lemma record_change_spec_witness :
  py_ne (to_py (Mpf (3 # 2))) (to_py (mpf_of_Z 0)) = true
  /\ dict_get "x" (fst (record_change [] "x" (Mpf (3 # 2)) (mpf_of_Z 0)))
     = Some (PFloat (3 # 2)).
Proof.
  split; [reflexivity|].
  exact (proj1 (proj1 (proj2 (record_change_spec mpf mpf _ _ [] "x"
                                (Mpf (3 # 2)) (mpf_of_Z 0))) eq_refl)).
Defined.

(** ** The clean-up loop of the aligned sizes *)

Lemma size_list_ne_number (sizes : list num) (n : num) :
  py_eq (to_py sizes) (to_py n) = false.
Proof.
  destruct n; reflexivity.
Qed.

Lemma clean_up_slot_without_comparison_eq (key : Key.t)
  (current_labels_size : list num) (aligned_text_labels : list string)
  (i : Z) (aligned_text_size : list num) :
  clean_up_slot key current_labels_size aligned_text_labels i aligned_text_size
  = clean_up_slot_without_comparison current_labels_size aligned_text_labels i
      aligned_text_size.
Proof.
  unfold clean_up_slot, clean_up_slot_without_comparison.
  destruct (py_index aligned_text_labels i) as [label|e]; cbn [bind];
    [|reflexivity].
  destruct (String.eqb label ""); cbn [bind].
  - destruct (py_index current_labels_size i) as [z|e]; cbn [bind];
      [|reflexivity].
    destruct (py_setitem aligned_text_size i z) as [l|e]; cbn [bind];
      [|reflexivity].
    now rewrite size_list_ne_number.
  - now rewrite size_list_ne_number.
Qed.

(** C5: the test [aligned_text_size == key.default_text_size] of the clean-up
    loop compares a list with a number and is false for every key and every
    size array, so [_aligned_key_properties] computes what the same function
    without that test computes. *)
Theorem aligned_size_comparison_is_dead :
  (forall (key : Key.t) (aligned_text_size : list num),
      py_eq (to_py aligned_text_size) (to_py (Key.default_text_size key)) = false)
  /\ (forall (key : Key.t) (current_labels_size : list num),
         _aligned_key_properties key current_labels_size
         = _aligned_key_properties_without_comparison key current_labels_size).
Proof.
  split.
  - intros key sizes. apply size_list_ne_number.
  - intros key cur.
    unfold _aligned_key_properties, _aligned_key_properties_without_comparison.
    destruct (aligned_arrays key) as [[[[a labels] colors] sizes]|e]; simpl;
      [|reflexivity].
    rewrite (for_each_ext _ (clean_up_slot key cur labels)
               (clean_up_slot_without_comparison cur labels)); [reflexivity|].
    intros i s. apply clean_up_slot_without_comparison_eq.
Qed.

(** ** Indexing lemmas *)

Lemma py_index_nth {A : Type} (l : list A) (n : nat) (d : A) :
  (n < List.length l)%nat -> py_index l (Z.of_nat n) = Ok (nth n l d).
Proof.
  intros H. unfold py_index.
  assert (E : (Z.of_nat n <? 0) = false) by (apply Z.ltb_ge; lia).
  rewrite E.
  assert (E1 : (0 <=? Z.of_nat n) = true) by (apply Z.leb_le; lia).
  assert (E2 : (Z.of_nat n <? Z.of_nat (List.length l)) = true)
    by (apply Z.ltb_lt; lia).
  rewrite E1, E2, Nat2Z.id. simpl.
  destruct (nth_error l n) as [a|] eqn:N.
  - now rewrite (nth_error_nth _ _ d N).
  - apply nth_error_None in N. lia.
Qed.

Lemma py_index_out {A : Type} (l : list A) (n : nat) :
  (List.length l <= n)%nat -> py_index l (Z.of_nat n) = Raise IndexError.
Proof.
  intros H. unfold py_index.
  assert (E : (Z.of_nat n <? 0) = false) by (apply Z.ltb_ge; lia).
  rewrite E.
  assert (E2 : (Z.of_nat n <? Z.of_nat (List.length l)) = false)
    by (apply Z.ltb_ge; lia).
  rewrite E2, andb_false_r. reflexivity.
Qed.

Lemma set_nth_length {A : Type} (l : list A) (n : nat) (a : A) :
  List.length (set_nth l n a) = List.length l.
Proof.
  revert n; induction l as [|b l IH]; intros [|n]; simpl; auto.
Qed.

Lemma py_setitem_nat {A : Type} (l : list A) (n : nat) (a : A) :
  (n < List.length l)%nat -> py_setitem l (Z.of_nat n) a = Ok (set_nth l n a).
Proof.
  intros H. unfold py_setitem.
  assert (E : (Z.of_nat n <? 0) = false) by (apply Z.ltb_ge; lia).
  rewrite E.
  assert (E1 : (0 <=? Z.of_nat n) = true) by (apply Z.leb_le; lia).
  assert (E2 : (Z.of_nat n <? Z.of_nat (List.length l)) = true)
    by (apply Z.ltb_lt; lia).
  now rewrite E1, E2, Nat2Z.id.
Qed.

(** A loop whose body keeps an invariant and returns on every element of the
    list returns, and the invariant holds at the end. *)
Lemma for_each_invariant {A S : Type} (P : S -> Prop) (l : list A)
  (body : A -> S -> result S) (s : S) :
  (forall a s, In a l -> P s -> exists s', body a s = Ok s' /\ P s') ->
  P s -> exists s', for_each l body s = Ok s' /\ P s'.
Proof.
  revert s; induction l as [|a l IH]; intros s Hb Hs; simpl.
  - eauto.
  - destruct (Hb a s (or_introl eq_refl) Hs) as [s1 [E1 P1]].
    rewrite E1. simpl. apply IH; [|exact P1].
    intros b t Hin. apply Hb. now right.
Qed.

Lemma in_range (a b : nat) (i : Z) :
  In i (range a b) <-> exists n, i = Z.of_nat n /\ (a <= n < b)%nat.
Proof.
  unfold range. rewrite in_map_iff. split.
  - intros [n [E H]]. apply in_seq in H. exists n. split; [auto|lia].
  - intros [n [E H]]. exists n. split; [auto|]. apply in_seq. lia.
Qed.

(** ** Alignment selection *)

Lemma z_in_iff (x : Z) (l : list Z) : z_in x l = true <-> In x l.
Proof.
  unfold z_in. rewrite existsb_exists. split.
  - intros [y [H E]]. apply Z.eqb_eq in E. now subst.
  - intros H. exists x. split; [auto | apply Z.eqb_refl].
Qed.

Lemma z_in_cons (x y : Z) (l : list Z) :
  z_in x (y :: l) = Z.eqb x y || z_in x l.
Proof.
  reflexivity.
Qed.

Lemma filter_filter {A : Type} (p q : A -> bool) (l : list A) :
  filter p (filter q l) = filter (fun a => q a && p a) l.
Proof.
  induction l as [|a l IH]; simpl; [reflexivity|].
  destruct (q a); simpl; [destruct (p a)|]; now rewrite IH.
Qed.

Lemma filter_all {A : Type} (p : A -> bool) (l : list A) :
  (forall a, In a l -> p a = true) -> filter p l = l.
Proof.
  induction l as [|a l IH]; simpl; intros H; [reflexivity|].
  rewrite (H a (or_introl eq_refl)), IH; auto.
Qed.

Lemma z_remove_filter (x : Z) (l : list Z) :
  NoDup l -> In x l ->
  z_remove x l = Ok (filter (fun b => negb (Z.eqb b x)) l).
Proof.
  induction l as [|y l IH]; intros ND Hin; [destruct Hin|].
  inversion ND as [|? ? Hy ND']; subst. simpl.
  destruct (Z.eqb y x) eqn:E; simpl.
  - apply Z.eqb_eq in E. subst y. f_equal. symmetry. apply filter_all.
    intros a Ha. apply negb_true_iff, Z.eqb_neq. intros ->. contradiction.
  - destruct Hin as [->|Hin]; [rewrite Z.eqb_refl in E; discriminate|].
    now rewrite (IH ND' Hin).
Qed.

Lemma remove_disallowed_filter (copy : list Z) :
  forall (i : Z) (d alignments : list Z),
    py_index disallowed_alignnment_for_labels i = Ok d ->
    NoDup alignments -> NoDup copy -> incl copy alignments ->
    remove_disallowed copy i alignments
    = Ok (filter (fun a => negb (z_in a d && z_in a copy)) alignments).
Proof.
  induction copy as [|c copy IH]; intros i d al Hd ND NDc Hincl.
  - simpl. f_equal. symmetry. apply filter_all. intros a _.
    now rewrite andb_false_r.
  - inversion NDc as [|? ? Hc NDc']; subst.
    assert (Hcal : In c al) by (apply Hincl; now left).
    cbn [remove_disallowed]. rewrite Hd. cbn [bind].
    destruct (z_in c d) eqn:Ecd.
    + rewrite (z_remove_filter c al ND Hcal).
      rewrite (IH i d _ Hd).
      * rewrite filter_filter. f_equal. apply filter_ext_in. intros a _.
        rewrite z_in_cons.
        destruct (Z.eqb a c) eqn:Eac; simpl.
        -- apply Z.eqb_eq in Eac. subst a. now rewrite Ecd.
        -- reflexivity.
      * now apply NoDup_filter.
      * exact NDc'.
      * intros a Ha. apply filter_In. split.
        -- apply Hincl. now right.
        -- apply negb_true_iff, Z.eqb_neq. intros ->. contradiction.
    + rewrite (IH i d al Hd ND NDc').
      * f_equal. apply filter_ext_in. intros a _.
        rewrite z_in_cons.
        destruct (Z.eqb a c) eqn:Eac; simpl; [|reflexivity].
        apply Z.eqb_eq in Eac. subst a. now rewrite Ecd.
      * intros a Ha. apply Hincl. now right.
Qed.

Lemma remove_disallowed_self (i : Z) (d alignments : list Z) :
  py_index disallowed_alignnment_for_labels i = Ok d ->
  NoDup alignments ->
  remove_disallowed alignments i alignments
  = Ok (filter (fun a => negb (z_in a d)) alignments).
Proof.
  intros Hd ND.
  rewrite (remove_disallowed_filter alignments i d alignments Hd ND ND
             (incl_refl _)).
  f_equal. apply filter_ext_in. intros a Ha.
  apply z_in_iff in Ha. now rewrite Ha, andb_true_r.
Qed.

Lemma alignment_candidates_NoDup : NoDup alignment_candidates.
Proof.
  unfold alignment_candidates.
  repeat (constructor; [simpl; intuition discriminate|]). constructor.
Qed.

Lemma possible_alignments_upto (texts : list string) (n : nat) :
  (n <= List.length texts)%nat -> (List.length texts <= 12)%nat ->
  for_each (range 0 n)
    (fun i alignments =>
       t <- py_index texts i ;;
       if negb (String.eqb t "")
       then remove_disallowed alignments i alignments
       else Ok alignments)
    alignment_candidates
  = Ok (filter (fun a => negb (eliminated_upto texts n a)) alignment_candidates).
Proof.
  intros Hn H12. induction n as [|n IH].
  - simpl. reflexivity.
  - unfold range in *. rewrite Nat.sub_0_r in *.
    rewrite seq_S, map_app, for_each_app.
    rewrite IH by lia. cbn [bind map for_each Nat.add].
    rewrite (py_index_nth texts n "") by lia. cbn [bind].
    assert (E : forall a,
               eliminated_upto texts (S n) a
               = eliminated_upto texts n a
                 || (negb (String.eqb (nth n texts "") "")
                     && z_in a (nth n disallowed_alignnment_for_labels []))).
    { intros a. unfold eliminated_upto. rewrite seq_S, existsb_app. simpl.
      now rewrite orb_false_r. }
    destruct (String.eqb (nth n texts "") "") eqn:Et; cbn [negb].
    + cbn [bind]. f_equal. apply filter_ext. intros a. rewrite E.
      now rewrite andb_false_l, orb_false_r.
    + rewrite (remove_disallowed_self _
                 (nth n disallowed_alignnment_for_labels [])).
      * cbn [bind]. rewrite filter_filter. f_equal. apply filter_ext.
        intros a. rewrite E, andb_true_l, negb_orb. reflexivity.
      * apply py_index_nth. simpl. lia.
      * apply NoDup_filter, alignment_candidates_NoDup.
Qed.

Lemma possible_alignments_surviving (texts : list string) :
  (List.length texts <= 12)%nat ->
  possible_alignments texts = Ok (surviving texts).
Proof.
  intros H. unfold possible_alignments.
  now rewrite (possible_alignments_upto texts _ (Nat.le_refl _) H).
Qed.

(** No slot disallows alignment 0. *)
Lemma zero_never_eliminated (texts : list string) : eliminated texts 0 = false.
Proof.
  unfold eliminated. apply not_true_is_false. intros H.
  apply existsb_exists in H. destruct H as [i [_ H]].
  apply andb_true_iff in H. destruct H as [_ H].
  do 12 (destruct i as [|i]; [discriminate H|]).
  destruct i; discriminate H.
Qed.

Lemma find_filter_hd {A : Type} (p : A -> bool) (l : list A) :
  find p l = hd_error (filter p l).
Proof.
  induction l as [|a l IH]; simpl; [reflexivity|].
  destruct (p a); simpl; auto.
Qed.

Lemma surviving_first (texts : list string) :
  exists a rest,
    surviving texts = a :: rest
    /\ find (fun a => negb (eliminated texts a)) alignment_candidates = Some a
    /\ In a alignment_candidates.
Proof.
  assert (H0 : In 0 (surviving texts)).
  { apply filter_In. split; [simpl; tauto|].
    now rewrite zero_never_eliminated. }
  destruct (surviving texts) as [|a rest] eqn:E; [destruct H0|].
  exists a, rest. split; [reflexivity|]. split.
  - rewrite find_filter_hd. fold (surviving texts). now rewrite E.
  - assert (Ha : In a (surviving texts)) by (rewrite E; now left).
    apply filter_In in Ha. tauto.
Qed.

Lemma z_index_from_ok (x : Z) (l : list Z) :
  forall n, z_in x l = true ->
    exists k, (k < List.length l)%nat /\ z_index_from n x l = Ok (n + Z.of_nat k).
Proof.
  induction l as [|y l IH]; intros n H; [discriminate|].
  rewrite z_in_cons in H. simpl.
  destruct (Z.eqb y x) eqn:E.
  - exists 0%nat. split; [lia|]. f_equal. simpl. lia.
  - rewrite Z.eqb_sym, E in H. simpl in H.
    destruct (IH (n + 1) H) as [k [Hk Ek]].
    exists (S k). split; [lia|]. rewrite Ek. f_equal. lia.
Qed.

Lemma label_map_row (a : Z) :
  In a alignment_candidates ->
  exists row, py_index label_map a = Ok row /\ List.length row = 12%nat.
Proof.
  intros H. simpl in H.
  repeat (destruct H as [<-|H]; [eexists; split; reflexivity|]).
  destruct H.
Qed.

Lemma align_slot_ok (texts colors : list string) (sizes : list num)
  (a : Z) (n : nat) (acc : list string * list string * list num) :
  In a alignment_candidates -> (n < 12)%nat ->
  List.length texts = 12%nat -> List.length colors = 12%nat ->
  List.length sizes = 12%nat -> twelve acc ->
  exists acc', align_slot texts colors sizes a (Z.of_nat n) acc = Ok acc'
               /\ twelve acc'.
Proof.
  intros Ha Hn Ht Hc Hs Hacc.
  destruct acc as [[l c] s]. destruct Hacc as [Hl [Hcl Hsl]].
  destruct (label_map_row a Ha) as [row [Hrow Hlen]].
  unfold align_slot. rewrite Hrow. cbn [bind].
  destruct (z_in (Z.of_nat n) row) eqn:Hin; cbn [negb].
  - destruct (z_index_from_ok _ _ 0 Hin) as [k [Hk Ek]].
    unfold z_index. rewrite Ek. cbn [bind]. rewrite Z.add_0_l.
    assert (E0 : (0 <=? Z.of_nat k) = true) by (apply Z.leb_le; lia).
    rewrite E0.
    rewrite (py_index_nth texts n "") by lia. cbn [bind].
    assert (E1 : exists l', (if negb (String.eqb (nth n texts "") "")
                             then py_setitem l (Z.of_nat k) (nth n texts "")
                             else Ok l) = Ok l' /\ List.length l' = 12%nat).
    { destruct (negb _).
      - rewrite py_setitem_nat by lia. eexists. split; [reflexivity|].
        now rewrite set_nth_length.
      - eauto. }
    destruct E1 as [l' [-> Hl']]. cbn [bind].
    rewrite (py_index_nth colors n "") by lia. cbn [bind].
    assert (E2 : exists c', (if negb (String.eqb (nth n colors "") "")
                             then py_setitem c (Z.of_nat k) (nth n colors "")
                             else Ok c) = Ok c' /\ List.length c' = 12%nat).
    { destruct (negb _).
      - rewrite py_setitem_nat by lia. eexists. split; [reflexivity|].
        now rewrite set_nth_length.
      - eauto. }
    destruct E2 as [c' [-> Hc']]. cbn [bind].
    rewrite (py_index_nth sizes n num0) by lia. cbn [bind].
    assert (E3 : exists s', (if negb (num_eqb (nth n sizes num0) num0)
                             then py_setitem s (Z.of_nat k) (nth n sizes num0)
                             else Ok s) = Ok s' /\ List.length s' = 12%nat).
    { destruct (negb _).
      - rewrite py_setitem_nat by lia. eexists. split; [reflexivity|].
        now rewrite set_nth_length.
      - eauto. }
    destruct E3 as [s' [-> Hs']]. cbn [bind].
    eexists. split; [reflexivity|]. simpl. auto.
  - eexists. split; [reflexivity|]. simpl. auto.
Qed.

Lemma key_labels_color_length (key : Key.t) :
  List.length (key_labels_color key) = List.length (Key.labels key).
Proof.
  unfold key_labels_color. apply length_map.
Qed.

Lemma key_labels_size_length (key : Key.t) :
  List.length (key_labels_size key) = List.length (Key.labels key).
Proof.
  unfold key_labels_size. apply length_map.
Qed.

(** For a key with twelve labels [aligned_arrays] returns, and the alignment
    it returns is the first candidate that survives. *)
Lemma aligned_arrays_ok (key : Key.t) :
  List.length (Key.labels key) = 12%nat ->
  exists a l c s,
    aligned_arrays key = Ok (a, l, c, s)
    /\ find (fun a => negb (eliminated (map Label.text (Key.labels key)) a))
         alignment_candidates = Some a
    /\ twelve (l, c, s).
Proof.
  intros H12. unfold aligned_arrays.
  assert (Ht : List.length (map Label.text (Key.labels key)) = 12%nat)
    by now rewrite length_map.
  rewrite possible_alignments_surviving by lia. cbn [bind].
  destruct (surviving_first (map Label.text (Key.labels key)))
    as [a [rest [E [F Hin]]]].
  rewrite E. change (py_index (a :: rest) 0) with (py_index (a :: rest) (Z.of_nat 0)).
  rewrite (py_index_nth (a :: rest) 0 0) by (simpl; lia). cbn [bind nth].
  destruct (for_each_invariant twelve (range 0 12)
              (align_slot (map Label.text (Key.labels key))
                 (key_labels_color key) (key_labels_size key) a)
              (repeat "" 12, repeat "" 12, repeat num0 12))
    as [[[l c] s] [Eloop T]].
  - intros i acc Hi Hacc. apply in_range in Hi. destruct Hi as [n [-> Hn]].
    apply align_slot_ok; auto; try lia.
    + now rewrite key_labels_color_length.
    + now rewrite key_labels_size_length.
  - simpl. auto.
  - rewrite Eloop. cbn [bind]. exists a, l, c, s. auto.
Qed.

Lemma _reduced_text_sizes_length (l : list num) :
  (List.length (_reduced_text_sizes l) <= List.length l)%nat.
Proof.
  induction l as [|a l IH]; simpl; [lia|].
  destruct (_reduced_text_sizes l); [destruct (num_eqb a num0)|]; simpl in *; lia.
Qed.

Lemma clean_up_slot_ok (key : Key.t) (current_labels_size : list num)
  (labels : list string) (n : nat) (sizes : list num) :
  (n < 12)%nat -> List.length current_labels_size = 12%nat ->
  List.length labels = 12%nat -> List.length sizes = 12%nat ->
  exists sizes',
    clean_up_slot key current_labels_size labels (Z.of_nat n) sizes = Ok sizes'
    /\ List.length sizes' = 12%nat.
Proof.
  intros Hn Hc Hl Hs. rewrite clean_up_slot_without_comparison_eq.
  unfold clean_up_slot_without_comparison.
  rewrite (py_index_nth labels n "") by lia. cbn [bind].
  destruct (String.eqb (nth n labels "") "").
  - rewrite (py_index_nth current_labels_size n num0) by lia. cbn [bind].
    rewrite py_setitem_nat by lia. eexists. split; [reflexivity|].
    now rewrite set_nth_length.
  - eauto.
Qed.

(** C2: for a key with its twelve labels (and twelve running sizes)
    [_aligned_key_properties] returns; the candidates are tried in the order
    7, 5, 6, 4, 3, 1, 2, 0; the candidates left are exactly those that no slot
    with a non-empty text disallows; and the alignment returned is the first
    of them in that order. *)
Theorem alignment_selection :
  forall (key : Key.t) (current_labels_size : list num),
    List.length (Key.labels key) = 12%nat ->
    List.length current_labels_size = 12%nat ->
    let texts := map Label.text (Key.labels key) in
    alignment_candidates = [7; 5; 6; 4; 3; 1; 2; 0]
    /\ possible_alignments texts
       = Ok (filter (fun a => negb (eliminated texts a)) alignment_candidates)
    /\ exists alignment labels colors sizes,
         _aligned_key_properties key current_labels_size
         = Ok (alignment, labels, colors, sizes)
         /\ find (fun a => negb (eliminated texts a)) alignment_candidates
            = Some alignment.
Proof.
  intros key cur H12 Hcur texts. split; [reflexivity|]. split.
  - apply possible_alignments_surviving. subst texts. rewrite length_map. lia.
  - destruct (aligned_arrays_ok key H12) as [a [l [c [s [E [F [Hl [Hc Hs]]]]]]]].
    unfold _aligned_key_properties. rewrite E. cbn [bind].
    destruct (for_each_invariant (fun z => List.length z = 12%nat)
                (range 0 (List.length (_reduced_text_sizes s)))
                (clean_up_slot key cur l) s) as [s' [Eloop _]].
    + intros i z Hi Hz. apply in_range in Hi. destruct Hi as [n [-> Hn]].
      apply clean_up_slot_ok; auto.
      pose proof (_reduced_text_sizes_length s). lia.
    + exact Hs.
    + rewrite Eloop. cbn [bind]. exists a, l, c, s'. auto.
Qed.

Lemma alignment_selection_witness :
  List.length (Key.labels key_B_F) = 12%nat
  /\ List.length (repeat num0 12) = 12%nat
  /\ map Label.text (Key.labels key_B_F)
     = [""; "B"; ""; ""; ""; ""; ""; ""; ""; "F"; ""; ""]
  /\ possible_alignments (map Label.text (Key.labels key_B_F)) = Ok [1; 0]
  /\ exists labels colors sizes,
       _aligned_key_properties key_B_F (repeat num0 12)
       = Ok (1, labels, colors, sizes).
Proof.
  split; [reflexivity|]. split; [reflexivity|]. split; [reflexivity|].
  split.
  - exact (proj1 (proj2 (alignment_selection key_B_F (repeat num0 12)
                           eq_refl eq_refl))).
  - destruct (proj2 (proj2 (alignment_selection key_B_F (repeat num0 12)
                              eq_refl eq_refl)))
      as [a [l [c [z [E F]]]]].
    injection F as F. subst a. exists l, c, z. exact E.
Defined.

(** ** Scattering with [unaligned] *)

Lemma for_each_preserves {A S : Type} (P : S -> Prop) (l : list A)
  (body : A -> S -> result S) :
  (forall a s s', body a s = Ok s' -> P s -> P s') ->
  forall s s', for_each l body s = Ok s' -> P s -> P s'.
Proof.
  intros Hb. induction l as [|a l IH]; intros s s' H Hs; simpl in H.
  - now inversion H; subst.
  - apply bind_ok_inv in H. destruct H as [s1 [E1 E2]].
    eapply IH; [exact E2|]. eapply Hb; eauto.
Qed.

Lemma py_setitem_length {A : Type} (l l' : list A) (i : Z) (a : A) :
  py_setitem l i a = Ok l' -> List.length l' = List.length l.
Proof.
  unfold py_setitem. destruct (_ && _); intros H; inversion H.
  apply set_nth_length.
Qed.

Lemma py_setitem_ok {A : Type} (l : list A) (i : Z) (a : A) :
  - Z.of_nat (List.length l) <= i < Z.of_nat (List.length l) ->
  exists l', py_setitem l i a = Ok l'.
Proof.
  intros H. unfold py_setitem.
  destruct (i <? 0) eqn:E.
  - apply Z.ltb_lt in E.
    assert (E1 : (0 <=? i + Z.of_nat (List.length l)) = true)
      by (apply Z.leb_le; lia).
    assert (E2 : (i + Z.of_nat (List.length l) <? Z.of_nat (List.length l)) = true)
      by (apply Z.ltb_lt; lia).
    rewrite E1, E2. simpl. eauto.
  - apply Z.ltb_ge in E.
    assert (E1 : (0 <=? i) = true) by (apply Z.leb_le; lia).
    assert (E2 : (i <? Z.of_nat (List.length l)) = true) by (apply Z.ltb_lt; lia).
    rewrite E1, E2. simpl. eauto.
Qed.

Lemma unaligned_length {A : Type} (items : list A) (a : Z) (d : A) (u : list A) :
  unaligned items a d = Ok u -> List.length u = 12%nat.
Proof.
  unfold unaligned. intros H.
  eapply (for_each_preserves (fun u => List.length u = 12%nat));
    [|exact H|apply repeat_length].
  intros [i x] s s' E Hs.
  apply bind_ok_inv in E. destruct E as [row [_ E]].
  apply bind_ok_inv in E. destruct E as [slot [_ E]].
  apply py_setitem_length in E. congruence.
Qed.

Lemma in_enumerate_from {A : Type} (l : list A) :
  forall (k i : Z) (x : A),
    In (i, x) (enumerate_from k l) ->
    exists n, i = k + Z.of_nat n /\ (n < List.length l)%nat.
Proof.
  induction l as [|a l IH]; intros k i x H; [destruct H|].
  destruct H as [H|H].
  - inversion H; subst. exists 0%nat. simpl. split; lia.
  - destruct (IH _ _ _ H) as [n [E Hn]]. exists (S n). simpl. split; lia.
Qed.

(** Every entry of [label_map] is a slot or -1. *)
Lemma label_map_slot (a : Z) (n : nat) :
  0 <= a < 8 -> (n < 12)%nat ->
  exists row slot,
    py_index label_map a = Ok row
    /\ py_index row (Z.of_nat n) = Ok slot
    /\ -1 <= slot < 12.
Proof.
  intros Ha Hn.
  assert (C : a = 0 \/ a = 1 \/ a = 2 \/ a = 3 \/ a = 4 \/ a = 5 \/ a = 6 \/ a = 7)
    by lia.
  repeat (destruct C as [->|C]);
    try subst a;
    (do 12 (destruct n as [|n];
            [eexists; eexists; split; [reflexivity|split; [reflexivity|lia]]|]);
     lia).
Qed.

Lemma unaligned_ok {A : Type} (items : list A) (a : Z) (d : A) :
  (List.length items <= 12)%nat -> 0 <= a < 8 ->
  exists u, unaligned items a d = Ok u.
Proof.
  intros Hl Ha. unfold unaligned.
  destruct (for_each_invariant (fun u : list A => List.length u = 12%nat)
              (enumerate items)
              (fun '(i, aligned_item) unaligned_items =>
                 row <- py_index label_map a ;;
                 slot <- py_index row i ;;
                 py_setitem unaligned_items slot aligned_item)
              (repeat d 12)) as [u [E _]].
  - intros [i x] s Hin Hs.
    apply in_enumerate_from in Hin. destruct Hin as [n [-> Hn]].
    rewrite Z.add_0_l.
    destruct (label_map_slot a n Ha ltac:(lia)) as [row [slot [E1 [E2 Hs2]]]].
    rewrite E1. cbn [bind]. rewrite E2. cbn [bind].
    destruct (py_setitem_ok s slot x) as [l' E3]; [lia|].
    exists l'. split; [exact E3|].
    apply py_setitem_length in E3. congruence.
  - apply repeat_length.
  - eauto.
Qed.

Lemma set_nth_app {A : Type} (pre old : list A) (o x : A) :
  set_nth (pre ++ o :: old) (List.length pre) x = (pre ++ x :: old)%list.
Proof.
  induction pre as [|p pre IH]; simpl; [reflexivity|]. now rewrite IH.
Qed.

(** Assigning the twelve entries one by one replaces the whole list. *)
Lemma overwrite_all {A : Type} (u : list A) :
  forall old pre : list A,
    List.length u = List.length old ->
    for_each (enumerate_from (Z.of_nat (List.length pre)) u)
      (fun '(i, c) current => py_setitem current i c) (pre ++ old)%list
    = Ok (pre ++ u)%list.
Proof.
  induction u as [|x u IH]; intros old pre H.
  - destruct old; [|discriminate]. reflexivity.
  - destruct old as [|o old]; [discriminate|]. simpl in H.
    cbn [enumerate_from for_each].
    rewrite py_setitem_nat by (rewrite length_app; simpl; lia).
    cbn [bind]. rewrite set_nth_app.
    replace (Z.of_nat (List.length pre) + 1)
      with (Z.of_nat (List.length (pre ++ [x])))
      by (rewrite length_app; simpl; lia).
    replace (pre ++ x :: old)%list with ((pre ++ [x]) ++ old)%list
      by (now rewrite <- app_assoc).
    rewrite IH by lia. now rewrite <- app_assoc.
Qed.

Lemma overwrite_all_0 {A : Type} (u old : list A) :
  List.length u = List.length old ->
  for_each (enumerate u) (fun '(i, c) current => py_setitem current i c) old
  = Ok u.
Proof.
  intros H. exact (overwrite_all u old [] H).
Qed.

Lemma split_lines_hd (s : string) :
  py_index (split_lines s) 0 = Ok (hd "" (split_lines s)).
Proof.
  assert (H : exists h t, split_lines s = h :: t).
  { destruct s as [|c s]; simpl; [eauto|].
    destruct (Ascii.eqb c newline); [eauto|].
    destruct (split_lines s); eauto. }
  destruct H as [h [t ->]]. reflexivity.
Qed.

(** ** Playback of the field ["t"] *)

Ltac step_inv H :=
  repeat match type of H with
         | bind _ _ = Ok _ =>
             let x := fresh "x" in
             let E := fresh "E" in
             apply bind_ok_inv in H; destruct H as [x [E H]]
         | Ok _ = Ok _ => inversion H; subst; clear H
         | Raise _ = Ok _ => discriminate H
         | match ?v with _ => _ end = Ok _ => destruct v; try discriminate H
         end.

Lemma play_steps_rel (R : playback_state -> playback_state -> Prop)
  (steps : list (string * (pyval -> playback_state -> result playback_state)))
  (key_changes : dict) :
  (forall s, R s s) -> (forall a b c, R a b -> R b c -> R a c) ->
  Forall (fun step => forall v s s', snd step v s = Ok s' -> R s s') steps ->
  forall s s', play_steps steps key_changes s = Ok s' -> R s s'.
Proof.
  intros Hrefl Htrans HF. unfold play_steps.
  induction HF as [|[name body] steps Hstep HF IH]; intros s s' H; simpl in H.
  - inversion H; subst. apply Hrefl.
  - apply bind_ok_inv in H. destruct H as [s1 [E1 E2]].
    apply Htrans with s1; [|now apply IH].
    unfold on_field in E1. destruct (dict_get name key_changes) as [v|].
    + exact (Hstep v s s1 E1).
    + inversion E1; subst. apply Hrefl.
Qed.

Lemma steps_before_t_keep :
  Forall (fun step => forall v s s', snd step v s = Ok s' -> keeps_colors s s')
    steps_before_t.
Proof.
  unfold steps_before_t. cbn [firstn key_change_steps].
  repeat (apply Forall_cons;
          [cbn [snd]; intros v s s' H;
           unfold key_mpf, key_str, play_rx, play_ry, play_a, play_f, play_f2,
             play_fa in H;
           step_inv H; split; reflexivity|]).
  apply Forall_nil.
Qed.

Lemma steps_after_t_keep :
  Forall (fun step => forall v s s',
              snd step v s = Ok s' -> keeps_colors_and_alignment s s')
    steps_after_t.
Proof.
  unfold steps_after_t. cbn [skipn key_change_steps].
  repeat (apply Forall_cons;
          [cbn [snd]; intros v s s' H;
           unfold key_mpf, key_bool, play_x, play_y, play_w, play_h,
             play_switch_mount in H;
           step_inv H; repeat split; reflexivity|]).
  apply Forall_nil.
Qed.

Lemma keeps_colors_refl (s : playback_state) : keeps_colors s s.
Proof.
  split; reflexivity.
Qed.

Lemma keeps_colors_trans (a b c : playback_state) :
  keeps_colors a b -> keeps_colors b c -> keeps_colors a c.
Proof.
  intros [H1 H2] [H3 H4]. split; congruence.
Qed.

Lemma keeps_colors_and_alignment_refl (s : playback_state) :
  keeps_colors_and_alignment s s.
Proof.
  split; [apply keeps_colors_refl | reflexivity].
Qed.

Lemma keeps_colors_and_alignment_trans (a b c : playback_state) :
  keeps_colors_and_alignment a b -> keeps_colors_and_alignment b c ->
  keeps_colors_and_alignment a c.
Proof.
  intros [H1 H2] [H3 H4]. split; [eapply keeps_colors_trans; eauto | congruence].
Qed.

(** What the step for ["t"] does on twelve running colors. *)
Lemma play_t_inv (t : string) (s s' : playback_state) :
  List.length (pb_labels_color s) = 12%nat ->
  play_t (PStr t) s = Ok s' ->
  unaligned (split_lines t) (pb_alignment s') "" = Ok (pb_labels_color s')
  /\ pb_alignment s' = pb_alignment s
  /\ Key.default_text_color (pb_key s')
     = (if String.eqb (hd "" (split_lines t)) ""
        then Key.default_text_color (pb_key s)
        else hd "" (split_lines t)).
Proof.
  intros H12 H. unfold play_t in H. cbn [as_str bind] in H.
  rewrite split_lines_hd in H. cbn [bind] in H.
  set (first := hd "" (split_lines t)) in *.
  set (s1 := if negb (String.eqb first "")
             then pb_set_key (Key.set_default_text_color first (pb_key s)) s
             else s) in *.
  assert (Ha : pb_alignment s1 = pb_alignment s)
    by (subst s1; destruct (negb _); reflexivity).
  assert (Hc : pb_labels_color s1 = pb_labels_color s)
    by (subst s1; destruct (negb _); reflexivity).
  assert (Hd : Key.default_text_color (pb_key s1)
               = if String.eqb first "" then Key.default_text_color (pb_key s)
                 else first)
    by (subst s1; destruct (String.eqb first ""); reflexivity).
  apply bind_ok_inv in H. destruct H as [u [Eu H]].
  apply bind_ok_inv in H. destruct H as [current [Ec H]].
  inversion H; subst s'; clear H. cbn [pb_set_labels_color pb_labels_color
    pb_alignment pb_key].
  pose proof (unaligned_length _ _ _ _ Eu) as Hu.
  rewrite (overwrite_all_0 u (pb_labels_color s1)) in Ec
    by (rewrite Hc; congruence).
  inversion Ec; subst current. simpl. auto.
Qed.

(** C3, as the code has it: the value of ["t"] is split on line breaks; a
    non-empty first segment becomes the key's default text color; and all the
    segments, the first one included, are scattered by [unaligned] under the
    alignment of that moment over the twelve running colors, which they
    replace.  With ["t"] as the only field the playback returns whenever there
    are at most twelve segments and the alignment is one of 0..7. *)
Theorem playback_t_scatters_all_segments :
  (forall (key : Key.t) (colors : list string) (sizes : list num) (a : Z)
          (crx cry : mpf) (t : string),
      List.length colors = 12%nat ->
      (List.length (split_lines t) <= 12)%nat -> 0 <= a < 8 ->
      is_ok (playback_key_changes key [("t", PStr t)] colors sizes a crx cry)
      = true)
  /\ (forall (key : Key.t) (key_changes : dict) (colors : list string)
             (sizes : list num) (a : Z) (crx cry : mpf) (t : string)
             (s' : playback_state),
         dict_get "t" key_changes = Some (PStr t) ->
         List.length colors = 12%nat ->
         playback_key_changes key key_changes colors sizes a crx cry = Ok s' ->
         unaligned (split_lines t) (pb_alignment s') "" = Ok (pb_labels_color s')
         /\ Key.default_text_color (pb_key s')
            = (if String.eqb (hd "" (split_lines t)) ""
               then Key.default_text_color key
               else hd "" (split_lines t))).
Proof.
  split.
  - intros key colors sizes a crx cry t H12 Hseg Ha.
    unfold playback_key_changes, play_steps, key_change_steps.
    cbn [for_each on_field dict_get String.eqb Ascii.eqb Bool.eqb bind].
    unfold play_t. cbn [as_str bind pb_alignment pb_labels_color pb_key].
    rewrite split_lines_hd. cbn [bind].
    set (first := hd "" (split_lines t)).
    destruct (unaligned_ok (split_lines t) a "" Hseg Ha) as [u Eu].
    assert (E : forall s1 s2 : playback_state,
               pb_alignment s1 = a -> pb_labels_color s1 = colors ->
               pb_alignment s2 = a -> pb_labels_color s2 = colors ->
               is_ok
                 (colors0 <- unaligned (split_lines t)
                               (pb_alignment
                                  (if negb (String.eqb first "") then s1 else s2))
                               "" ;;
                  current <- for_each (enumerate colors0)
                               (fun '(i, color) current =>
                                  py_setitem current i color)
                               (pb_labels_color
                                  (if negb (String.eqb first "") then s1 else s2)) ;;
                  Ok (pb_set_labels_color current
                        (if negb (String.eqb first "") then s1 else s2)))
               = true).
    { intros s1 s2 A1 C1 A2 C2.
      assert (A : pb_alignment (if negb (String.eqb first "") then s1 else s2) = a)
        by (destruct (negb _); assumption).
      assert (C : pb_labels_color (if negb (String.eqb first "") then s1 else s2)
                  = colors)
        by (destruct (negb _); assumption).
      rewrite A, C, Eu. cbn [bind].
      rewrite (overwrite_all_0 u colors)
        by (rewrite (unaligned_length _ _ _ _ Eu); congruence).
      reflexivity. }
    match goal with
    | |- context [if negb (String.eqb first "") then ?s1 else ?s2] =>
        pose proof (E s1 s2 eq_refl eq_refl eq_refl eq_refl) as E'
    end.
    destruct (bind (unaligned _ _ _) _) as [s2|e] eqn:E2 in E';
      [|discriminate E'].
    rewrite E2. reflexivity.
  - intros key kc colors sizes a crx cry t s' Ht H12 H.
    unfold playback_key_changes in H.
    change key_change_steps
      with (steps_before_t ++ ("t", play_t) :: steps_after_t)%list in H.
    unfold play_steps in H. rewrite for_each_app in H.
    apply bind_ok_inv in H. destruct H as [s1 [E1 H]].
    cbn [for_each] in H.
    apply bind_ok_inv in H. destruct H as [s2 [E2 E3]].
    unfold on_field in E2. rewrite Ht in E2.
    pose proof (play_steps_rel keeps_colors steps_before_t kc
                  keeps_colors_refl keeps_colors_trans steps_before_t_keep
                  _ _ E1) as [B1 B2].
    pose proof (play_steps_rel keeps_colors_and_alignment steps_after_t kc
                  keeps_colors_and_alignment_refl
                  keeps_colors_and_alignment_trans steps_after_t_keep
                  _ _ E3) as [[A1 A2] A3].
    cbn [pb_labels_color pb_key] in B1, B2.
    destruct (play_t_inv t s1 s2) as [T1 [T2 T3]]; [congruence|exact E2|].
    split.
    + rewrite A3, A1. exact T1.
    + rewrite A2, T3, B2. reflexivity.
Qed.

Lemma playback_t_scatters_all_segments_witness :
  dict_get "t" [("t", PStr two_colors)] = Some (PStr two_colors)
  /\ List.length colors_12 = 12%nat
  /\ is_ok (playback_key_changes Key.init [("t", PStr two_colors)] colors_12
              sizes_12 4 (mpf_of_Z 0) (mpf_of_Z 0)) = true.
Proof.
  split; [reflexivity|]. split; [reflexivity|].
  apply (proj1 playback_t_scatters_all_segments); [reflexivity| |lia].
  vm_compute. lia.
Defined.

(** C3, as the claim has it, fails: after ["t": "#111111\n#222222"] under
    alignment 4 the running colors hold the first segment in slot 0 and the
    second in slot 6, which is neither the scattering of the segments after
    the first (the second segment in slot 0) nor the same with the first
    segment left out. *)
Lemma playback_t_remaining_segments_counterexample :
  exists s',
    playback_key_changes Key.init [("t", PStr two_colors)] colors_12 sizes_12 4
      (mpf_of_Z 0) (mpf_of_Z 0) = Ok s'
    /\ pb_labels_color s'
       = ["#111111"; ""; ""; ""; ""; ""; "#222222"; ""; ""; ""; ""; ""]
    /\ unaligned (tl (split_lines two_colors)) 4 ""
       = Ok ["#222222"; ""; ""; ""; ""; ""; ""; ""; ""; ""; ""; ""]
    /\ unaligned (tl (split_lines two_colors)) 4 "" <> Ok (pb_labels_color s')
    /\ unaligned ("" :: tl (split_lines two_colors)) 4 ""
       <> Ok (pb_labels_color s').
Proof.
  eexists. split; [vm_compute; reflexivity|].
  split; [reflexivity|]. split; [reflexivity|].
  split; vm_compute; discriminate.
Qed.

(** ** The order of the keys *)

Section StableSortFacts.
Variables (A K : Type) (ltb : K -> K -> bool) (key : A -> K).
Let le (a b : A) : Prop := ltb (key b) (key a) = false.
Hypothesis le_trans : forall a b c, le a b -> le b c -> le a c.
Hypothesis ltb_asym : forall a b, ltb (key a) (key b) = true -> le a b.

Lemma insert_stable_perm (a : A) (l : list A) :
  Permutation (a :: l) (insert_stable ltb key a l).
Proof.
  induction l as [|b l IH]; simpl; [reflexivity|].
  destruct (ltb (key b) (key a)); [|reflexivity].
  rewrite perm_swap. now apply perm_skip.
Qed.

Lemma sorted_perm (l : list A) : Permutation l (sorted ltb key l).
Proof.
  induction l as [|a l IH]; simpl; [constructor|].
  rewrite <- insert_stable_perm. now apply perm_skip.
Qed.

Lemma insert_stable_sorted (a : A) (l : list A) :
  StronglySorted le l -> StronglySorted le (insert_stable ltb key a l).
Proof.
  induction l as [|b l IH]; intros H; simpl.
  - repeat constructor.
  - inversion H as [|? ? Hl Hb]; subst.
    destruct (ltb (key b) (key a)) eqn:E.
    + constructor; [now apply IH|].
      apply (Permutation_Forall (insert_stable_perm a l)).
      constructor; [now apply ltb_asym | exact Hb].
    + constructor; [exact H|]. constructor; [exact E|].
      eapply Forall_impl; [|exact Hb]. intros c Hc.
      now apply le_trans with b.
Qed.

Lemma sorted_sorted (l : list A) : StronglySorted le (sorted ltb key l).
Proof.
  induction l as [|a l IH]; simpl; [constructor|].
  now apply insert_stable_sorted.
Qed.
End StableSortFacts.

Lemma mpf_ltb_lt (x y : mpf) : mpf_ltb x y = true <-> (mpf_q x < mpf_q y)%Q.
Proof.
  unfold mpf_ltb. rewrite negb_true_iff. split; intros H.
  - apply Qnot_le_lt. intros L. apply Qle_bool_iff in L. congruence.
  - apply not_true_is_false. intros L. apply Qle_bool_iff in L.
    now apply Qle_not_lt in L.
Qed.

Lemma tuple_ltb_lex_le (a : list mpf) :
  forall b, tuple_ltb b a = false <-> lex_le a b.
Proof.
  induction a as [|x a IH]; intros [|y b]; simpl; try tauto.
  - split; [discriminate | tauto].
  - unfold mpf_eqb. destruct (Qeq_bool (mpf_q y) (mpf_q x)) eqn:E.
    + apply Qeq_bool_iff in E. rewrite IH. split.
      * intros H. right. split; [now symmetry | exact H].
      * intros [H|[_ H]]; [|exact H]. rewrite E in H.
        now apply Qlt_irrefl in H.
    + apply Qeq_bool_neq in E. split.
      * intros H. left. apply not_true_iff_false in H.
        rewrite mpf_ltb_lt in H. apply Qnot_lt_le in H.
        apply Qle_lteq in H. destruct H as [H|H]; [exact H|].
        symmetry in H. contradiction.
      * intros [H|[H _]]; [|symmetry in H; contradiction].
        apply not_true_iff_false. rewrite mpf_ltb_lt.
        now apply Qle_not_lt, Qlt_le_weak.
Qed.

Lemma lex_le_trans (a : list mpf) :
  forall b c, lex_le a b -> lex_le b c -> lex_le a c.
Proof.
  induction a as [|x a IH]; intros [|y b] [|z c]; simpl; try tauto.
  intros [H1|[H1 H1']] [H2|[H2 H2']].
  - left. now apply Qlt_trans with (mpf_q y).
  - left. now rewrite <- H2.
  - left. now rewrite H1.
  - right. split; [now rewrite H1 | eauto].
Qed.

Lemma lex_le_total (a : list mpf) :
  forall b, List.length a = List.length b -> lex_le a b \/ lex_le b a.
Proof.
  induction a as [|x a IH]; intros [|y b] H; simpl in *; try discriminate; auto.
  destruct (Q_dec (mpf_q x) (mpf_q y)) as [[L|G]|E]; auto.
  destruct (IH b) as [Hl|Hr]; [congruence| |].
  - left. right. auto.
  - right. right. split; [now symmetry | exact Hr].
Qed.

(** The normalised angle lies between 0 and 360: the remainder lies in
    [0, 360) and its rounding does not cross 360. *)
Lemma normalised_angle_range (a : mpf) :
  (0 <= mpf_q (mpf_mod (mpf_add a (mpf_of_Z 360)) (mpf_of_Z 360))
   /\ mpf_q (mpf_mod (mpf_add a (mpf_of_Z 360)) (mpf_of_Z 360)) <= 360)%Q.
Proof.
  unfold mpf_mod, mpf_add, mpf_of_Z. cbn [mpf_q].
  set (q := mpf_round (mpf_q a + inject_Z 360)).
  set (f := Qfloor (q / inject_Z 360)).
  assert (Hlo : (inject_Z f <= q / inject_Z 360)%Q) by apply Qfloor_le.
  assert (Hhi : (q / inject_Z 360 < inject_Z (f + 1))%Q) by apply Qlt_floor.
  assert (H360 : (0 < inject_Z 360)%Q) by reflexivity.
  assert (Hmul : (q / inject_Z 360 * inject_Z 360 == q)%Q) by field.
  assert (Hlo' : (inject_Z f * inject_Z 360 <= q)%Q).
  { rewrite <- Hmul. apply Qmult_le_compat_r; [exact Hlo | now apply Qlt_le_weak]. }
  assert (Hhi' : (q < inject_Z (f + 1) * inject_Z 360)%Q).
  { rewrite <- Hmul at 1. now apply Qmult_lt_compat_r. }
  rewrite inject_Z_plus in Hhi'.
  change (inject_Z 1) with 1%Q in Hhi'.
  split.
  - apply mpf_round_nonneg. change (inject_Z 360) with 360%Q in *. lra.
  - change 360%Q with (inject_Z 360). apply mpf_round_le_Z.
    + change (inject_Z 360) with 360%Q in *. lra.
    + change (inject_Z 360) with 360%Q in *. lra.
    + reflexivity.
Qed.

(** For an angle of at most [prec] bits the normalised angle is below 360:
    the sum, if it is rounded at all, is a multiple of 2^-44, and so is the
    remainder, which then has less than [prec] bits and is not rounded. *)
Lemma normalised_angle_below_360 (a : mpf) :
  has_working_precision a ->
  (mpf_q (mpf_mod (mpf_add a (mpf_of_Z 360)) (mpf_of_Z 360)) < 360)%Q.
Proof.
  unfold has_working_precision. intros Ha.
  unfold mpf_mod, mpf_add, mpf_of_Z. cbn [mpf_q].
  set (x := mpf_q a) in *.
  set (s := mpf_round (x + inject_Z 360)).
  set (f := Qfloor (s / inject_Z 360)).
  assert (Hlo : (inject_Z f <= s / inject_Z 360)%Q) by apply Qfloor_le.
  assert (Hhi : (s / inject_Z 360 < inject_Z (f + 1))%Q) by apply Qlt_floor.
  assert (H360 : (0 < inject_Z 360)%Q) by reflexivity.
  assert (Hmul : (s / inject_Z 360 * inject_Z 360 == s)%Q) by field.
  assert (Hlo' : (inject_Z f * inject_Z 360 <= s)%Q).
  { rewrite <- Hmul. apply Qmult_le_compat_r; [exact Hlo | now apply Qlt_le_weak]. }
  assert (Hhi' : (s < inject_Z (f + 1) * inject_Z 360)%Q).
  { rewrite <- Hmul at 1. now apply Qmult_lt_compat_r. }
  rewrite inject_Z_plus in Hhi'. change (inject_Z 1) with 1%Q in Hhi'.
  set (r := (s - inject_Z 360 * inject_Z f)%Q).
  assert (R0 : (0 <= r)%Q) by (subst r; lra).
  assert (R1 : (r < inject_Z 360)%Q) by (subst r; lra).
  assert (P8 : (pow2 8 == 256)%Q) by reflexivity.
  assert (P9 : (pow2 (-44 + prec) == 512)%Q) by reflexivity.
  assert (D360 : forall z, dyadic (-44) (inject_Z z))
    by (intros z; apply dyadic_Z; lia).
  (* the rounded sum is a multiple of 2^-44, or it lies in [0, 256] *)
  assert (S : dyadic (-44) s \/ (0 <= s /\ s <= 256)%Q).
  { destruct (Qlt_le_dec (Qabs x) 256) as [Sx|Lx].
    - apply Qabs_Qlt_condition in Sx.
      assert (Y0 : (0 <= x + inject_Z 360)%Q)
        by (change (inject_Z 360) with 360%Q; lra).
      destruct (Qlt_le_dec (x + inject_Z 360) 256) as [Sy|Ly].
      + right. split.
        * now apply mpf_round_nonneg.
        * change 256%Q with (inject_Z 256).
          apply mpf_round_le_Z; [exact Y0 | exact Sy | reflexivity].
      + left. change (-44) with (8 - (prec - 1)). apply mpf_round_dyadic.
        rewrite P8, Qabs_pos by exact Y0. exact Ly.
    - assert (Dx : dyadic (-44) x).
      { apply (dyadic_comp _ _ _ Ha). change (-44) with (8 - (prec - 1)).
        apply mpf_round_dyadic. now rewrite P8. }
      assert (Dy : dyadic (-44) (x + inject_Z 360))
        by (apply dyadic_plus; [exact Dx | apply D360]).
      left. destruct (Qlt_le_dec (Qabs (x + inject_Z 360)) 256) as [Sy|Ly].
      + apply (dyadic_comp _ (x + inject_Z 360)); [|exact Dy].
        symmetry. apply (mpf_round_dyadic_exact (-44)); [exact Dy|].
        rewrite P9. lra.
      + change (-44) with (8 - (prec - 1)). apply mpf_round_dyadic.
        now rewrite P8. }
  destruct S as [Ds|[S0 S1]].
  - (* the remainder is a multiple of 2^-44 below 512: it is not rounded *)
    assert (Dr : dyadic (-44) r).
    { apply (dyadic_comp _ (s + inject_Z (- (360 * f)))).
      - subst r. rewrite inject_Z_opp, inject_Z_mult. ring.
      - apply dyadic_plus; [exact Ds | apply D360]. }
    rewrite (mpf_round_dyadic_exact (-44) r Dr).
    + exact R1.
    + rewrite P9, Qabs_pos by exact R0. change (inject_Z 360) with 360%Q in R1.
      lra.
  - (* the remainder is at most 256 *)
    assert (F0 : 0 <= f).
    { subst f. change 0 with (Qfloor 0). apply Qfloor_resp_le.
      apply Qle_shift_div_l; [exact H360|]. lra. }
    assert (F0q : (0 <= inject_Z f)%Q) by (now rewrite <- (Zle_Qle 0)).
    change (inject_Z 360) with 360%Q in *.
    apply Qle_lt_trans with (inject_Z 257); [|reflexivity].
    apply mpf_round_le_Z; [exact R0| |reflexivity].
    change (inject_Z 257) with 257%Q. subst r. nra.
Qed.

(** On an integer angle the normalisation is exact: the sum and the
    remainder are integers of less than [prec] bits. *)
Lemma normalised_integer_angle (z : Z) :
  Z.abs (z + 360) < 2 ^ prec ->
  mpf_mod (mpf_add (mpf_of_Z z) (mpf_of_Z 360)) (mpf_of_Z 360)
  = mpf_of_Z (z mod 360).
Proof.
  intros Hz. unfold mpf_mod, mpf_add, mpf_of_Z. cbn [mpf_q]. f_equal.
  assert (S : (inject_Z z + inject_Z 360)%Q = inject_Z (z + 360)).
  { unfold inject_Z, Qplus. cbn [Qnum Qden]. now rewrite !Z.mul_1_r. }
  rewrite S, (mpf_round_Z _ Hz). clear S.
  assert (F : Qfloor (inject_Z (z + 360) / inject_Z 360) = (z + 360) / 360).
  { unfold inject_Z, Qdiv, Qmult, Qinv, Qfloor. cbn [Qnum Qden].
    now rewrite Z.mul_1_r. }
  rewrite F. clear F.
  assert (R : (inject_Z (z + 360) - inject_Z 360 * inject_Z ((z + 360) / 360))%Q
              = inject_Z (z mod 360)).
  { unfold inject_Z, Qminus, Qplus, Qopp, Qmult. cbn [Qnum Qden].
    rewrite !Z.mul_1_r. f_equal.
    replace (z mod 360) with ((z + 360) mod 360)
      by (rewrite <- (Z.mul_1_l 360) at 1; apply Z.mod_add; discriminate).
    rewrite (Z.mod_eq (z + 360) 360) by discriminate. lia. }
  rewrite R. apply mpf_round_Z.
  pose proof (Z.mod_pos_bound z 360 ltac:(lia)). unfold prec.
  change (2 ^ 53) with 9007199254740992. lia.
Qed.

Lemma StronglySorted_impl {A : Type} (R R' : A -> A -> Prop) (l : list A) :
  (forall a b, R a b -> R' a b) -> StronglySorted R l -> StronglySorted R' l.
Proof.
  intros H S. induction S as [|a l S IH F]; constructor; auto.
  eapply Forall_impl; [|exact F]. auto.
Qed.

Lemma key_sort_criteria_length (key : Key.t) :
  List.length (key_sort_criteria key) = 5%nat.
Proof.
  reflexivity.
Qed.

(** ** Structural errors of the decoder *)

Lemma from_json_row_prefix (pre post rpre rpost : list pyval) (item : pyval)
  (d0 d1 : Keyboard.decoder) (e : exn) :
  for_each (enumerate pre) Keyboard.decode_element Keyboard.decoder_init = Ok d0 ->
  for_each (enumerate rpre) (Keyboard.decode_item (rpre ++ item :: rpost)) d0
  = Ok d1 ->
  Keyboard.decode_item (rpre ++ item :: rpost)
    (Z.of_nat (List.length rpre), item) d1 = Raise e ->
  Keyboard.from_json (PList (pre ++ PList (rpre ++ item :: rpost) :: post))
  = Raise e.
Proof.
  intros H0 H1 He. unfold Keyboard.from_json, enumerate.
  rewrite enumerate_from_app, for_each_app.
  unfold enumerate in H0. rewrite H0. cbn [bind enumerate_from for_each].
  unfold Keyboard.decode_element at 1. unfold enumerate.
  rewrite enumerate_from_app, for_each_app.
  unfold enumerate in H1. rewrite H1. cbn [bind enumerate_from for_each].
  rewrite Z.add_0_l, He. reflexivity.
Qed.

Lemma from_json_row_fails (pre post rpre rpost : list pyval) (item : pyval) :
  (forall d, is_ok (Keyboard.decode_item (rpre ++ item :: rpost)
                      (Z.of_nat (List.length rpre), item) d) = false) ->
  is_ok (Keyboard.from_json
           (PList (pre ++ PList (rpre ++ item :: rpost) :: post))) = false.
Proof.
  intros He.
  destruct (for_each (enumerate pre) Keyboard.decode_element
              Keyboard.decoder_init) as [d0|e0] eqn:H0.
  - destruct (for_each (enumerate rpre)
                (Keyboard.decode_item (rpre ++ item :: rpost)) d0)
      as [d1|e1] eqn:H1.
    + specialize (He d1).
      destruct (Keyboard.decode_item (rpre ++ item :: rpost)
                  (Z.of_nat (List.length rpre), item) d1) as [d2|e2] eqn:H2;
        [discriminate He|].
      now rewrite (from_json_row_prefix pre post rpre rpost item d0 d1 e2).
    + unfold Keyboard.from_json, enumerate.
      rewrite enumerate_from_app, for_each_app.
      unfold enumerate in H0. rewrite H0. cbn [bind enumerate_from for_each].
      unfold Keyboard.decode_element at 1. unfold enumerate.
      rewrite enumerate_from_app, for_each_app.
      unfold enumerate in H1. rewrite H1. reflexivity.
  - unfold Keyboard.from_json, enumerate.
    rewrite enumerate_from_app, for_each_app.
    unfold enumerate in H0. rewrite H0. reflexivity.
Qed.

Lemma decode_rotation_not_first (row : list pyval) (k : Z) (key_changes : dict)
  (d : Keyboard.decoder) :
  k <> 0 -> Keyboard.has_rotation key_changes = true ->
  Keyboard.decode_item row (k, PDict key_changes) d
  = Raise (DeserializeException Keyboard.rotation_message (PList row)).
Proof.
  intros Hk Hr. cbn [Keyboard.decode_item]. unfold Keyboard.decode_key_changes.
  apply Z.eqb_neq in Hk. now rewrite Hk, Hr.
Qed.

(** At index 0 a mapping of rotation fields that hold numbers is played
    back to the end. *)
Lemma rotation_mapping_accepted (row : list pyval) (key_changes : dict)
  (d : Keyboard.decoder) :
  only_rotation_numbers key_changes ->
  is_ok (Keyboard.decode_item row (0, PDict key_changes) d) = true.
Proof.
  intros H. cbn [Keyboard.decode_item]. unfold Keyboard.decode_key_changes.
  cbn [Z.eqb negb andb]. unfold Keyboard.apply_key_changes.
  unfold playback_key_changes, play_steps.
  match goal with
  | |- context [for_each ?l ?body ?s] =>
      destruct (for_each_invariant (fun _ => True) l body s) as [s' [E _]]
  end.
  - intros [name body] s Hin _. unfold on_field.
    destruct (dict_get name key_changes) as [v|] eqn:G; [|eauto].
    destruct (H name v G) as [Hn Hv].
    unfold key_change_steps in Hin. cbn [In] in Hin.
    repeat (destruct Hin as [Hin|Hin];
            [injection Hin as <- <-;
             first [ destruct Hn as [Hn|[Hn|Hn]]; discriminate Hn
                   | destruct v; try discriminate Hv;
                     unfold key_mpf, play_rx, play_ry;
                     cbn [mpf_of_str bind]; eauto ]|]).
    destruct Hin.
  - exact I.
  - rewrite E. reflexivity.
Qed.

(** C4: a mapping with any of ["r"], ["rx"], ["ry"] at an index other than
    0 of a row makes the decoding fail, and the failure raised at the mapping
    is the DeserializeException about rotation changes, with the row as
    payload (the elements before the mapping are decoded first).  At index 0
    the mapping is played back without that check, and a mapping that holds
    only rotation fields with numbers is accepted.
    [[{"x":1},"A"],[{"r":15},"B"]] decodes and [[{"x":1},{"r":15},"B"]]
    raises the DeserializeException. *)
Theorem rotation_placement :
  (forall (pre post rpre rpost : list pyval) (key_changes : dict),
      rpre <> [] -> Keyboard.has_rotation key_changes = true ->
      let row := (rpre ++ PDict key_changes :: rpost)%list in
      let doc := PList (pre ++ PList row :: post) in
      is_ok (Keyboard.from_json doc) = false
      /\ forall d0 d1 : Keyboard.decoder,
           for_each (enumerate pre) Keyboard.decode_element
             Keyboard.decoder_init = Ok d0 ->
           for_each (enumerate rpre) (Keyboard.decode_item row) d0 = Ok d1 ->
           Keyboard.from_json doc
           = Raise (DeserializeException Keyboard.rotation_message (PList row)))
  /\ (forall (row : list pyval) (key_changes : dict) (d : Keyboard.decoder),
         Keyboard.decode_item row (0, PDict key_changes) d
         = Keyboard.apply_key_changes key_changes d)
  /\ (forall (row : list pyval) (key_changes : dict) (d : Keyboard.decoder),
         only_rotation_numbers key_changes ->
         is_ok (Keyboard.decode_item row (0, PDict key_changes) d) = true)
  /\ is_ok (Keyboard.from_json doc_rotation_first) = true
  /\ Keyboard.from_json doc_rotation_not_first
     = Raise (DeserializeException Keyboard.rotation_message
                (PList row_rotation_not_first)).
Proof.
  split; [|split; [|split; [|split]]].
  - intros pre post rpre rpost kc Hne Hr row doc.
    assert (Hk : Z.of_nat (List.length rpre) <> 0)
      by (destruct rpre; [contradiction | simpl; lia]).
    split.
    + apply from_json_row_fails. intros d.
      now rewrite (decode_rotation_not_first _ _ _ _ Hk Hr).
    + intros d0 d1 H0 H1.
      apply (from_json_row_prefix pre post rpre rpost (PDict kc) d0 d1);
        [exact H0 | exact H1|].
      now apply decode_rotation_not_first.
  - reflexivity.
  - intros row kc d H. now apply rotation_mapping_accepted.
  - vm_compute. reflexivity.
  - vm_compute. reflexivity.
Qed.

Lemma rotation_placement_witness :
  [PStr "A"] <> []
  /\ Keyboard.has_rotation [("r", PInt 15)] = true
  /\ is_ok (Keyboard.from_json
              (PList ([] ++ PList ([PStr "A"] ++ PDict [("r", PInt 15)] :: [])
                      :: []))) = false.
Proof.
  split; [discriminate|]. split; [reflexivity|].
  exact (proj1 (proj1 rotation_placement [] [] [PStr "A"] [] [("r", PInt 15)]
                  ltac:(discriminate) eq_refl)).
Defined.

Lemma decode_item_other (row : list pyval) (k : Z) (item : pyval)
  (d : Keyboard.decoder) :
  is_str_or_dict item = false ->
  Keyboard.decode_item row (k, item) d
  = Raise (DeserializeException Keyboard.item_message item).
Proof.
  destruct item; simpl; intros H; try discriminate H; reflexivity.
Qed.

(** C8, as the code has it: a row element that is neither a string nor an
    object makes the decoding fail; when the elements before it decode
    without error, the failure is a DeserializeException that carries the
    element as its payload; its message is one fixed text, which does not
    contain the name of the element's type. *)
Theorem row_element_of_unexpected_type :
  forall (pre post rpre rpost : list pyval) (item : pyval),
    is_str_or_dict item = false ->
    let row := (rpre ++ item :: rpost)%list in
    let doc := PList (pre ++ PList row :: post) in
    is_ok (Keyboard.from_json doc) = false
    /\ (forall d0 d1 : Keyboard.decoder,
           for_each (enumerate pre) Keyboard.decode_element
             Keyboard.decoder_init = Ok d0 ->
           for_each (enumerate rpre) (Keyboard.decode_item row) d0 = Ok d1 ->
           Keyboard.from_json doc
           = Raise (DeserializeException Keyboard.item_message item))
    /\ Keyboard.item_message
       = "expected an object specifying key changes ortext labels for a key"
    /\ str_contains (type_name item) Keyboard.item_message = false.
Proof.
  intros pre post rpre rpost item Hi row doc. split; [|split; [|split]].
  - apply from_json_row_fails. intros d.
    now rewrite (decode_item_other _ _ _ _ Hi).
  - intros d0 d1 H0 H1.
    apply (from_json_row_prefix pre post rpre rpost item d0 d1);
      [exact H0 | exact H1|].
    now apply decode_item_other.
  - reflexivity.
  - destruct item; try discriminate Hi; vm_compute; reflexivity.
Qed.

Lemma row_element_of_unexpected_type_witness :
  is_str_or_dict (PInt 5) = false
  /\ Keyboard.from_json doc_bare_number
     = Raise (DeserializeException Keyboard.item_message (PInt 5)).
Proof.
  split; [reflexivity|].
  exact (proj1 (proj2 (row_element_of_unexpected_type [] [] [] [] (PInt 5)
                         eq_refl))
           Keyboard.decoder_init Keyboard.decoder_init eq_refl eq_refl).
Defined.

(** C8, as the claim has it, fails: decoding [[5]] raises a
    DeserializeException with the payload 5 whose message does not contain
    "int", the name of the type of 5. *)
Lemma row_element_type_name_counterexample :
  exists message,
    Keyboard.from_json doc_bare_number
    = Raise (DeserializeException message (PInt 5))
    /\ type_name (PInt 5) = "int"
    /\ str_contains (type_name (PInt 5)) message = false.
Proof.
  eexists. split; [vm_compute; reflexivity|]. split; reflexivity.
Qed.

(** ** The rotation angles read from a document *)

Lemma mpf_of_str_precision (v : pyval) (x : mpf) :
  mpf_of_str v = Ok x -> has_working_precision x.
Proof.
  destruct v; intros H; inversion H; apply mpf_round_idempotent.
Qed.

Lemma key_change_steps_angle :
  Forall (fun step => forall v s s',
              snd step v s = Ok s' ->
              has_working_precision (Key.rotation_angle (pb_key s)) ->
              has_working_precision (Key.rotation_angle (pb_key s')))
    key_change_steps.
Proof.
  unfold key_change_steps.
  repeat (apply Forall_cons;
          [cbn [snd]; intros v s s' H P;
           unfold key_mpf, key_str, key_bool, play_rx, play_ry, play_a,
             play_f, play_f2, play_fa, play_t, play_x, play_y, play_w, play_h,
             play_switch_mount in H;
           step_inv H; try destruct (negb _);
           first [exact P | eapply mpf_of_str_precision; eassumption]|]).
  apply Forall_nil.
Qed.

Lemma playback_key_changes_angle (key : Key.t) (key_changes : dict)
  (colors : list string) (sizes : list num) (a : Z) (crx cry : mpf)
  (s' : playback_state) :
  playback_key_changes key key_changes colors sizes a crx cry = Ok s' ->
  has_working_precision (Key.rotation_angle key) ->
  has_working_precision (Key.rotation_angle (pb_key s')).
Proof.
  unfold playback_key_changes. intros H.
  exact (play_steps_rel
           (fun s s' =>
              has_working_precision (Key.rotation_angle (pb_key s)) ->
              has_working_precision (Key.rotation_angle (pb_key s')))
           key_change_steps key_changes (fun s P => P)
           (fun a b c H1 H2 P => H2 (H1 P)) key_change_steps_angle _ _ H).
Qed.

Lemma decode_item_angles (row : list pyval) (ki : Z * pyval)
  (d d' : Keyboard.decoder) :
  Keyboard.decode_item row ki d = Ok d' -> decoder_angles d -> decoder_angles d'.
Proof.
  destruct ki as [k item]. intros H [C K].
  destruct item; try discriminate H; cbn [Keyboard.decode_item] in H.
  - unfold Keyboard.decode_labels in H.
    apply bind_ok_inv in H. destruct H as [x1 [_ H]].
    apply bind_ok_inv in H. destruct H as [x2 [_ H]].
    apply bind_ok_inv in H. destruct H as [x3 [_ H]].
    apply bind_ok_inv in H. destruct H as [x4 [_ H]].
    apply bind_ok_inv in H. destruct H as [x5 [_ H]].
    inversion H; subst d'; clear H. split; [exact C|].
    cbn [Keyboard.keyboard Keyboard.set_current Keyboard.set_keyboard
         Keyboard.keys].
    apply Forall_app. split; [exact K|]. constructor; [|constructor].
    destruct (negb (mpf_eqb (Key.height2 _) _));
      destruct (negb (mpf_eqb (Key.width2 _) _)); exact C.
  - unfold Keyboard.decode_key_changes in H.
    destruct (negb (k =? 0) && Keyboard.has_rotation d0); [discriminate H|].
    unfold Keyboard.apply_key_changes in H.
    apply bind_ok_inv in H. destruct H as [s [E H]].
    inversion H; subst d'; clear H. split; [|exact K].
    exact (playback_key_changes_angle _ _ _ _ _ _ _ _ E C).
Qed.

Lemma decode_element_angles (ri : Z * pyval) (d d' : Keyboard.decoder) :
  Keyboard.decode_element ri d = Ok d' -> decoder_angles d -> decoder_angles d'.
Proof.
  destruct ri as [r element]. unfold Keyboard.decode_element. intros H I.
  apply bind_ok_inv in H. destruct H as [d1 [E H]].
  inversion H; subst d'; clear H.
  assert (I1 : decoder_angles d1).
  { destruct element; try discriminate E.
    - apply bind_ok_inv in E. destruct E as [d2 [E2 E]].
      inversion E; subst d1; clear E.
      apply (for_each_preserves decoder_angles _ _
               (fun a s s' Hs => decode_item_angles l a s s' Hs)) in E2;
        [|exact I].
      exact E2.
    - destruct (negb (r =? 0)); [discriminate E|].
      apply bind_ok_inv in E. destruct E as [m [_ E]].
      inversion E; subst d1; clear E. exact I. }
  exact I1.
Qed.

(** The rotation angle of a key read from a document has at most [prec]
    bits. *)
Lemma from_json_angles (doc : pyval) (kb : Keyboard.t) :
  Keyboard.from_json doc = Ok kb ->
  Forall (fun key => has_working_precision (Key.rotation_angle key))
    (Keyboard.keys kb).
Proof.
  intros H. unfold Keyboard.from_json in H.
  destruct doc; try discriminate H.
  apply bind_ok_inv in H. destruct H as [d [E H]].
  inversion H; subst kb; clear H.
  apply (for_each_preserves decoder_angles _ _ decode_element_angles) in E.
  - exact (proj2 E).
  - split; [reflexivity | constructor].
Qed.

(** ** The label strings written by the encoder *)

Lemma aligned_labels_string (key : Key.t) (sizes : list num) (a : Z)
  (l c : list string) (z : list num) :
  _aligned_key_properties key sizes = Ok (a, l, c, z) ->
  key_label_string key = Ok (rstrip (join_lines l)).
Proof.
  unfold _aligned_key_properties, key_label_string. intros E.
  destruct (aligned_arrays key) as [[[[a0 l0] c0] z0]|]; cbn [bind] in *;
    [|discriminate E].
  apply bind_ok_inv in E. destruct E as [z1 [_ E]]. now inversion E.
Qed.

Lemma doc_strings_app (a b : list pyval) :
  doc_strings (a ++ b) = (doc_strings a ++ doc_strings b)%list.
Proof.
  apply flat_map_app.
Qed.

Lemma row_strings_app (a b : list pyval) :
  row_strings (a ++ b) = (row_strings a ++ row_strings b)%list.
Proof.
  apply flat_map_app.
Qed.

(** One turn of the loop of [to_json] adds the label string of the key, and
    no other string, to what has been written. *)
Lemma encode_key_strings (key : Key.t) (e e' : Keyboard.encoder) :
  Keyboard.encode_key key e = Ok e' ->
  exists s,
    key_label_string key = Ok s
    /\ (doc_strings (Keyboard.e_keyboard_json e')
        ++ row_strings (Keyboard.e_row e'))%list
       = (doc_strings (Keyboard.e_keyboard_json e)
          ++ row_strings (Keyboard.e_row e) ++ [s])%list.
Proof.
  intros H. unfold Keyboard.encode_key in H.
  apply bind_ok_inv in H. destruct H as [[[[a l] c] s] [E H]].
  exists (rstrip (join_lines l)).
  split; [exact (aligned_labels_string _ _ _ _ _ _ E)|]. clear E.
  cbv zeta in H.
  repeat first
    [ progress cbv beta iota in H
    | match type of H with
      | bind _ _ = Ok _ =>
          let x := fresh "x" in
          let Ex := fresh "Ex" in
          apply bind_ok_inv in H; destruct H as [x [Ex H]]
      | context [if ?c then _ else _] => destruct c
      | context [match ?t with pair _ _ => _ end] => destruct t
      end ];
    inversion H; subst e'; clear H;
    cbn [Keyboard.e_keyboard_json Keyboard.e_row];
    rewrite ?doc_strings_app, ?row_strings_app; simpl;
    rewrite ?app_nil_r, <- ?app_assoc; reflexivity.
Qed.

Lemma encode_keys_strings (ks : list Key.t) :
  forall e e' : Keyboard.encoder,
    for_each ks Keyboard.encode_key e = Ok e' ->
    exists labels,
      Forall2 (fun key s => key_label_string key = Ok s) ks labels
      /\ (doc_strings (Keyboard.e_keyboard_json e')
          ++ row_strings (Keyboard.e_row e'))%list
         = ((doc_strings (Keyboard.e_keyboard_json e)
             ++ row_strings (Keyboard.e_row e)) ++ labels)%list.
Proof.
  induction ks as [|key ks IH]; intros e e' H; simpl in H.
  - inversion H; subst. exists []. split; [constructor|].
    now rewrite app_nil_r.
  - apply bind_ok_inv in H. destruct H as [e1 [E1 E2]].
    destruct (encode_key_strings _ _ _ E1) as [s [Ks Hs]].
    destruct (IH _ _ E2) as [labels [F Hl]].
    exists (s :: labels). split; [now constructor|].
    rewrite Hl, Hs, <- !app_assoc. reflexivity.
Qed.

Lemma to_json_strings (kb : Keyboard.t) (elements : list pyval) :
  Keyboard.to_json kb = Ok (PList elements) ->
  Forall2 (fun key s => key_label_string key = Ok s) (Keyboard.sorted_keys kb)
    (doc_strings elements).
Proof.
  unfold Keyboard.to_json. intros H.
  apply bind_ok_inv in H. destruct H as [e [E H]].
  destruct (encode_keys_strings _ _ _ E) as [labels [F Hl]].
  assert (I : doc_strings (Keyboard.e_keyboard_json (Keyboard.encoder_init kb))
              = []).
  { unfold Keyboard.encoder_init. cbn [Keyboard.e_keyboard_json].
    destruct (0 <? List.length (Keyboard.metadata_changes kb))%nat;
      reflexivity. }
  rewrite I in Hl. cbn [Keyboard.encoder_init Keyboard.e_row] in Hl.
  simpl in Hl.
  assert (D : doc_strings elements = labels).
  { rewrite <- Hl. inversion H as [H']. clear H H'.
    destruct (0 <? List.length (Keyboard.e_row e))%nat eqn:R.
    - rewrite doc_strings_app. simpl. now rewrite app_nil_r.
    - apply Nat.ltb_ge in R. destruct (Keyboard.e_row e); [|simpl in R; lia].
      simpl. now rewrite app_nil_r. }
  now rewrite D.
Qed.

(** C7: [to_json] runs its loop over [sorted_keys]; that list is a
    rearrangement of the keys of the keyboard in which no key comes after a
    later one by the tuple (normalised rotation angle, rotation_x,
    rotation_y, y, x), compared component by component; and the label
    strings of the document written are, in reading order, those of the keys
    in that order.  The normalised angle is [(angle + 360) % 360] as mpmath
    computes it, with the sum and the remainder rounded to the working
    precision: it lies in [0, 360) for every angle of at most 53 bits, as
    the angles read from a document are (and is never above 360 for any
    angle), and for an integer angle it is the angle modulo 360. *)
Theorem to_json_key_order :
  forall kb : Keyboard.t,
    Permutation (Keyboard.keys kb) (Keyboard.sorted_keys kb)
    /\ StronglySorted criteria_le (Keyboard.sorted_keys kb)
    /\ (forall key : Key.t,
           key_sort_criteria key
           = [mpf_mod (mpf_add (Key.rotation_angle key) (mpf_of_Z 360))
                (mpf_of_Z 360);
              Key.rotation_x key; Key.rotation_y key; Key.y key; Key.x key]
           /\ (0 <= mpf_q (mpf_mod (mpf_add (Key.rotation_angle key)
                                      (mpf_of_Z 360)) (mpf_of_Z 360))
               /\ mpf_q (mpf_mod (mpf_add (Key.rotation_angle key)
                                    (mpf_of_Z 360)) (mpf_of_Z 360)) <= 360)%Q
           /\ (has_working_precision (Key.rotation_angle key) ->
               (mpf_q (mpf_mod (mpf_add (Key.rotation_angle key)
                                  (mpf_of_Z 360)) (mpf_of_Z 360)) < 360)%Q))
    /\ (forall z : Z,
           Z.abs (z + 360) < 2 ^ prec ->
           mpf_mod (mpf_add (mpf_of_Z z) (mpf_of_Z 360)) (mpf_of_Z 360)
           = mpf_of_Z (z mod 360)
           /\ 0 <= z mod 360 < 360)
    /\ Keyboard.to_json kb
       = (e <- for_each (Keyboard.sorted_keys kb) Keyboard.encode_key
                 (Keyboard.encoder_init kb) ;;
          Ok (PList (if (0 <? List.length (Keyboard.e_row e))%nat
                     then (Keyboard.e_keyboard_json e
                           ++ [PList (Keyboard.e_row e)])%list
                     else Keyboard.e_keyboard_json e)))
    /\ (forall elements : list pyval,
           Keyboard.to_json kb = Ok (PList elements) ->
           Forall2 (fun key s => key_label_string key = Ok s)
             (Keyboard.sorted_keys kb) (doc_strings elements))
    /\ (forall doc : pyval,
           Keyboard.from_json doc = Ok kb ->
           Forall (fun key => has_working_precision (Key.rotation_angle key))
             (Keyboard.keys kb)).
Proof.
  intros kb. unfold Keyboard.sorted_keys. split; [apply sorted_perm|].
  split; [|split; [|split; [|split; [reflexivity|split]]]];
    [| | |apply to_json_strings|intros doc; apply from_json_angles].
  - apply StronglySorted_impl
      with (R := fun a b =>
                   tuple_ltb (key_sort_criteria b) (key_sort_criteria a) = false).
    + intros a b H. now apply tuple_ltb_lex_le.
    + apply sorted_sorted.
      * intros a b c H1 H2. apply tuple_ltb_lex_le.
        apply tuple_ltb_lex_le in H1, H2. eapply lex_le_trans; eauto.
      * intros a b H.
        destruct (lex_le_total (key_sort_criteria a) (key_sort_criteria b))
          as [L|L]; [reflexivity| |].
        -- now apply tuple_ltb_lex_le.
        -- apply tuple_ltb_lex_le in L. congruence.
  - intros key. split; [reflexivity|].
    split; [apply normalised_angle_range | apply normalised_angle_below_360].
  - intros z Hz. split; [now apply normalised_integer_angle|].
    apply Z.mod_pos_bound. lia.
Qed.

Lemma to_json_key_order_witness :
  Keyboard.sorted_keys keyboard_CBA = Keyboard.keys keyboard_ABC
  /\ Keyboard.to_json keyboard_CBA = Ok doc_ABC
  /\ Forall2 (fun key s => key_label_string key = Ok s)
       (Keyboard.keys keyboard_ABC) ["A"; "B"; "C"].
Proof.
  split; [reflexivity|]. split; [reflexivity|].
  exact (proj1 (proj2 (proj2 (proj2 (proj2 (proj2
                  (to_json_key_order keyboard_CBA))))))
           [ PList [PStr "A"; PStr "B"];
             PList [PDict [("r", PInt 15)]; PStr "C"] ] eq_refl).
Defined.

(** ** Decoding what was encoded *)

(** C1 does not hold of the code.  The keyboard decoded from
    [[{"f":5,"f2":7},"A\nB",{"f":5},"C\nD",{"f2":7},"E\nF"]] has three keys;
    the label in slot 6 of the third has the text "F" and the size 7.
    [to_json] writes ["f": 5] before the second key to reset the sizes, keeps
    its own running sizes as they were, and so writes no ["f2"] before the
    third key; decoding the result gives the label "F" of the third key the
    size 5. *)
Theorem round_trip_loses_text_size :
  exists (kb kb' : Keyboard.t) (key key' : Key.t) (label label' : Label.t),
    Keyboard.from_json doc_three_keys = Ok kb
    /\ Keyboard.to_json kb = Ok doc_three_keys_encoded
    /\ Keyboard.from_json doc_three_keys_encoded = Ok kb'
    /\ List.length (Keyboard.keys kb) = 3%nat
    /\ List.length (Keyboard.keys kb') = 3%nat
    /\ nth_error (Keyboard.sorted_keys kb) 2 = Some key
    /\ nth_error (Keyboard.sorted_keys kb') 2 = Some key'
    /\ nth_error (Key.labels key) 6 = Some label
    /\ nth_error (Key.labels key') 6 = Some label'
    /\ Label.text label = "F"
    /\ Label.text label' = "F"
    /\ Label.size label = NInt 7
    /\ Label.size label' = NInt 5.
Proof.
  do 6 eexists.
  split; [vm_compute; reflexivity|].
  split; [vm_compute; reflexivity|].
  split; [vm_compute; reflexivity|].
  split; [reflexivity|]. split; [reflexivity|].
  split; [vm_compute; reflexivity|].
  split; [vm_compute; reflexivity|].
  split; [reflexivity|]. split; [reflexivity|].
  repeat split.
Qed.

(** * Further properties *)

(** ** Structural errors at the top level *)

Lemma from_json_element_prefix (pre post : list pyval) (element : pyval)
  (d0 : Keyboard.decoder) (e : exn) :
  for_each (enumerate pre) Keyboard.decode_element Keyboard.decoder_init = Ok d0 ->
  Keyboard.decode_element (Z.of_nat (List.length pre), element) d0 = Raise e ->
  Keyboard.from_json (PList (pre ++ element :: post)) = Raise e.
Proof.
  intros H0 He. unfold Keyboard.from_json, enumerate.
  rewrite enumerate_from_app, for_each_app.
  unfold enumerate in H0. rewrite H0. cbn [bind enumerate_from for_each].
  rewrite Z.add_0_l, He. reflexivity.
Qed.

Lemma from_json_element_fails (pre post : list pyval) (element : pyval) :
  (forall d, is_ok (Keyboard.decode_element
                      (Z.of_nat (List.length pre), element) d) = false) ->
  is_ok (Keyboard.from_json (PList (pre ++ element :: post))) = false.
Proof.
  intros He.
  destruct (for_each (enumerate pre) Keyboard.decode_element
              Keyboard.decoder_init) as [d0|e0] eqn:H0.
  - specialize (He d0).
    destruct (Keyboard.decode_element (Z.of_nat (List.length pre), element) d0)
      as [d1|e1] eqn:H1; [discriminate He|].
    now rewrite (from_json_element_prefix pre post element d0 e1).
  - unfold Keyboard.from_json, enumerate.
    rewrite enumerate_from_app, for_each_app.
    unfold enumerate in H0. rewrite H0. reflexivity.
Qed.

Lemma prefix_refl (s : string) : String.prefix s s = true.
Proof.
  induction s as [|a s IH]; simpl; [reflexivity|].
  destruct (Ascii.ascii_dec a a) as [_|N]; [exact IH | now destruct N].
Qed.

Lemma str_contains_self (needle : string) : str_contains needle needle = true.
Proof.
  destruct needle as [|c needle].
  - reflexivity.
  - cbn [str_contains]. now rewrite prefix_refl.
Qed.

Lemma str_contains_suffix (needle before : string) :
  str_contains needle (before ++ needle) = true.
Proof.
  induction before as [|c before IH].
  - apply str_contains_self.
  - change (String c before ++ needle) with (String c (before ++ needle)).
    cbn [str_contains]. rewrite IH. apply orb_true_r.
Qed.

Lemma decode_element_other (r : Z) (element : pyval) (d : Keyboard.decoder) :
  is_list_or_dict element = false ->
  Keyboard.decode_element (r, element) d
  = Raise (DeserializeException
             ("encountered unexpected type of " ++ type_name element) element).
Proof.
  destruct element; simpl; intros H; try discriminate H; reflexivity.
Qed.

(** X1: a document that is not a list is refused with the message "Expected
    an array of objects:" and the document as payload.  A top-level element
    that is neither a list nor a mapping makes the decoding fail; when the
    elements before it decode, the failure is a DeserializeException that
    carries the element and whose message ends with the name of the
    element's type. *)
Theorem top_level_shape_errors :
  (forall doc : pyval,
      is_list doc = false ->
      Keyboard.from_json doc
      = Raise (DeserializeException "Expected an array of objects:" doc))
  /\ (forall (pre post : list pyval) (element : pyval),
         is_list_or_dict element = false ->
         is_ok (Keyboard.from_json (PList (pre ++ element :: post))) = false
         /\ (forall d0 : Keyboard.decoder,
                for_each (enumerate pre) Keyboard.decode_element
                  Keyboard.decoder_init = Ok d0 ->
                Keyboard.from_json (PList (pre ++ element :: post))
                = Raise (DeserializeException
                           ("encountered unexpected type of "
                            ++ type_name element) element))
         /\ str_contains (type_name element)
              ("encountered unexpected type of " ++ type_name element) = true).
Proof.
  split.
  - intros doc H. destruct doc; try discriminate H; reflexivity.
  - intros pre post element H. split; [|split].
    + apply from_json_element_fails. intros d.
      now rewrite (decode_element_other _ _ _ H).
    + intros d0 H0.
      apply (from_json_element_prefix pre post element d0); [exact H0|].
      now apply decode_element_other.
    + apply str_contains_suffix.
Qed.

Lemma top_level_shape_errors_witness :
  is_list_or_dict (PInt 5) = false
  /\ Keyboard.from_json (PList ([PList [PStr "A"]] ++ PInt 5 :: []))
     = Raise (DeserializeException "encountered unexpected type of int" (PInt 5)).
Proof.
  split; [reflexivity|].
  exact (proj1 (proj2 (proj2 top_level_shape_errors [PList [PStr "A"]] []
                         (PInt 5) eq_refl))
           _ ltac:(vm_compute; reflexivity)).
Defined.

Lemma decode_metadata_not_first (r : Z) (changes : dict) (d : Keyboard.decoder) :
  r <> 0 ->
  Keyboard.decode_element (r, PDict changes) d
  = Raise (DeserializeException "metadata can only be specified as first item"
             (PDict changes)).
Proof.
  intros H. apply Z.eqb_neq in H. cbn [Keyboard.decode_element].
  now rewrite H.
Qed.

(** X2: a metadata mapping anywhere but first makes the decoding fail; when
    the elements before it decode, the failure is the DeserializeException
    "metadata can only be specified as first item" with the mapping as
    payload.  A document that consists of one metadata mapping decodes to a
    keyboard without keys whose metadata is the playback of the mapping on
    [Metadata()], and fails as that playback fails. *)
Theorem metadata_placement :
  (forall (pre post : list pyval) (changes : dict),
      pre <> [] ->
      is_ok (Keyboard.from_json (PList (pre ++ PDict changes :: post))) = false
      /\ (forall d0 : Keyboard.decoder,
             for_each (enumerate pre) Keyboard.decode_element
               Keyboard.decoder_init = Ok d0 ->
             Keyboard.from_json (PList (pre ++ PDict changes :: post))
             = Raise (DeserializeException
                        "metadata can only be specified as first item"
                        (PDict changes))))
  /\ (forall changes : dict,
         Keyboard.from_json (PList [PDict changes])
         = (m <- playback_metadata_changes Metadata.init changes ;;
            Ok (Keyboard.mk m []))).
Proof.
  split.
  - intros pre post changes Hne.
    assert (Hk : Z.of_nat (List.length pre) <> 0)
      by (destruct pre; [contradiction | simpl; lia]).
    split.
    + apply from_json_element_fails. intros d.
      now rewrite (decode_metadata_not_first _ _ _ Hk).
    + intros d0 H0.
      apply (from_json_element_prefix pre post (PDict changes) d0);
        [exact H0|].
      now apply decode_metadata_not_first.
  - intros changes. unfold Keyboard.from_json, enumerate.
    cbn [enumerate_from for_each Keyboard.decode_element Z.eqb negb].
    cbn [Keyboard.decoder_init Keyboard.keyboard Keyboard.metadata
         Keyboard.init Keyboard.keys].
    destruct (playback_metadata_changes Metadata.init changes); reflexivity.
Qed.

Lemma metadata_placement_witness :
  [PList [PStr "A"]] <> []
  /\ is_ok (Keyboard.from_json
              (PList ([PList [PStr "A"]] ++ PDict [("name", PStr "Foo")] :: [])))
     = false.
Proof.
  split; [discriminate|].
  exact (proj1 (proj1 metadata_placement [PList [PStr "A"]] []
                  [("name", PStr "Foo")] ltac:(discriminate))).
Defined.

(** ** What the decoder keeps *)

Lemma for_each_length {A B : Type} (l : list A)
  (body : A -> list B -> result (list B)) :
  (forall a s s', body a s = Ok s' -> List.length s' = List.length s) ->
  forall s s', for_each l body s = Ok s' -> List.length s' = List.length s.
Proof.
  intros Hb s s' H.
  apply (for_each_preserves (fun t => List.length t = List.length s) l body)
    with (s := s); auto.
  intros a t t' E Ht. rewrite (Hb a t t' E). exact Ht.
Qed.

Lemma playback_keeps_refl (s : playback_state) : playback_keeps s s.
Proof.
  repeat split.
Qed.

Lemma playback_keeps_trans (a b c : playback_state) :
  playback_keeps a b -> playback_keeps b c -> playback_keeps a c.
Proof.
  intros [A1 [A2 [A3 [A4 A5]]]] [B1 [B2 [B3 [B4 B5]]]].
  repeat split; congruence.
Qed.

Lemma play_f2_keeps (v : pyval) (s s' : playback_state) :
  play_f2 v s = Ok s' -> playback_keeps s s'.
Proof.
  unfold play_f2. intros H. step_inv H. repeat split.
  cbn [pb_set_labels_size pb_labels_size].
  eapply for_each_length; [|exact E0].
  intros i t t' Hs. now apply py_setitem_length in Hs.
Qed.

Lemma play_fa_keeps (v : pyval) (s s' : playback_state) :
  play_fa v s = Ok s' -> playback_keeps s s'.
Proof.
  unfold play_fa. intros H. destruct v; try discriminate H.
  step_inv H. repeat split.
  cbn [pb_set_labels_size pb_labels_size].
  rewrite (for_each_length _ _
             (fun i t t' Hs => py_setitem_length _ _ _ _ Hs) _ _ E0).
  eapply for_each_length; [|exact E].
  intros [i e] t t' Hs. apply bind_ok_inv in Hs. destruct Hs as [n [_ Hs]].
  now apply py_setitem_length in Hs.
Qed.

Lemma play_t_keeps (v : pyval) (s s' : playback_state) :
  play_t v s = Ok s' -> playback_keeps s s'.
Proof.
  unfold play_t. intros H.
  apply bind_ok_inv in H. destruct H as [t [_ H]].
  apply bind_ok_inv in H. destruct H as [first [_ H]].
  apply bind_ok_inv in H. destruct H as [colors [_ H]].
  apply bind_ok_inv in H. destruct H as [current [E H]].
  inversion H; subst s'; clear H.
  assert (L : List.length current = List.length (pb_labels_color s)).
  { rewrite (for_each_length _ _
               (fun (ic : Z * string) t t' =>
                  let '(i, c) as p := ic
                    return ((let '(i, color) := p in
                             fun current => py_setitem current i color) t
                            = Ok t' -> List.length t' = List.length t)
                  in fun Hs => py_setitem_length _ _ _ _ Hs) _ _ E).
    destruct (negb _); reflexivity. }
  destruct (negb (String.eqb first "")); repeat split; exact L.
Qed.

Lemma key_change_steps_keep :
  Forall (fun step => forall v s s', snd step v s = Ok s' -> playback_keeps s s')
    key_change_steps.
Proof.
  unfold key_change_steps.
  repeat (apply Forall_cons;
          [cbn [snd]; intros v s s' H;
           first
             [ exact (play_f2_keeps v s s' H)
             | exact (play_fa_keeps v s s' H)
             | exact (play_t_keeps v s s' H)
             | unfold key_mpf, key_str, key_bool, play_rx, play_ry, play_a,
                 play_f, play_x, play_y, play_w, play_h, play_switch_mount in H;
               step_inv H; repeat split; apply length_map ]|]).
  apply Forall_nil.
Qed.

Lemma playback_key_changes_keeps (key : Key.t) (key_changes : dict)
  (colors : list string) (sizes : list num) (a : Z) (crx cry : mpf)
  (s' : playback_state) :
  playback_key_changes key key_changes colors sizes a crx cry = Ok s' ->
  playback_keeps (mk_playback key colors sizes a crx cry) s'.
Proof.
  unfold playback_key_changes.
  apply (play_steps_rel playback_keeps key_change_steps key_changes
           playback_keeps_refl playback_keeps_trans key_change_steps_keep).
Qed.

Lemma set_label_length (set : Label.t -> Label.t) (i : Z)
  (labels labels' : list Label.t) :
  Keyboard.set_label set i labels = Ok labels' ->
  List.length labels' = List.length labels.
Proof.
  unfold Keyboard.set_label. intros H.
  apply bind_ok_inv in H. destruct H as [l [_ H]].
  now apply py_setitem_length in H.
Qed.

(** What a label string does to the state of the decoder: one key is
    appended, made from [current]; of [current] only the position, the sizes
    of the boxes and three flags change. *)
Lemma decode_labels_inv (labels : string) (d d' : Keyboard.decoder) :
  Keyboard.decode_labels labels d = Ok d' ->
  exists new_key,
    Keyboard.keyboard d'
    = Keyboard.mk (Keyboard.metadata (Keyboard.keyboard d))
        (Keyboard.keys (Keyboard.keyboard d) ++ [new_key])
    /\ List.length (Key.labels new_key)
       = List.length (Key.labels (Keyboard.current d))
    /\ Key.switch new_key = Key.switch (Keyboard.current d)
    /\ Key.x new_key = Key.x (Keyboard.current d)
    /\ Key.y new_key = Key.y (Keyboard.current d)
    /\ Key.width new_key = Key.width (Keyboard.current d)
    /\ Key.height new_key = Key.height (Keyboard.current d)
    /\ Key.labels (Keyboard.current d') = Key.labels (Keyboard.current d)
    /\ Key.switch (Keyboard.current d') = Key.switch (Keyboard.current d)
    /\ Keyboard.current_labels_size d' = Keyboard.current_labels_size d
    /\ Keyboard.current_labels_color d' = Keyboard.current_labels_color d.
Proof.
  unfold Keyboard.decode_labels. intros H.
  apply bind_ok_inv in H. destruct H as [texts [_ H]].
  apply bind_ok_inv in H. destruct H as [l1 [E1 H]].
  apply bind_ok_inv in H. destruct H as [sizes [_ H]].
  apply bind_ok_inv in H. destruct H as [l2 [E2 H]].
  apply bind_ok_inv in H. destruct H as [l3 [E3 H]].
  inversion H; subst d'; clear H.
  eexists. split; [reflexivity|].
  cbn [Key.labels Key.set_labels Keyboard.current Keyboard.set_current
       Keyboard.set_keyboard Keyboard.current_labels_size
       Keyboard.current_labels_color].
  assert (L1 : List.length l1 = List.length (Key.labels (Keyboard.current d))).
  { rewrite (for_each_length _ _
               (fun (it : Z * string) t t' =>
                  let '(i, x) as p := it
                    return ((let '(i, text) := p in
                             Keyboard.set_label (Label.set_text text) i) t
                            = Ok t' -> List.length t' = List.length t)
                  in fun Hs => set_label_length _ _ _ _ Hs) _ _ E1).
    destruct (negb (mpf_eqb (Key.height2 _) _));
      destruct (negb (mpf_eqb (Key.width2 _) _)); reflexivity. }
  assert (L2 : List.length l2 = List.length l1).
  { apply (for_each_length _ _) with (2 := E2).
    intros [i z] t t' Hs. destruct (num_eqb z num0);
      now apply set_label_length in Hs. }
  assert (L3 : List.length l3 = List.length l2).
  { apply (for_each_length _ _) with (2 := E3).
    intros [i c] t t' Hs. destruct (String.eqb c "");
      now apply set_label_length in Hs. }
  split; [congruence|].
  destruct (negb (mpf_eqb (Key.height2 _) _));
    destruct (negb (mpf_eqb (Key.width2 _) _)); repeat split.
Qed.

Lemma apply_key_changes_inv (key_changes : dict) (d d' : Keyboard.decoder) :
  Keyboard.apply_key_changes key_changes d = Ok d' ->
  Keyboard.keyboard d' = Keyboard.keyboard d
  /\ playback_keeps
       (mk_playback (Keyboard.current d) (Keyboard.current_labels_color d)
          (Keyboard.current_labels_size d) (Keyboard.alignment d)
          (Keyboard.cluster_rotation_x d) (Keyboard.cluster_rotation_y d))
       (mk_playback (Keyboard.current d') (Keyboard.current_labels_color d')
          (Keyboard.current_labels_size d') (Keyboard.alignment d')
          (Keyboard.cluster_rotation_x d') (Keyboard.cluster_rotation_y d')).
Proof.
  unfold Keyboard.apply_key_changes. intros H.
  apply bind_ok_inv in H. destruct H as [s [E H]].
  inversion H; subst d'; clear H. split; [reflexivity|].
  apply playback_key_changes_keeps in E. destruct s. exact E.
Qed.

Lemma decode_item_inv (row : list pyval) (ki : Z * pyval)
  (d d' : Keyboard.decoder) :
  Keyboard.decode_item row ki d = Ok d' -> decoder_inv d -> decoder_inv d'.
Proof.
  destruct ki as [k item]. intros H [[C1 [C2 C3]] [S [C K]]].
  destruct item; try discriminate H; cbn [Keyboard.decode_item] in H.
  - apply decode_labels_inv in H.
    destruct H as [nk [Hk [Hl [Hs [_ [_ [_ [_ [Cl [Cs [Sz Co]]]]]]]]]]].
    unfold decoder_inv, decoded_key. rewrite Cl, Cs, Sz, Co, Hk.
    cbn [Keyboard.keys]. repeat split; auto.
    apply Forall_app. split; [exact K|]. constructor; [|constructor].
    unfold decoded_key. rewrite Hl, Hs. auto.
  - unfold Keyboard.decode_key_changes in H.
    destruct (negb (k =? 0) && Keyboard.has_rotation d0); [discriminate H|].
    apply apply_key_changes_inv in H.
    destruct H as [Hk [P1 [P2 [P3 [P4 P5]]]]].
    cbn [pb_key pb_labels_size pb_labels_color] in *.
    unfold decoder_inv, decoded_key. rewrite Hk, P1, P2, P3, P4, P5.
    repeat split; auto.
Qed.

Lemma decode_element_inv (ri : Z * pyval) (d d' : Keyboard.decoder) :
  Keyboard.decode_element ri d = Ok d' -> decoder_inv d -> decoder_inv d'.
Proof.
  destruct ri as [r element]. unfold Keyboard.decode_element. intros H I.
  apply bind_ok_inv in H. destruct H as [d1 [E H]].
  inversion H; subst d'; clear H.
  assert (I1 : decoder_inv d1).
  { destruct element; try discriminate E.
    - apply bind_ok_inv in E. destruct E as [d2 [E2 E]].
      inversion E; subst d1; clear E.
      apply (for_each_preserves decoder_inv _ _
               (fun a s s' Hs => decode_item_inv l a s s' Hs)) in E2;
        [|exact I].
      exact E2.
    - destruct (negb (r =? 0)); [discriminate E|].
      apply bind_ok_inv in E. destruct E as [m [_ E]].
      inversion E; subst d1; clear E. exact I. }
  exact I1.
Qed.

Lemma decoder_init_inv : decoder_inv Keyboard.decoder_init.
Proof.
  repeat split. constructor.
Qed.

(** X3: every key of a decoded keyboard has exactly twelve labels, and the
    brand and the type of its switch are those of [Switch()]: the decoder
    never sets them (the fields ["sb"] and ["st"] go to the mount). *)
Theorem decoded_keys_shape :
  forall (doc : pyval) (kb : Keyboard.t),
    Keyboard.from_json doc = Ok kb ->
    Forall (fun key =>
              List.length (Key.labels key) = 12%nat
              /\ Switch.brand (Key.switch key) = Switch.brand Switch.init
              /\ Switch.type (Key.switch key) = Switch.type Switch.init)
      (Keyboard.keys kb).
Proof.
  intros doc kb H. unfold Keyboard.from_json in H.
  destruct doc; try discriminate H.
  apply bind_ok_inv in H. destruct H as [d [E H]].
  inversion H; subst kb; clear H.
  apply (for_each_preserves decoder_inv _ _ decode_element_inv) in E;
    [|exact decoder_init_inv].
  destruct E as [_ [_ [_ K]]]. exact K.
Qed.

Lemma decoded_keys_shape_witness :
  Keyboard.from_json doc_A = Ok keyboard_A
  /\ Forall (fun key =>
               List.length (Key.labels key) = 12%nat
               /\ Switch.brand (Key.switch key) = Switch.brand Switch.init
               /\ Switch.type (Key.switch key) = Switch.type Switch.init)
       (Keyboard.keys keyboard_A).
Proof.
  split; [reflexivity|].
  exact (decoded_keys_shape doc_A keyboard_A eq_refl).
Defined.

(** ** One key per label string *)

Lemma decode_items_count (row items : list pyval) :
  forall (k : Z) (d d' : Keyboard.decoder),
    for_each (enumerate_from k items) (Keyboard.decode_item row) d = Ok d' ->
    List.length (Keyboard.keys (Keyboard.keyboard d'))
    = (List.length (Keyboard.keys (Keyboard.keyboard d))
       + List.length (row_strings items))%nat.
Proof.
  induction items as [|item items IH]; intros k d d' H; simpl in H.
  - inversion H; subst. simpl. lia.
  - apply bind_ok_inv in H. destruct H as [d1 [E1 E2]].
    rewrite (IH _ _ _ E2). clear IH E2.
    destruct item; try discriminate E1; cbn [Keyboard.decode_item] in E1.
    + apply decode_labels_inv in E1. destruct E1 as [nk [Hk _]].
      rewrite Hk. cbn [Keyboard.keys]. rewrite length_app. simpl. lia.
    + unfold Keyboard.decode_key_changes in E1.
      destruct (negb (k =? 0) && Keyboard.has_rotation d0); [discriminate E1|].
      apply apply_key_changes_inv in E1. destruct E1 as [Hk _].
      rewrite Hk. simpl. lia.
Qed.

Lemma decode_elements_count (elements : list pyval) :
  forall (r : Z) (d d' : Keyboard.decoder),
    for_each (enumerate_from r elements) Keyboard.decode_element d = Ok d' ->
    List.length (Keyboard.keys (Keyboard.keyboard d'))
    = (List.length (Keyboard.keys (Keyboard.keyboard d))
       + List.length (doc_strings elements))%nat.
Proof.
  induction elements as [|element elements IH]; intros r d d' H; simpl in H.
  - inversion H; subst. simpl. lia.
  - apply bind_ok_inv in H. destruct H as [d1 [E1 E2]].
    rewrite (IH _ _ _ E2). clear IH E2.
    unfold Keyboard.decode_element in E1.
    apply bind_ok_inv in E1. destruct E1 as [d2 [E E1]].
    inversion E1; subst d1; clear E1.
    cbn [Keyboard.set_current Keyboard.keyboard].
    change (doc_strings (element :: elements))
      with ((match element with
             | PList row => row_strings row
             | _ => []
             end) ++ doc_strings elements)%list.
    rewrite length_app.
    destruct element; try discriminate E.
    + apply bind_ok_inv in E. destruct E as [d3 [E3 E]].
      inversion E; subst d2; clear E.
      cbn [Keyboard.set_current Keyboard.keyboard].
      rewrite (decode_items_count _ _ _ _ _ E3). lia.
    + destruct (negb (r =? 0)); [discriminate E|].
      apply bind_ok_inv in E. destruct E as [m [_ E]].
      inversion E; subst d2; clear E. simpl. lia.
Qed.

(** X4: a decoded keyboard has exactly one key for every label string of
    the document; key-changes mappings and the metadata mapping add none. *)
Theorem one_key_per_label_string :
  forall (elements : list pyval) (kb : Keyboard.t),
    Keyboard.from_json (PList elements) = Ok kb ->
    List.length (Keyboard.keys kb) = List.length (doc_strings elements).
Proof.
  intros elements kb H. unfold Keyboard.from_json in H.
  apply bind_ok_inv in H. destruct H as [d [E H]].
  inversion H; subst kb; clear H.
  now rewrite (decode_elements_count _ _ _ _ E).
Qed.

Lemma one_key_per_label_string_witness :
  Keyboard.from_json (PList [PList [PStr "A"]]) = Ok keyboard_A
  /\ List.length (Keyboard.keys keyboard_A)
     = List.length (doc_strings [PList [PStr "A"]]).
Proof.
  split; [reflexivity|].
  exact (one_key_per_label_string [PList [PStr "A"]] keyboard_A eq_refl).
Defined.

(** ** Text sizes *)

Lemma _reduced_text_sizes_split (l : list num) :
  exists zeros,
    l = (_reduced_text_sizes l ++ zeros)%list
    /\ Forall (fun z => num_eqb z num0 = true) zeros.
Proof.
  induction l as [|a l [zeros [E F]]]; [exists []; split; [reflexivity|constructor]|].
  simpl. destruct (_reduced_text_sizes l) as [|b r] eqn:R.
  - destruct (num_eqb a num0) eqn:Z.
    + exists (a :: zeros). split; [simpl in *; congruence|now constructor].
    + exists zeros. split; [simpl in *; congruence|exact F].
  - exists zeros. split; [|exact F].
    change (a :: l = a :: ((b :: r) ++ zeros)%list). now rewrite <- E.
Qed.

Lemma _reduced_text_sizes_last (l : list num) :
  num_eqb (last (_reduced_text_sizes l) (NInt 1)) num0 = false.
Proof.
  induction l as [|a l IH]; [reflexivity|].
  simpl. destruct (_reduced_text_sizes l) as [|b r] eqn:R.
  - destruct (num_eqb a num0) eqn:Z; [reflexivity | exact Z].
  - exact IH.
Qed.

Lemma _reduced_text_sizes_fixed (l : list num) :
  num_eqb (last l (NInt 1)) num0 = false -> _reduced_text_sizes l = l.
Proof.
  induction l as [|a l IH]; intros H; [reflexivity|].
  simpl. destruct l as [|b l].
  - simpl in *. now rewrite H.
  - rewrite IH by exact H. reflexivity.
Qed.

(** X5: [_reduced_text_sizes] strips exactly the zeroes on the right: its
    result is the input without a tail of zeroes, it does not end in a zero,
    and reducing it again changes nothing. *)
Theorem _reduced_text_sizes_spec :
  forall text_sizes : list num,
    (exists zeros,
        text_sizes = (_reduced_text_sizes text_sizes ++ zeros)%list
        /\ Forall (fun z => num_eqb z num0 = true) zeros)
    /\ num_eqb (last (_reduced_text_sizes text_sizes) (NInt 1)) num0 = false
    /\ _reduced_text_sizes (_reduced_text_sizes text_sizes)
       = _reduced_text_sizes text_sizes.
Proof.
  intros l. split; [apply _reduced_text_sizes_split|]. split.
  - apply _reduced_text_sizes_last.
  - apply _reduced_text_sizes_fixed, _reduced_text_sizes_last.
Qed.

Lemma size_test (t a : num) :
  negb (Bool.eqb (num_truth t) (num_truth a))
  || (negb (num_eqb t num0) && negb (num_eqb t a))
  = negb (num_eqb t a).
Proof.
  unfold num_truth, num_eqb. change (num_q num0) with 0%Q.
  destruct (Qeq_bool (num_q t) (num_q a)) eqn:E.
  - apply Qeq_bool_iff in E.
    assert (Z : Qeq_bool (num_q t) 0 = Qeq_bool (num_q a) 0).
    { destruct (Qeq_bool (num_q a) 0) eqn:A.
      - apply Qeq_bool_iff in A. apply Qeq_bool_iff. now rewrite E.
      - apply not_true_iff_false. intros T. apply Qeq_bool_iff in T.
        apply Qeq_bool_neq in A. apply A. now rewrite <- E. }
    rewrite Z. destruct (Qeq_bool (num_q a) 0); reflexivity.
  - destruct (Qeq_bool (num_q t) 0) eqn:T; simpl.
    + destruct (Qeq_bool (num_q a) 0) eqn:A; simpl; [|reflexivity].
      apply Qeq_bool_iff in T, A. apply Qeq_bool_neq in E.
      exfalso. apply E. now rewrite T, A.
    + apply orb_true_r.
Qed.

Lemma compare_text_sizes_loop_agree (text_sizes aligned_text_sizes : list num)
  (aligned_text_labels : list string) (idxs : list nat) :
  List.length text_sizes = 12%nat ->
  List.length aligned_text_sizes = 12%nat ->
  List.length aligned_text_labels = 12%nat ->
  Forall (fun i => (i < 12)%nat) idxs ->
  compare_text_sizes_loop (map Z.of_nat idxs) text_sizes aligned_text_sizes
    aligned_text_labels
  = Ok (forallb
          (fun i =>
             String.eqb (nth i aligned_text_labels "") ""
             || num_eqb (nth i text_sizes num0) (nth i aligned_text_sizes num0))
          idxs).
Proof.
  intros Ht Ha Hl F. induction F as [|i idxs Hi F IH]; [reflexivity|].
  cbn [map compare_text_sizes_loop forallb].
  rewrite (py_index_nth aligned_text_labels i "") by lia. cbn [bind].
  destruct (String.eqb (nth i aligned_text_labels "") ""); [exact IH|].
  rewrite (py_index_nth text_sizes i num0) by lia. cbn [bind].
  rewrite (py_index_nth aligned_text_sizes i num0) by lia. cbn [bind].
  rewrite size_test.
  destruct (num_eqb (nth i text_sizes num0) (nth i aligned_text_sizes num0));
    [exact IH | reflexivity].
Qed.



(** ** Where [unaligned] puts the items *)

Lemma py_index_ok_inv {A : Type} (l : list A) (n : nat) (x d : A) :
  py_index l (Z.of_nat n) = Ok x -> (n < List.length l)%nat /\ x = nth n l d.
Proof.
  intros H. destruct (Nat.lt_ge_cases n (List.length l)) as [L|G].
  - split; [exact L|]. rewrite (py_index_nth l n d L) in H. now inversion H.
  - rewrite (py_index_out l n G) in H. discriminate H.
Qed.

Lemma nth_set_nth_same {A : Type} (l : list A) :
  forall (n : nat) (x d : A),
    (n < List.length l)%nat -> nth n (set_nth l n x) d = x.
Proof.
  induction l as [|a l IH]; intros [|n] x d H; simpl in *; try lia; auto.
  apply IH. lia.
Qed.

Lemma nth_set_nth_other {A : Type} (l : list A) :
  forall (n m : nat) (x d : A),
    n <> m -> nth n (set_nth l m x) d = nth n l d.
Proof.
  induction l as [|a l IH]; intros [|n] [|m] x d H; simpl;
    first [reflexivity | lia | apply IH; lia].
Qed.

Lemma py_setitem_written {A : Type} (u : list A) (t : Z) (x : A) :
  List.length u = 12%nat -> -1 <= t < 12 ->
  py_setitem u t x = Ok (set_nth u (written_slot t) x).
Proof.
  intros Hu Ht. unfold py_setitem, written_slot. rewrite Hu.
  destruct (t <? 0) eqn:E.
  - apply Z.ltb_lt in E. assert (t = -1) by lia. subst t. reflexivity.
  - apply Z.ltb_ge in E.
    assert (E1 : (0 <=? t) = true) by (apply Z.leb_le; lia).
    assert (E2 : (t <? Z.of_nat 12) = true) by (apply Z.ltb_lt; lia).
    now rewrite E1, E2.
Qed.

Lemma label_map_entry (a : Z) (row : list Z) (n : nat) (slot : Z) :
  0 <= a < 8 -> py_index label_map a = Ok row ->
  py_index row (Z.of_nat n) = Ok slot ->
  (n < 12)%nat /\ slot = nth n row (-1) /\ -1 <= slot < 12
  /\ List.length row = 12%nat.
Proof.
  intros Ha Hrow Hs.
  assert (L : List.length row = 12%nat).
  { destruct (label_map_slot a 0 Ha ltac:(lia)) as [row' [s' [E1 _]]].
    assert (In a alignment_candidates) by (simpl; lia).
    destruct (label_map_row a H) as [row'' [E2 L]]. congruence. }
  destruct (py_index_ok_inv row n slot (-1) Hs) as [Hn Hv].
  rewrite L in Hn. split; [exact Hn|]. split; [exact Hv|]. split; [|exact L].
  destruct (label_map_slot a n Ha Hn) as [row' [s' [E1 [E2 B]]]].
  assert (row' = row) by congruence. subst row'.
  assert (s' = slot) by congruence. subst s'. exact B.
Qed.

Lemma rows_distinct_true : rows_distinct = true.
Proof.
  vm_compute. reflexivity.
Qed.

Lemma written_slot_distinct (a : Z) (row : list Z) (i j : nat) :
  0 <= a < 8 -> py_index label_map a = Ok row ->
  (i < 12)%nat -> (j < 12)%nat -> i <> j ->
  0 <= nth i row (-1) ->
  nth j row (-1) <> nth i row (-1).
Proof.
  intros Ha Hrow Hi Hj Hij Hs.
  assert (Hin : In row label_map).
  { unfold py_index in Hrow.
    destruct (a <? 0); destruct (_ && _); try discriminate Hrow;
      destruct (nth_error label_map _) eqn:N; try discriminate Hrow;
      inversion Hrow; subst; eapply nth_error_In; eauto. }
  pose proof rows_distinct_true as D. unfold rows_distinct in D.
  rewrite forallb_forall in D. specialize (D row Hin).
  rewrite forallb_forall in D. specialize (D i).
  rewrite in_seq in D. specialize (D ltac:(lia)).
  rewrite forallb_forall in D. specialize (D j).
  rewrite in_seq in D. specialize (D ltac:(lia)).
  apply orb_true_iff in D. destruct D as [D|D].
  - apply orb_true_iff in D. destruct D as [D|D].
    + apply Nat.eqb_eq in D. contradiction.
    + apply Z.ltb_lt in D. lia.
  - apply negb_true_iff, Z.eqb_neq in D. congruence.
Qed.

(** The items after position [k] leave alone a slot that none of them
    writes. *)
Lemma unaligned_rest_keeps {A : Type} (a : Z) (row : list Z) (d : A) (s : nat)
  (rest : list A) :
  0 <= a < 8 -> py_index label_map a = Ok row ->
  forall (k : nat) (u0 u : list A),
    for_each (enumerate_from (Z.of_nat k) rest)
      (fun '(i, aligned_item) unaligned_items =>
         row <- py_index label_map a ;;
         slot <- py_index row i ;;
         py_setitem unaligned_items slot aligned_item) u0 = Ok u ->
    List.length u0 = 12%nat ->
    (forall j, (k <= j < k + List.length rest)%nat ->
               written_slot (nth j row (-1)) <> s) ->
    nth s u d = nth s u0 d.
Proof.
  intros Ha Hrow. induction rest as [|x rest IH]; intros k u0 u H Hu Hw.
  - simpl in H. now inversion H.
  - cbn [enumerate_from for_each] in H.
    apply bind_ok_inv in H. destruct H as [u1 [E1 H]].
    rewrite Hrow in E1. cbn [bind] in E1.
    apply bind_ok_inv in E1. destruct E1 as [slot [Es E1]].
    destruct (label_map_entry a row k slot Ha Hrow Es) as [Hk [Hv [Hb _]]].
    rewrite (py_setitem_written u0 slot x Hu Hb) in E1.
    inversion E1; subst u1; clear E1.
    replace (Z.of_nat k + 1) with (Z.of_nat (S k)) in H by lia.
    rewrite (IH (S k) _ _ H).
    + apply nth_set_nth_other. intros C.
      apply (Hw k); [simpl; lia|]. now rewrite <- Hv.
    + now rewrite set_nth_length.
    + intros j Hj. apply Hw. simpl. lia.
Qed.

(** The item at position [i] is found in the slot written for it, unless a
    later item is written to the same slot. *)
Lemma unaligned_item {A : Type} (items : list A) (a : Z) (d : A)
  (row : list Z) (u : list A) (i : nat) :
  0 <= a < 8 -> py_index label_map a = Ok row ->
  unaligned items a d = Ok u ->
  (i < List.length items)%nat ->
  (forall j, (i < j < List.length items)%nat ->
             written_slot (nth j row (-1)) <> written_slot (nth i row (-1))) ->
  nth (written_slot (nth i row (-1))) u d = nth i items d.
Proof.
  intros Ha Hrow Hu Hi Hw. unfold unaligned in Hu.
  rewrite <- (firstn_skipn i items) in Hu.
  destruct (skipn i items) as [|x rest] eqn:Sk.
  { apply (f_equal (@List.length A)) in Sk. rewrite length_skipn in Sk.
    simpl in Sk. lia. }
  assert (Hx : nth i items d = x).
  { rewrite <- (firstn_skipn i items), Sk.
    rewrite app_nth2 by (rewrite length_firstn; lia).
    rewrite length_firstn, Nat.min_l by lia. now rewrite Nat.sub_diag. }
  assert (Hlen : List.length items = (i + S (List.length rest))%nat).
  { rewrite <- (firstn_skipn i items), Sk, length_app, length_firstn.
    rewrite Nat.min_l by lia. reflexivity. }
  assert (Hf : List.length (firstn i items) = i)
    by (rewrite length_firstn; lia).
  unfold enumerate in Hu. rewrite enumerate_from_app, for_each_app in Hu.
  apply bind_ok_inv in Hu. destruct Hu as [u1 [E1 Hu]].
  assert (L1 : List.length u1 = 12%nat).
  { exact (unaligned_length (firstn i items) a d u1 E1). }
  rewrite Hf, Z.add_0_l in Hu. cbn [enumerate_from for_each] in Hu.
  apply bind_ok_inv in Hu. destruct Hu as [u2 [E2 Hu]].
  rewrite Hrow in E2. cbn [bind] in E2.
  apply bind_ok_inv in E2. destruct E2 as [slot [Es E2]].
  destruct (label_map_entry a row i slot Ha Hrow Es) as [Hk [Hv [Hb _]]].
  rewrite (py_setitem_written u1 slot x L1 Hb) in E2.
  inversion E2; subst u2; clear E2.
  replace (Z.of_nat i + 1) with (Z.of_nat (S i)) in Hu by lia.
  rewrite (unaligned_rest_keeps a row d _ rest Ha Hrow (S i) _ _ Hu).
  - rewrite <- Hv, Hx. apply nth_set_nth_same. rewrite L1.
    unfold written_slot. destruct (slot <? 0) eqn:E; [lia|].
    apply Z.ltb_ge in E. lia.
  - now rewrite set_nth_length.
  - intros j Hj. apply Hw. lia.
Qed.

(** X7: what [unaligned] returns under an alignment 0..7 has twelve entries.
    The item at aligned position [i] is found in the slot that [label_map]
    gives for [i], where the entry -1 of an unused position is read as slot
    11, unless a later item is written to the same slot; a slot that no item
    is written to holds the default value.  So an item at an unused position
    is not dropped: it lands in slot 11, replacing what an earlier position
    had put there. *)
Theorem unaligned_scatter :
  forall (A : Type) (items : list A) (a : Z) (d : A) (row : list Z)
         (u : list A),
    0 <= a < 8 -> py_index label_map a = Ok row ->
    unaligned items a d = Ok u ->
    List.length u = 12%nat
    /\ (forall i, (i < List.length items)%nat ->
          (forall j, (i < j < List.length items)%nat ->
             written_slot (nth j row (-1)) <> written_slot (nth i row (-1))) ->
          nth (written_slot (nth i row (-1))) u d = nth i items d)
    /\ (forall s,
          (forall i, (i < List.length items)%nat ->
             written_slot (nth i row (-1)) <> s) ->
          nth s u d = d).
Proof.
  intros A items a d row u Ha Hrow Hu. split; [|split].
  - exact (unaligned_length items a d u Hu).
  - intros i Hi Hw. exact (unaligned_item items a d row u i Ha Hrow Hu Hi Hw).
  - intros s Hs. unfold unaligned, enumerate in Hu.
    rewrite (unaligned_rest_keeps a row d s items Ha Hrow 0 _ _ Hu).
    + apply nth_repeat.
    + apply repeat_length.
    + intros j Hj. apply Hs. lia.
Qed.

Lemma unaligned_scatter_witness :
  0 <= 7 < 8
  /\ py_index label_map 7 = Ok [4; -1; -1; -1; 10; -1; -1; -1; -1; -1; -1; -1]
  /\ unaligned ["A"; "B"] 7 ""
     = Ok [""; ""; ""; ""; "A"; ""; ""; ""; ""; ""; ""; "B"]
  /\ nth 11 [""; ""; ""; ""; "A"; ""; ""; ""; ""; ""; ""; "B"] "" = "B".
Proof.
  split; [lia|]. split; [reflexivity|]. split; [reflexivity|].
  refine (proj1 (proj2 (unaligned_scatter string ["A"; "B"] 7 "" _ _
                          ltac:(lia) eq_refl eq_refl)) 1%nat _ _).
  - simpl. lia.
  - intros j Hj. simpl in Hj. lia.
Defined.

Lemma py_index_wraps {A : Type} (l : list A) (i : Z) :
  - Z.of_nat (List.length l) <= i < 0 ->
  py_index l i = py_index l (i + Z.of_nat (List.length l)).
Proof.
  intros H. unfold py_index.
  assert (E1 : (i <? 0) = true) by (apply Z.ltb_lt; lia).
  assert (E2 : (i + Z.of_nat (List.length l) <? 0) = false)
    by (apply Z.ltb_ge; lia).
  now rewrite E1, E2.
Qed.

Lemma py_index_outside {A : Type} (l : list A) (i : Z) :
  i < - Z.of_nat (List.length l) \/ Z.of_nat (List.length l) <= i ->
  py_index l i = Raise IndexError.
Proof.
  intros H. unfold py_index. destruct (i <? 0) eqn:E.
  - apply Z.ltb_lt in E. destruct (0 <=? i + _) eqn:E1.
    + apply Z.leb_le in E1.
      assert (E2 : (i + Z.of_nat (List.length l) <? Z.of_nat (List.length l))
                   = true) by (apply Z.ltb_lt; lia).
      lia.
    + reflexivity.
  - apply Z.ltb_ge in E.
    assert (E2 : (i <? Z.of_nat (List.length l)) = false)
      by (apply Z.ltb_ge; lia).
    now rewrite E2, andb_false_r.
Qed.

(** X8: the bounds of [unaligned].  Up to twelve items under an alignment
    0..7 are always accepted; a thirteenth item raises IndexError; so does an
    alignment below -8 or above 7 as soon as there is an item.  An alignment
    -8..-1 is accepted and read as that alignment plus 8. *)
Theorem unaligned_bounds :
  forall (A : Type) (items : list A) (a : Z) (d : A),
    (0 <= a < 8 -> (List.length items <= 12)%nat ->
     exists u, unaligned items a d = Ok u)
    /\ (0 <= a < 8 -> (12 < List.length items)%nat ->
        unaligned items a d = Raise IndexError)
    /\ (a < -8 \/ 8 <= a -> items <> [] ->
        unaligned items a d = Raise IndexError)
    /\ (-8 <= a < 0 -> unaligned items a d = unaligned items (a + 8) d).
Proof.
  intros A items a d. split; [|split; [|split]].
  - intros Ha Hl. exact (unaligned_ok items a d Hl Ha).
  - intros Ha Hl. unfold unaligned.
    rewrite <- (firstn_skipn 12 items).
    destruct (skipn 12 items) as [|x rest] eqn:Sk.
    { apply (f_equal (@List.length A)) in Sk. rewrite length_skipn in Sk.
      simpl in Sk. lia. }
    unfold enumerate. rewrite enumerate_from_app, for_each_app.
    destruct (unaligned_ok (firstn 12 items) a d) as [u1 E1];
      [rewrite length_firstn; lia | exact Ha |].
    unfold unaligned, enumerate in E1. rewrite E1. cbn [bind].
    rewrite length_firstn, Nat.min_l, Z.add_0_l by lia.
    cbn [enumerate_from for_each].
    assert (Hin : In a alignment_candidates) by (simpl; lia).
    destruct (label_map_row a Hin) as [row [Hrow L]].
    rewrite Hrow. cbn [bind].
    rewrite (py_index_out row 12) by lia. reflexivity.
  - intros Ha Hne. destruct items as [|x items]; [contradiction|].
    unfold unaligned. cbn [enumerate enumerate_from for_each].
    rewrite (py_index_outside label_map a) by (simpl; lia). reflexivity.
  - intros Ha. unfold unaligned. apply for_each_ext. intros [i x] s.
    now rewrite (py_index_wraps label_map a) by (simpl; lia).
Qed.

Lemma unaligned_bounds_witness :
  0 <= 4 < 8
  /\ (12 < List.length (repeat "x" 13))%nat
  /\ unaligned (repeat "x" 13) 4 "" = Raise IndexError.
Proof.
  split; [lia|]. split; [simpl; lia|].
  apply (proj1 (proj2 (unaligned_bounds string (repeat "x" 13) 4 "")));
    [lia | simpl; lia].
Defined.

(** ** The switch fields of a key-changes mapping *)

Lemma steps_before_switch_keep :
  Forall (fun step => forall v s s',
              snd step v s = Ok s' ->
              Key.switch (pb_key s') = Key.switch (pb_key s))
    steps_before_switch.
Proof.
  unfold steps_before_switch. cbn [firstn key_change_steps].
  repeat (apply Forall_cons;
          [cbn [snd]; intros v s s' H;
           unfold key_mpf, key_str, key_bool, play_rx, play_ry, play_a, play_f,
             play_f2, play_fa, play_t, play_x, play_y, play_w, play_h in H;
           step_inv H; try destruct (negb _); reflexivity|]).
  apply Forall_nil.
Qed.

Lemma on_field_switch_mount (name : string) (key_changes : dict)
  (s s' : playback_state) :
  on_field name play_switch_mount key_changes s = Ok s' ->
  (dict_get name key_changes = None /\ s' = s)
  \/ (exists m,
         dict_get name key_changes = Some (PStr m)
         /\ Key.switch (pb_key s')
            = Switch.set_mount m (Key.switch (pb_key s))).
Proof.
  unfold on_field. destruct (dict_get name key_changes) as [v|].
  - intros H. right. unfold play_switch_mount in H.
    destruct v; try discriminate H. cbn [as_str bind] in H.
    inversion H; subst s'. exists s0. split; reflexivity.
  - intros H. inversion H. left. split; reflexivity.
Qed.

(** X9: of the fields ["sm"], ["sb"] and ["st"] of a key-changes mapping the
    last one present decides the mount of the switch: all three are written
    to [switch.mount], in that order.  The brand and the type of the switch
    are never written. *)
Theorem switch_fields_go_to_mount :
  forall (key : Key.t) (key_changes : dict) (colors : list string)
         (sizes : list num) (a : Z) (crx cry : mpf) (s' : playback_state),
    playback_key_changes key key_changes colors sizes a crx cry = Ok s' ->
    let mount := Switch.mount (Key.switch (pb_key s')) in
    (forall m, dict_get "st" key_changes = Some (PStr m) -> mount = m)
    /\ (forall m, dict_get "st" key_changes = None ->
                  dict_get "sb" key_changes = Some (PStr m) -> mount = m)
    /\ (forall m, dict_get "st" key_changes = None ->
                  dict_get "sb" key_changes = None ->
                  dict_get "sm" key_changes = Some (PStr m) -> mount = m)
    /\ (dict_get "st" key_changes = None ->
        dict_get "sb" key_changes = None ->
        dict_get "sm" key_changes = None ->
        mount = Switch.mount (Key.switch key))
    /\ Switch.brand (Key.switch (pb_key s')) = Switch.brand (Key.switch key)
    /\ Switch.type (Key.switch (pb_key s')) = Switch.type (Key.switch key).
Proof.
  intros key kc colors sizes a crx cry s' H mount. subst mount.
  pose proof (playback_key_changes_keeps _ _ _ _ _ _ _ _ H)
    as [_ [Kb [Kt _]]].
  cbn [pb_key] in Kb, Kt.
  unfold playback_key_changes, play_steps in H.
  change key_change_steps
    with (steps_before_switch
          ++ [("sm", play_switch_mount); ("sb", play_switch_mount);
              ("st", play_switch_mount)])%list in H.
  rewrite for_each_app in H.
  apply bind_ok_inv in H. destruct H as [s1 [E1 H]].
  pose proof (play_steps_rel
                (fun s s' => Key.switch (pb_key s') = Key.switch (pb_key s))
                steps_before_switch kc (fun s => eq_refl)
                (fun a b c H1 H2 => eq_trans H2 H1)
                steps_before_switch_keep _ _ E1) as K1.
  cbn [pb_key] in K1.
  cbn [for_each] in H.
  apply bind_ok_inv in H. destruct H as [s2 [E2 H]].
  apply bind_ok_inv in H. destruct H as [s3 [E3 H]].
  apply bind_ok_inv in H. destruct H as [s4 [E4 H]].
  inversion H; subst s4; clear H.
  apply on_field_switch_mount in E2, E3, E4.
  repeat split; try assumption.
  - intros m Hst. destruct E4 as [[N _]|[m' [S M]]]; [congruence|].
    rewrite M. assert (m' = m) by congruence. now subst.
  - intros m Hst Hsb. destruct E4 as [[_ ->]|[m' [S _]]]; [|congruence].
    destruct E3 as [[N _]|[m' [S M]]]; [congruence|].
    rewrite M. assert (m' = m) by congruence. now subst.
  - intros m Hst Hsb Hsm. destruct E4 as [[_ ->]|[m' [S _]]]; [|congruence].
    destruct E3 as [[_ ->]|[m' [S _]]]; [|congruence].
    destruct E2 as [[N _]|[m' [S M]]]; [congruence|].
    rewrite M. assert (m' = m) by congruence. now subst.
  - intros Hst Hsb Hsm. destruct E4 as [[_ ->]|[m' [S _]]]; [|congruence].
    destruct E3 as [[_ ->]|[m' [S _]]]; [|congruence].
    destruct E2 as [[_ ->]|[m' [S _]]]; [|congruence].
    now rewrite K1.
Qed.

Lemma switch_fields_go_to_mount_witness :
  is_ok (playback_key_changes Key.init
           [("sm", PStr "cherry"); ("st", PStr "MX1A")] colors_12 sizes_12 4
           (mpf_of_Z 0) (mpf_of_Z 0)) = true
  /\ Switch.mount
       (Key.switch
          (pb_key
             (match playback_key_changes Key.init
                      [("sm", PStr "cherry"); ("st", PStr "MX1A")] colors_12
                      sizes_12 4 (mpf_of_Z 0) (mpf_of_Z 0) with
              | Ok s => s
              | Raise _ => mk_playback Key.init [] [] 0 (mpf_of_Z 0) (mpf_of_Z 0)
              end))) = "MX1A".
Proof.
  split; [reflexivity|].
  refine (proj1 (switch_fields_go_to_mount Key.init
                   [("sm", PStr "cherry"); ("st", PStr "MX1A")] colors_12
                   sizes_12 4 (mpf_of_Z 0) (mpf_of_Z 0) _ _) "MX1A" eq_refl).
  vm_compute. reflexivity.
Defined.

(** ** The key made from a label string *)

Lemma zip_with_length {A B C : Type} (f : A -> B -> C) (l1 : list A) :
  forall l2 : list B,
    List.length l1 = List.length l2 ->
    List.length (zip_with f l1 l2) = List.length l2.
Proof.
  induction l1 as [|a l1 IH]; intros [|b l2] H; simpl in *; try lia.
  now rewrite IH by lia.
Qed.

Lemma map_zip_with_left {A B C D : Type} (f : A -> B -> C) (g : C -> D)
  (h : A -> D) (l1 : list A) :
  (forall a b, g (f a b) = h a) ->
  forall l2 : list B,
    List.length l1 = List.length l2 -> map g (zip_with f l1 l2) = map h l1.
Proof.
  intros E. induction l1 as [|a l1 IH]; intros [|b l2] H; simpl in *;
    try lia; [reflexivity|].
  now rewrite E, IH by lia.
Qed.

Lemma map_zip_with_right {A B C D : Type} (f : A -> B -> C) (g : C -> D)
  (h : B -> D) (l1 : list A) :
  (forall a b, g (f a b) = h b) ->
  forall l2 : list B,
    List.length l1 = List.length l2 -> map g (zip_with f l1 l2) = map h l2.
Proof.
  intros E. induction l1 as [|a l1 IH]; intros [|b l2] H; simpl in *;
    try lia; [reflexivity|].
  now rewrite E, IH by lia.
Qed.

(** Setting one field of the labels one by one sets it in all of them. *)
Lemma set_label_loop {A : Type} (f : A -> Label.t -> Label.t) (vals : list A) :
  forall old pre : list Label.t,
    List.length vals = List.length old ->
    for_each (enumerate_from (Z.of_nat (List.length pre)) vals)
      (fun '(i, v) => Keyboard.set_label (f v) i) (pre ++ old)%list
    = Ok (pre ++ zip_with f vals old)%list.
Proof.
  induction vals as [|v vals IH]; intros old pre H.
  - destruct old; [|discriminate]. reflexivity.
  - destruct old as [|o old]; [discriminate|]. simpl in H.
    cbn [enumerate_from for_each zip_with]. unfold Keyboard.set_label at 1.
    rewrite (py_index_nth (pre ++ o :: old) (List.length pre) o)
      by (rewrite length_app; simpl; lia).
    cbn [bind]. rewrite app_nth2, Nat.sub_diag by lia. cbn [nth].
    rewrite py_setitem_nat by (rewrite length_app; simpl; lia).
    cbn [bind]. rewrite set_nth_app.
    replace (Z.of_nat (List.length pre) + 1)
      with (Z.of_nat (List.length (pre ++ [f v o])))
      by (rewrite length_app; simpl; lia).
    replace (pre ++ f v o :: old)%list with ((pre ++ [f v o]) ++ old)%list
      by (now rewrite <- app_assoc).
    rewrite IH by lia. now rewrite <- app_assoc.
Qed.

Lemma set_label_loop_0 {A : Type} (f : A -> Label.t -> Label.t)
  (vals : list A) (old : list Label.t) :
  List.length vals = List.length old ->
  for_each (enumerate vals) (fun '(i, v) => Keyboard.set_label (f v) i) old
  = Ok (zip_with f vals old).
Proof.
  intros H. exact (set_label_loop f vals old [] H).
Qed.

(** X10: what a label string makes.  On a running key with twelve labels and
    twelve running colors, [from_json] appends one key whose label texts are
    the segments of the string scattered by [unaligned] under the running
    alignment, whose label sizes are the scattered running sizes with the
    key's default size in place of every 0, and whose label colors are the
    running colors with the key's default color in place of every empty one;
    its secondary width and height are those of the running key when they
    are not 0 and its width and height otherwise. *)
Theorem decode_labels_key :
  forall (labels : string) (d d' : Keyboard.decoder),
    List.length (Key.labels (Keyboard.current d)) = 12%nat ->
    List.length (Keyboard.current_labels_color d) = 12%nat ->
    Keyboard.decode_labels labels d = Ok d' ->
    exists (new_key : Key.t) (texts : list string) (sizes : list num),
      Keyboard.keys (Keyboard.keyboard d')
      = (Keyboard.keys (Keyboard.keyboard d) ++ [new_key])%list
      /\ unaligned (split_lines labels) (Keyboard.alignment d) "" = Ok texts
      /\ unaligned (Keyboard.current_labels_size d) (Keyboard.alignment d) num0
         = Ok sizes
      /\ map Label.text (Key.labels new_key) = texts
      /\ map Label.size (Key.labels new_key)
         = map (fun z => if num_eqb z num0
                         then Key.default_text_size (Keyboard.current d)
                         else z) sizes
      /\ map Label.color (Key.labels new_key)
         = map (fun c => if String.eqb c ""
                         then Key.default_text_color (Keyboard.current d)
                         else c) (Keyboard.current_labels_color d)
      /\ Key.width2 new_key
         = (if mpf_eqb (Key.width2 (Keyboard.current d)) (mpf_of_Z 0)
            then Key.width (Keyboard.current d)
            else Key.width2 (Keyboard.current d))
      /\ Key.height2 new_key
         = (if mpf_eqb (Key.height2 (Keyboard.current d)) (mpf_of_Z 0)
            then Key.height (Keyboard.current d)
            else Key.height2 (Keyboard.current d)).
Proof.
  intros labels d d' H12 Hc H. unfold Keyboard.decode_labels in H.
  apply bind_ok_inv in H. destruct H as [texts [Et H]].
  apply bind_ok_inv in H. destruct H as [l1 [E1 H]].
  apply bind_ok_inv in H. destruct H as [sizes [Es H]].
  apply bind_ok_inv in H. destruct H as [l2 [E2 H]].
  apply bind_ok_inv in H. destruct H as [l3 [E3 H]].
  inversion H; subst d'; clear H.
  pose proof (unaligned_length _ _ _ _ Et) as Lt.
  pose proof (unaligned_length _ _ _ _ Es) as Ls.
  set (cur := Keyboard.current d) in *.
  set (nk := (if negb (mpf_eqb (Key.height2 _) (mpf_of_Z 0)) then _ else _))
    in *.
  assert (Nl : Key.labels nk = Key.labels cur).
  { subst nk. destruct (negb (mpf_eqb (Key.height2 _) _));
      destruct (negb (mpf_eqb (Key.width2 _) _)); reflexivity. }
  assert (Nz : Key.default_text_size nk = Key.default_text_size cur).
  { subst nk. destruct (negb (mpf_eqb (Key.height2 _) _));
      destruct (negb (mpf_eqb (Key.width2 _) _)); reflexivity. }
  assert (Nc : Key.default_text_color nk = Key.default_text_color cur).
  { subst nk. destruct (negb (mpf_eqb (Key.height2 _) _));
      destruct (negb (mpf_eqb (Key.width2 _) _)); reflexivity. }
  rewrite Nl in E1.
  rewrite (set_label_loop_0 (fun t => Label.set_text t) texts (Key.labels cur))
    in E1 by congruence.
  injection E1 as D1.
  assert (L1 : List.length l1 = 12%nat)
    by (rewrite <- D1, zip_with_length; congruence).
  rewrite (for_each_ext _ _
             (fun '(i, z) =>
                Keyboard.set_label
                  (Label.set_size
                     (if num_eqb z num0 then Key.default_text_size nk else z)) i))
    in E2 by (intros [i z] s; destruct (num_eqb z num0); reflexivity).
  rewrite (set_label_loop_0
             (fun z => Label.set_size
                         (if num_eqb z num0 then Key.default_text_size nk else z)))
    in E2 by congruence.
  injection E2 as D2.
  assert (L2 : List.length l2 = 12%nat)
    by (rewrite <- D2, zip_with_length; congruence).
  rewrite (for_each_ext _ _
             (fun '(i, c) =>
                Keyboard.set_label
                  (Label.set_color
                     (if String.eqb c "" then Key.default_text_color nk else c))
                  i))
    in E3 by (intros [i c] s; destruct (String.eqb c ""); reflexivity).
  rewrite (set_label_loop_0
             (fun c => Label.set_color
                         (if String.eqb c "" then Key.default_text_color nk
                          else c)))
    in E3 by congruence.
  injection E3 as D3.
  eexists. exists texts, sizes.
  split; [reflexivity|]. split; [exact Et|]. split; [exact Es|].
  cbn [Key.labels Key.set_labels Key.width2 Key.height2].
  split; [|split; [|split]].
  - rewrite <- D3.
    rewrite (map_zip_with_right _ Label.text Label.text)
      by (intros; reflexivity || congruence).
    rewrite <- D2.
    rewrite (map_zip_with_right _ Label.text Label.text)
      by (intros; reflexivity || congruence).
    rewrite <- D1.
    rewrite (map_zip_with_left _ Label.text (fun t => t))
      by (intros; reflexivity || congruence).
    apply map_id.
  - rewrite <- D3.
    rewrite (map_zip_with_right _ Label.size Label.size)
      by (intros; reflexivity || congruence).
    rewrite <- D2.
    rewrite (map_zip_with_left _ Label.size
               (fun z => if num_eqb z num0 then Key.default_text_size nk else z))
      by (intros; reflexivity || congruence).
    now rewrite Nz.
  - rewrite <- D3.
    rewrite (map_zip_with_left _ Label.color
               (fun c => if String.eqb c "" then Key.default_text_color nk
                         else c))
      by (intros; reflexivity || congruence).
    now rewrite Nc.
  - subst nk.
    destruct (mpf_eqb (Key.width2 cur) (mpf_of_Z 0));
      cbn [negb Key.height2 Key.set_width2];
      destruct (mpf_eqb (Key.height2 cur) (mpf_of_Z 0)); split; reflexivity.
Qed.

Lemma decode_labels_key_witness :
  List.length (Key.labels (Keyboard.current Keyboard.decoder_init)) = 12%nat
  /\ List.length (Keyboard.current_labels_color Keyboard.decoder_init) = 12%nat
  /\ is_ok (Keyboard.decode_labels "A" Keyboard.decoder_init) = true
  /\ exists (new_key : Key.t) (texts : list string),
       unaligned (split_lines "A") 4 "" = Ok texts
       /\ map Label.text (Key.labels new_key) = texts.
Proof.
  split; [reflexivity|]. split; [reflexivity|]. split; [reflexivity|].
  destruct (decode_labels_key "A" Keyboard.decoder_init
              (match Keyboard.decode_labels "A" Keyboard.decoder_init with
               | Ok d => d
               | Raise _ => Keyboard.decoder_init
               end) eq_refl eq_refl ltac:(vm_compute; reflexivity))
    as [nk [texts [sizes [_ [Et [_ [Ht _]]]]]]].
  exists nk, texts. split; assumption.
Defined.

(** ** The metadata mapping, written and read back *)

Lemma record_change_get {T S : Type} {HT : ToPy T} {HS : ToPy S}
  (changes changes' : dict) (name : string) (val val' : T) (default_val : S) :
  record_change changes name val default_val = (changes', val') ->
  forall n,
    dict_get n changes'
    = if String.eqb n name
      then (if py_ne (to_py val) (to_py default_val)
            then Some (recorded (to_py val))
            else dict_get n changes)
      else dict_get n changes.
Proof.
  unfold record_change. intros H n.
  destruct (py_ne (to_py val) (to_py default_val)); inversion H; subst.
  - destruct (String.eqb n name) eqn:E.
    + apply String.eqb_eq in E. subst n. apply dict_get_set_same.
    + apply String.eqb_neq in E. now apply dict_get_set_other.
  - now destruct (String.eqb n name).
Qed.

Lemma py_ne_str (a b : string) : py_ne (PStr a) (PStr b) = negb (String.eqb a b).
Proof.
  reflexivity.
Qed.

(** Reading back a string field that was recorded against the default [""]. *)
Lemma read_str_entry {S : Type} (set : string -> S -> S) (a : string)
  (rest : option pyval) (s : S) :
  rest = None -> set "" s = s ->
  match (if py_ne (to_py a) (to_py "")
         then Some (recorded (to_py a)) else rest) with
  | Some v => set_str set v s
  | None => Ok s
  end = Ok (set a s).
Proof.
  intros -> Hs. change (to_py a) with (PStr a). change (to_py "") with (PStr "").
  rewrite py_ne_str. destruct (String.eqb a "") eqn:E; cbn [negb].
  - apply String.eqb_eq in E. subst a. now rewrite Hs.
  - reflexivity.
Qed.

Ltac lookup :=
  repeat (match goal with
          | G : forall n, dict_get n ?c = _ |- context [dict_get ?k ?c] =>
              rewrite (G k)
          end;
          cbn [String.eqb Ascii.eqb Bool.eqb dict_get]).

Lemma conditional_record_get {T : Type} {HT : ToPy T} (cond : bool)
  (changes changes' : dict) (name : string) (val unused val' : T) :
  (if cond then record_change changes name val tt else (changes, unused))
  = (changes', val') ->
  py_ne (to_py val) PNone = true ->
  forall n,
    dict_get n changes'
    = if String.eqb n name
      then (if cond then Some (recorded (to_py val)) else dict_get n changes)
      else dict_get n changes.
Proof.
  intros H Hne n. destruct cond.
  - rewrite (record_change_get _ _ _ _ _ _ H n).
    change (to_py tt) with PNone. now rewrite Hne.
  - inversion H; subst. now destruct (String.eqb n name).
Qed.

(** X11: the metadata mapping that [to_json] writes reads back: played back
    on [Metadata()] it gives the metadata of the keyboard, provided the flag
    "was specified" is set for [plate] and for [pcb] whenever their value is
    true (as it is after any decoding). *)
Theorem metadata_round_trip :
  forall kb : Keyboard.t,
    (Metadata.is_switches_plate_mounted (Keyboard.metadata kb) = true ->
     Metadata.include_switches_plate_mounted (Keyboard.metadata kb) = true) ->
    (Metadata.is_switches_pcb_mounted (Keyboard.metadata kb) = true ->
     Metadata.include_switches_pcb_mounted (Keyboard.metadata kb) = true) ->
    playback_metadata_changes Metadata.init (Keyboard.metadata_changes kb)
    = Ok (Keyboard.metadata kb).
Proof.
  intros [m keys] Hp Hc. cbn [Keyboard.metadata] in *.
  unfold Keyboard.metadata_changes. cbn [Keyboard.metadata].
  cbv zeta.
  destruct (record_change [] "backcolor" _ _) as [c1 v1] eqn:E1.
  destruct (record_change c1 "name" _ _) as [c2 v2] eqn:E2.
  destruct (record_change c2 "author" _ _) as [c3 v3] eqn:E3.
  destruct (record_change c3 "notes" _ _) as [c4 v4] eqn:E4.
  destruct (record_change [] "name" _ _) as [b1 w1] eqn:B1.
  destruct (record_change b1 "style" _ _) as [b2 w2] eqn:B2.
  destruct (if (0 <? List.length b2)%nat then _ else _) as [c5 v5] eqn:E5.
  destruct (record_change c5 "radii" _ _) as [c6 v6] eqn:E6.
  destruct (record_change c6 "switchMount" _ _) as [c7 v7] eqn:E7.
  destruct (record_change c7 "switchBrand" _ _) as [c8 v8] eqn:E8.
  destruct (record_change c8 "switchType" _ _) as [c9 v9] eqn:E9.
  destruct (record_change c9 "css" _ _) as [c10 v10] eqn:E10.
  destruct (if Metadata.include_switches_plate_mounted m || _ then _ else _)
    as [c11 v11] eqn:E11.
  destruct (if Metadata.include_switches_pcb_mounted m || _ then _ else _)
    as [c12 v12] eqn:E12.
  pose proof (record_change_get _ _ _ _ _ _ E1) as G1.
  pose proof (record_change_get _ _ _ _ _ _ E2) as G2.
  pose proof (record_change_get _ _ _ _ _ _ E3) as G3.
  pose proof (record_change_get _ _ _ _ _ _ E4) as G4.
  pose proof (record_change_get _ _ _ _ _ _ B1) as H1.
  pose proof (record_change_get _ _ _ _ _ _ B2) as H2.
  pose proof (conditional_record_get _ _ _ _ _ _ _ E5 eq_refl) as G5.
  pose proof (record_change_get _ _ _ _ _ _ E6) as G6.
  pose proof (record_change_get _ _ _ _ _ _ E7) as G7.
  pose proof (record_change_get _ _ _ _ _ _ E8) as G8.
  pose proof (record_change_get _ _ _ _ _ _ E9) as G9.
  pose proof (record_change_get _ _ _ _ _ _ E10) as G10.
  pose proof (conditional_record_get _ _ _ _ _ _ _ E11 eq_refl) as G11.
  pose proof (conditional_record_get _ _ _ _ _ _ _ E12 eq_refl) as G12.
  clear E1 E2 E3 E4 B1 B2 E5 E6 E7 E8 E9 E10 E11 E12.
  unfold playback_metadata_changes.
  assert (S1 : on_field "author" (set_str Metadata.set_author) c12 Metadata.init
               = Ok (Metadata.set_author (Metadata.author m) Metadata.init)).
  { unfold on_field. lookup. apply read_str_entry; reflexivity. }
  rewrite S1. clear S1. cbn [bind].
  assert (S2 : forall s,
             Metadata.background_color s = "" ->
             on_field "backcolor" (set_str Metadata.set_background_color) c12 s
             = Ok (Metadata.set_background_color
                     (Metadata.background_color m) s)).
  { intros s Hs. unfold on_field. lookup. apply read_str_entry; [reflexivity|].
    destruct s; simpl in *; now subst. }
  rewrite S2 by reflexivity. clear S2. cbn [bind].
  assert (S3 : forall s,
             Metadata.background s = Background.init ->
             on_field "background"
               (fun bg m1 =>
                  m2 <- set_background_field "name" Background.set_name bg m1 ;;
                  set_background_field "style" Background.set_style bg m2)
               c12 s
             = Ok (Metadata.set_background (Metadata.background m) s)).
  { intros s Hs. unfold on_field. lookup.
    pose proof (H2 "name") as N. pose proof (H2 "style") as Y.
    cbn [String.eqb Ascii.eqb Bool.eqb] in N, Y.
    rewrite (H1 "name") in N. rewrite (H1 "style") in Y.
    cbn [String.eqb Ascii.eqb Bool.eqb dict_get] in N, Y.
    change (to_py (Background.name (Metadata.background m)))
      with (PStr (Background.name (Metadata.background m))) in N.
    change (to_py (Background.style (Metadata.background m)))
      with (PStr (Background.style (Metadata.background m))) in Y.
    change (to_py (Background.name Background.init)) with (PStr "") in N.
    change (to_py (Background.style Background.init)) with (PStr "") in Y.
    rewrite py_ne_str in N, Y. cbn [recorded] in N, Y.
    destruct (Metadata.background m) as [bn bs] eqn:Bm.
    cbn [Background.name Background.style] in N, Y.
    destruct s as [a1 a2 bg a4 a5 a6 a7 a8 a9 a10 a11 a12].
    cbn [Metadata.background] in Hs. subst bg.
    change (recorded (to_py (PDict b2))) with (PDict b2).
    destruct (0 <? List.length b2)%nat eqn:L.
    - unfold set_background_field. cbn [py_contains py_getitem bind].
      unfold dict_mem. rewrite N.
      destruct (String.eqb bn "") eqn:En; cbn [negb bind as_str];
        rewrite Y;
        destruct (String.eqb bs "") eqn:Es; cbn [negb bind as_str];
        try (apply String.eqb_eq in En; subst bn);
        try (apply String.eqb_eq in Es; subst bs); reflexivity.
    - apply Nat.ltb_ge in L. destruct b2; [|simpl in L; lia].
      cbn [dict_get] in N, Y.
      destruct (String.eqb bn "") eqn:En; [|discriminate N].
      destruct (String.eqb bs "") eqn:Es; [|discriminate Y].
      apply String.eqb_eq in En, Es. subst. reflexivity. }
  rewrite S3 by reflexivity. clear S3. cbn [bind].
  assert (S4 : forall s,
             Metadata.name s = "" ->
             on_field "name" (set_str Metadata.set_name) c12 s
             = Ok (Metadata.set_name (Metadata.name m) s)).
  { intros s Hs. unfold on_field. lookup. apply read_str_entry; [reflexivity|].
    destruct s; simpl in *; now subst. }
  rewrite S4 by reflexivity. clear S4. cbn [bind].
  assert (S5 : forall s,
             Metadata.notes s = "" ->
             on_field "notes" (set_str Metadata.set_notes) c12 s
             = Ok (Metadata.set_notes (Metadata.notes m) s)).
  { intros s Hs. unfold on_field. lookup. apply read_str_entry; [reflexivity|].
    destruct s; simpl in *; now subst. }
  rewrite S5 by reflexivity. clear S5. cbn [bind].
  assert (S6 : forall s,
             Metadata.radii s = "" ->
             on_field "radii" (set_str Metadata.set_radii) c12 s
             = Ok (Metadata.set_radii (Metadata.radii m) s)).
  { intros s Hs. unfold on_field. lookup. apply read_str_entry; [reflexivity|].
    destruct s; simpl in *; now subst. }
  rewrite S6 by reflexivity. clear S6. cbn [bind].
  assert (S7 : forall s,
             Switch.mount (Metadata.switch s) = "" ->
             on_field "switchMount" (set_metadata_switch Switch.set_mount) c12 s
             = Ok (Metadata.set_switch
                     (Switch.set_mount (Switch.mount (Metadata.switch m))
                        (Metadata.switch s)) s)).
  { intros s Hs. unfold on_field. lookup.
    apply (read_str_entry
             (fun x m0 =>
                Metadata.set_switch (Switch.set_mount x (Metadata.switch m0)) m0));
      [reflexivity|].
    destruct s as [a1 a2 a3 a4 a5 a6 [s1 s2 s3] a8 a9 a10 a11 a12].
    simpl in *. now subst. }
  rewrite S7 by reflexivity. clear S7. cbn [bind].
  assert (S8 : forall s,
             Switch.brand (Metadata.switch s) = "" ->
             on_field "switchBrand" (set_metadata_switch Switch.set_brand) c12 s
             = Ok (Metadata.set_switch
                     (Switch.set_brand (Switch.brand (Metadata.switch m))
                        (Metadata.switch s)) s)).
  { intros s Hs. unfold on_field. lookup.
    apply (read_str_entry
             (fun x m0 =>
                Metadata.set_switch (Switch.set_brand x (Metadata.switch m0)) m0));
      [reflexivity|].
    destruct s as [a1 a2 a3 a4 a5 a6 [s1 s2 s3] a8 a9 a10 a11 a12].
    simpl in *. now subst. }
  rewrite S8 by reflexivity. clear S8. cbn [bind].
  assert (S9 : forall s,
             Switch.type (Metadata.switch s) = "" ->
             on_field "switchType" (set_metadata_switch Switch.set_type) c12 s
             = Ok (Metadata.set_switch
                     (Switch.set_type (Switch.type (Metadata.switch m))
                        (Metadata.switch s)) s)).
  { intros s Hs. unfold on_field. lookup.
    apply (read_str_entry
             (fun x m0 =>
                Metadata.set_switch (Switch.set_type x (Metadata.switch m0)) m0));
      [reflexivity|].
    destruct s as [a1 a2 a3 a4 a5 a6 [s1 s2 s3] a8 a9 a10 a11 a12].
    simpl in *. now subst. }
  rewrite S9 by reflexivity. clear S9. cbn [bind].
  assert (S10 : forall s,
             Metadata.css s = "" ->
             on_field "css" (set_str Metadata.set_css) c12 s
             = Ok (Metadata.set_css (Metadata.css m) s)).
  { intros s Hs. unfold on_field. lookup. apply read_str_entry; [reflexivity|].
    destruct s; simpl in *; now subst. }
  rewrite S10 by reflexivity. clear S10. cbn [bind].
  unfold on_field. lookup.
  change (recorded (to_py (Metadata.is_switches_pcb_mounted m)))
    with (PBool (Metadata.is_switches_pcb_mounted m)).
  change (recorded (to_py (Metadata.is_switches_plate_mounted m)))
    with (PBool (Metadata.is_switches_plate_mounted m)).
  destruct m as [a1 a2 [bn bs] a4 a5 a6 [s1 s2 s3] a8 pcb ipcb plate iplate].
  cbn [Metadata.is_switches_pcb_mounted Metadata.include_switches_pcb_mounted
       Metadata.is_switches_plate_mounted
       Metadata.include_switches_plate_mounted Metadata.init] in *.
  destruct pcb, ipcb, plate, iplate;
    try (specialize (Hp eq_refl); discriminate Hp);
    try (specialize (Hc eq_refl); discriminate Hc);
    reflexivity.
Qed.

Lemma metadata_round_trip_witness :
  Metadata.is_switches_plate_mounted Metadata.init = false
  /\ playback_metadata_changes Metadata.init
       (Keyboard.metadata_changes
          (Keyboard.mk (Metadata.set_name "Foo" Metadata.init) []))
     = Ok (Metadata.set_name "Foo" Metadata.init).
Proof.
  split; [reflexivity|].
  apply (metadata_round_trip
           (Keyboard.mk (Metadata.set_name "Foo" Metadata.init) []));
    discriminate.
Defined.

(** ** The encoder returns *)

Lemma _aligned_key_properties_ok (key : Key.t) (current_labels_size : list num) :
  List.length (Key.labels key) = 12%nat ->
  List.length current_labels_size = 12%nat ->
  exists a l c s,
    _aligned_key_properties key current_labels_size = Ok (a, l, c, s)
    /\ twelve (l, c, s).
Proof.
  intros H12 Hcur.
  destruct (aligned_arrays_ok key H12) as [a [l [c [s [E [_ [Hl [Hc Hs]]]]]]]].
  unfold _aligned_key_properties. rewrite E. cbn [bind].
  destruct (for_each_invariant (fun z => List.length z = 12%nat)
              (range 0 (List.length (_reduced_text_sizes s)))
              (clean_up_slot key current_labels_size l) s) as [s' [Eloop Ls]].
  - intros i z Hi Hz. apply in_range in Hi. destruct Hi as [n [-> Hn]].
    apply clean_up_slot_ok; auto.
    pose proof (_reduced_text_sizes_length s). lia.
  - exact Hs.
  - rewrite Eloop. cbn [bind]. exists a, l, c, s'. split; [reflexivity|].
    simpl. auto.
Qed.

Lemma ordered_text_color_ok (key : Key.t) (colors : list string) :
  List.length colors = 12%nat ->
  exists colors',
    Keyboard.ordered_text_color key colors = Ok colors'
    /\ List.length colors' = 12%nat.
Proof.
  intros H. unfold Keyboard.ordered_text_color.
  change 0 with (Z.of_nat 0).
  rewrite (py_index_nth colors 0 "") by lia. cbn [bind].
  destruct (String.eqb (nth 0 colors "") "").
  - rewrite py_setitem_nat by lia. eexists. split; [reflexivity|].
    now rewrite set_nth_length.
  - apply (for_each_invariant (fun c => List.length c = 12%nat)); [|exact H].
    intros i c Hi Hc. apply in_range in Hi. destruct Hi as [n [-> Hn]].
    rewrite (py_index_nth c n "") by lia. cbn [bind].
    change 0 with (Z.of_nat 0).
    rewrite (py_index_nth c 0 "") by lia. cbn [bind].
    destruct (_ && _).
    + rewrite py_setitem_nat by lia. eexists. split; [reflexivity|].
      now rewrite set_nth_length.
    + eauto.
Qed.

Lemma optimize_f2_loop_ok (sizes : list num) (idxs : list nat) :
  List.length sizes = 12%nat ->
  Forall (fun i => (i < 12)%nat) idxs ->
  forall b, exists b',
    Keyboard.optimize_f2_loop (map Z.of_nat idxs) sizes b = Ok b'.
Proof.
  intros Hs F. induction F as [|i idxs Hi F IH]; intros b.
  - simpl. eauto.
  - cbn [map Keyboard.optimize_f2_loop]. destruct (negb b); [eauto|].
    rewrite (py_index_nth sizes i num0) by lia. cbn [bind].
    change 1 with (Z.of_nat 1).
    rewrite (py_index_nth sizes 1 num0) by lia. cbn [bind]. apply IH.
Qed.

Lemma record_text_sizes_ok (key : Key.t) (aligned_text_size : list num)
  (aligned_text_labels : list string) (key_changes : dict)
  (current_labels_size : list num) :
  List.length aligned_text_size = 12%nat ->
  List.length aligned_text_labels = 12%nat ->
  List.length current_labels_size = 12%nat ->
  exists key_changes' sizes',
    Keyboard.record_text_sizes key aligned_text_size aligned_text_labels
      key_changes current_labels_size = Ok (key_changes', sizes')
    /\ List.length sizes' = 12%nat.
Proof.
  intros Ha Hl Hc. unfold Keyboard.record_text_sizes, compare_text_sizes, range.
  change (12 - 0)%nat with 12%nat.
  rewrite (compare_text_sizes_loop_agree current_labels_size aligned_text_size
             aligned_text_labels (seq 0 12) Hc Ha Hl)
    by (apply Forall_forall; intros i Hi; apply in_seq in Hi; lia).
  cbn [bind]. destruct (negb _); [|eauto].
  destruct (_ =? 0)%nat.
  - destruct (record_change key_changes "f" _ _). eauto.
  - change 0 with (Z.of_nat 0).
    rewrite (py_index_nth aligned_text_size 0 num0) by lia. cbn [bind].
    destruct (optimize_f2_loop_ok aligned_text_size
                (seq 2 (List.length (_reduced_text_sizes aligned_text_size) - 2))
                Ha) with (b := negb (num_truth (nth 0 aligned_text_size num0)))
      as [b' Eb].
    { apply Forall_forall. intros i Hi. apply in_seq in Hi.
      pose proof (_reduced_text_sizes_length aligned_text_size). lia. }
    rewrite Eb. cbn [bind]. destruct b'.
    + change 1 with (Z.of_nat 1).
      rewrite (py_index_nth aligned_text_size 1 num0) by lia. cbn [bind].
      destruct (record_change key_changes "f2" _ _).
      eexists. eexists. split; [reflexivity|]. reflexivity.
    + destruct (record_change key_changes "fa" _ _). eauto.
Qed.

Lemma encode_key_ok (key : Key.t) (e : Keyboard.encoder) :
  List.length (Key.labels key) = 12%nat ->
  List.length (Keyboard.e_labels_size e) = 12%nat ->
  match Keyboard.encode_key key e with
  | Ok e' => List.length (Keyboard.e_labels_size e') = 12%nat
  | Raise _ => False
  end.
Proof.
  intros Hk He. unfold Keyboard.encode_key.
  destruct (_aligned_key_properties_ok key (Keyboard.e_labels_size e) Hk He)
    as [a [l [c [s [E [Hl [Hc Hs]]]]]]].
  rewrite E. cbn [bind]. cbv zeta.
  destruct (ordered_text_color_ok key c Hc) as [c' [Ec Hc']].
  repeat first
    [ progress cbv beta iota
    | match goal with
      | |- context [if ?b then _ else _] => destruct b
      | |- context [match ?t with pair _ _ => _ end] => destruct t
      end ];
    rewrite Ec; cbn [bind];
    repeat first
      [ progress cbv beta iota
      | match goal with
        | |- context [if ?b then _ else _] => destruct b
        | |- context [match ?t with pair _ _ => _ end] => destruct t
        end ];
    match goal with
    | |- context [Keyboard.record_text_sizes ?k ?z ?t ?kc ?cur] =>
        let kc' := fresh "kc" in
        let z' := fresh "z" in
        let Er := fresh "Er" in
        let Lr := fresh "Lr" in
        destruct (record_text_sizes_ok k z t kc cur Hs Hl)
          as [kc' [z' [Er Lr]]];
        [first [exact He | apply repeat_length] | rewrite Er; cbn [bind]]
    end;
    repeat first
      [ progress cbv beta iota
      | match goal with
        | |- context [if ?b then _ else _] => destruct b
        | |- context [match ?t with pair _ _ => _ end] => destruct t
        end ];
    assumption.
Qed.

Lemma from_json_decoded_keys (doc : pyval) (kb : Keyboard.t) :
  Keyboard.from_json doc = Ok kb -> Forall decoded_key (Keyboard.keys kb).
Proof.
  intros H. unfold Keyboard.from_json in H.
  destruct doc; try discriminate H.
  apply bind_ok_inv in H. destruct H as [d [E H]].
  inversion H; subst kb; clear H.
  apply (for_each_preserves decoder_inv _ _ decode_element_inv) in E;
    [|exact decoder_init_inv].
  destruct E as [_ [_ [_ K]]]. exact K.
Qed.

Lemma to_json_ok (kb : Keyboard.t) :
  Forall (fun key => List.length (Key.labels key) = 12%nat) (Keyboard.keys kb) ->
  exists elements, Keyboard.to_json kb = Ok (PList elements).
Proof.
  intros F. unfold Keyboard.to_json.
  destruct (for_each_invariant
              (fun e => List.length (Keyboard.e_labels_size e) = 12%nat)
              (Keyboard.sorted_keys kb) Keyboard.encode_key
              (Keyboard.encoder_init kb)) as [e [E _]].
  - intros key e Hin He.
    assert (Hk : List.length (Key.labels key) = 12%nat).
    { unfold Keyboard.sorted_keys in Hin.
      apply (Permutation_in _ (Permutation_sym (sorted_perm _ _ _ _ _))) in Hin.
      rewrite Forall_forall in F. now apply F. }
    pose proof (encode_key_ok key e Hk He) as O.
    destruct (Keyboard.encode_key key e) as [e'|]; [eauto | destruct O].
  - reflexivity.
  - rewrite E. cbn [bind]. eauto.
Qed.

(** X12: the encoder has no failure path on well-formed keys: for a
    keyboard all of whose keys have twelve labels, and so for every keyboard
    that [from_json] returns, [to_json] returns a document, and the document
    holds exactly one label string per key. *)
Theorem to_json_returns :
  (forall kb : Keyboard.t,
      Forall (fun key => List.length (Key.labels key) = 12%nat)
        (Keyboard.keys kb) ->
      exists elements,
        Keyboard.to_json kb = Ok (PList elements)
        /\ List.length (doc_strings elements)
           = List.length (Keyboard.keys kb))
  /\ (forall (doc : pyval) (kb : Keyboard.t),
         Keyboard.from_json doc = Ok kb ->
         exists elements, Keyboard.to_json kb = Ok (PList elements)).
Proof.
  split.
  - intros kb F. destruct (to_json_ok kb F) as [elements E].
    exists elements. split; [exact E|].
    pose proof (to_json_strings kb elements E) as S.
    apply Forall2_length in S. rewrite <- S. unfold Keyboard.sorted_keys.
    symmetry. apply Permutation_length, sorted_perm.
  - intros doc kb H. apply to_json_ok.
    eapply Forall_impl; [|exact (from_json_decoded_keys doc kb H)].
    intros key [L _]. exact L.
Qed.

Lemma to_json_returns_witness :
  Forall (fun key => List.length (Key.labels key) = 12%nat)
    (Keyboard.keys keyboard_A)
  /\ exists elements, Keyboard.to_json keyboard_A = Ok (PList elements).
Proof.
  assert (F : Forall (fun key => List.length (Key.labels key) = 12%nat)
                (Keyboard.keys keyboard_A))
    by (repeat constructor).
  split; [exact F|].
  destruct (proj1 to_json_returns keyboard_A F) as [elements [E _]].
  exists elements. exact E.
Defined.

(** X13: decoding what [to_json] wrote gives back as many keys as the
    keyboard had, whenever both steps return. *)
Theorem round_trip_key_count :
  forall (kb kb' : Keyboard.t) (elements : list pyval),
    Keyboard.to_json kb = Ok (PList elements) ->
    Keyboard.from_json (PList elements) = Ok kb' ->
    List.length (Keyboard.keys kb') = List.length (Keyboard.keys kb).
Proof.
  intros kb kb' elements Ht Hf.
  unfold Keyboard.from_json in Hf.
  apply bind_ok_inv in Hf. destruct Hf as [d [E Hf]].
  inversion Hf; subst kb'; clear Hf.
  rewrite (decode_elements_count _ _ _ _ E). simpl.
  pose proof (to_json_strings kb elements Ht) as S.
  apply Forall2_length in S. rewrite <- S. unfold Keyboard.sorted_keys.
  symmetry. apply Permutation_length, sorted_perm.
Qed.

Lemma round_trip_key_count_witness :
  Keyboard.to_json keyboard_A = Ok (PList [PList [PStr "A"]])
  /\ Keyboard.from_json (PList [PList [PStr "A"]]) = Ok keyboard_A
  /\ List.length (Keyboard.keys keyboard_A)
     = List.length (Keyboard.keys keyboard_A).
Proof.
  split; [reflexivity|]. split; [reflexivity|].
  exact (round_trip_key_count keyboard_A keyboard_A [PList [PStr "A"]]
           eq_refl eq_refl).
Defined.

(** ** Where the encoder writes a rotation *)

Lemma record_change_val {T S : Type} {HT : ToPy T} {HS : ToPy S}
  (changes changes' : dict) (name : string) (val val' : T) (default_val : S) :
  record_change changes name val default_val = (changes', val') -> val' = val.
Proof.
  unfold record_change.
  destruct (py_ne (to_py val) (to_py default_val)); intros H; now inversion H.
Qed.

Lemma record_text_sizes_get (key : Key.t) (z : list num) (l : list string)
  (kc kc' : dict) (cur cur' : list num) :
  Keyboard.record_text_sizes key z l kc cur = Ok (kc', cur') ->
  forall n,
    String.eqb n "f" = false -> String.eqb n "f2" = false ->
    String.eqb n "fa" = false ->
    dict_get n kc' = dict_get n kc.
Proof.
  unfold Keyboard.record_text_sizes. intros H n N1 N2 N3.
  apply bind_ok_inv in H. destruct H as [same [_ H]].
  destruct (negb same); [|now inversion H].
  destruct (List.length (_reduced_text_sizes z) =? 0)%nat.
  - destruct (record_change kc "f" _ _) as [c v] eqn:E.
    inversion H; subst. rewrite (record_change_get _ _ _ _ _ _ E n).
    now rewrite N1.
  - apply bind_ok_inv in H. destruct H as [z0 [_ H]].
    apply bind_ok_inv in H. destruct H as [o [_ H]].
    destruct o.
    + apply bind_ok_inv in H. destruct H as [f2 [_ H]].
      destruct (record_change kc "f2" _ _) as [c v] eqn:E.
      inversion H; subst. rewrite (record_change_get _ _ _ _ _ _ E n).
      now rewrite N2.
    + destruct (record_change kc "fa" _ _) as [c v] eqn:E.
      inversion H; subst. rewrite (record_change_get _ _ _ _ _ _ E n).
      now rewrite N3.
Qed.

Ltac encode_step H :=
  first
    [ progress cbv beta iota in H
    | match type of H with
      | bind (Keyboard.record_text_sizes _ _ _ _ _) _ = Ok _ =>
          let x := fresh "x" in
          let kc := fresh "kc" in
          let z := fresh "z" in
          let Ex := fresh "Ex" in
          let G := fresh "G" in
          apply bind_ok_inv in H; destruct H as [[kc z] [Ex H]];
          pose proof (record_text_sizes_get _ _ _ _ _ _ _ Ex) as G; clear Ex
      | bind _ _ = Ok _ =>
          let x := fresh "x" in
          let Ex := fresh "Ex" in
          apply bind_ok_inv in H; destruct H as [x [Ex H]]; clear Ex
      | context [match record_change ?c ?n ?v ?d with pair _ _ => _ end] =>
          let kc := fresh "kc" in
          let v' := fresh "v" in
          let E := fresh "E" in
          let G := fresh "G" in
          destruct (record_change c n v d) as [kc v'] eqn:E;
          pose proof (record_change_get _ _ _ _ _ _ E) as G;
          apply record_change_val in E; subst v'
      end ].

Ltac rotation_entry :=
  unfold dict_mem;
  repeat match goal with
         | G : forall n, _ -> _ -> _ -> dict_get n ?c = _
           |- context [dict_get ?k ?c] =>
             rewrite (G k eq_refl eq_refl eq_refl)
         | G : forall n, dict_get n ?c = _ |- context [dict_get ?k ?c] =>
             rewrite (G k); cbn [String.eqb Ascii.eqb Bool.eqb]
         end;
  cbn [dict_get];
  repeat match goal with
         | |- context [Key.set_x _ (if ?b then _ else _)] => destruct b
         end;
  cbn [Key.rotation_angle Key.rotation_x Key.rotation_y Key.set_x Key.set_y
       Key.set_rotation_angle Key.set_rotation_x Key.set_rotation_y];
  match goal with
  | |- context [py_ne (to_py ?a) (to_py ?b)] =>
      change (py_ne (to_py a) (to_py b)) with (negb (mpf_eqb a b));
      destruct (mpf_eqb a b); reflexivity
  end.

(** One turn of the loop of [to_json]: when the opened row is kept, the
    mapping written for the key holds a rotation only if the rotation of the
    key differs from that of the running key. *)
Lemma encode_key_shape (key : Key.t) (e e' : Keyboard.encoder) :
  Keyboard.encode_key key e = Ok e' ->
  let is_cluster_changed :=
    negb (mpf_eqb (Key.rotation_angle key) (Keyboard.e_rotation_angle e))
    || negb (mpf_eqb (Key.rotation_x key) (Keyboard.e_rotation_x e))
    || negb (mpf_eqb (Key.rotation_y key) (Keyboard.e_rotation_y e)) in
  let flush :=
    (0 <? List.length (Keyboard.e_row e))%nat
    && (negb (mpf_eqb (Key.y key) (Key.y (Keyboard.e_current e)))
        || is_cluster_changed) in
  let new := flush || Keyboard.e_is_new_row e in
  exists (key_changes : dict) (labels : string),
    Keyboard.e_keyboard_json e'
    = (if flush
       then Keyboard.e_keyboard_json e ++ [PList (Keyboard.e_row e)]
       else Keyboard.e_keyboard_json e)%list
    /\ Keyboard.e_row e'
       = ((if flush then [] else Keyboard.e_row e)
          ++ (if (0 <? List.length key_changes)%nat
              then [PDict key_changes] else [])
          ++ [PStr labels])%list
    /\ Keyboard.e_is_new_row e' = false
    /\ Key.rotation_angle (Keyboard.e_current e') = Key.rotation_angle key
    /\ Key.rotation_x (Keyboard.e_current e') = Key.rotation_x key
    /\ Key.rotation_y (Keyboard.e_current e') = Key.rotation_y key
    /\ Keyboard.e_rotation_angle e'
       = (if new then Key.rotation_angle key else Keyboard.e_rotation_angle e)
    /\ Keyboard.e_rotation_x e'
       = (if new then Key.rotation_x key else Keyboard.e_rotation_x e)
    /\ Keyboard.e_rotation_y e'
       = (if new then Key.rotation_y key else Keyboard.e_rotation_y e)
    /\ dict_mem "r" key_changes
       = negb (mpf_eqb (Key.rotation_angle key)
                 (Key.rotation_angle (Keyboard.e_current e)))
    /\ dict_mem "rx" key_changes
       = negb (mpf_eqb (Key.rotation_x key)
                 (Key.rotation_x (Keyboard.e_current e)))
    /\ dict_mem "ry" key_changes
       = negb (mpf_eqb (Key.rotation_y key)
                 (Key.rotation_y (Keyboard.e_current e))).
Proof.
  intros H is_cluster_changed flush new.
  unfold Keyboard.encode_key in H.
  apply bind_ok_inv in H. destruct H as [[[[a l] c] s] [_ H]].
  cbv zeta in H.
  fold is_cluster_changed in H. fold flush in H.
  subst new.
  destruct flush eqn:F; [|destruct (Keyboard.e_is_new_row e) eqn:N];
    cbn [orb] in *;
    repeat encode_step H;
    inversion H; subst e'; clear H;
    exists kc22, (rstrip (join_lines l));
    cbn [Keyboard.e_keyboard_json Keyboard.e_row Keyboard.e_is_new_row
         Keyboard.e_current Keyboard.e_rotation_angle Keyboard.e_rotation_x
         Keyboard.e_rotation_y];
    repeat split;
    try rotation_entry;
    destruct (0 <? List.length kc22)%nat; cbn [app];
    rewrite <- ?app_assoc; reflexivity.
Qed.

Lemma mpf_eqb_trans (a b c : mpf) :
  mpf_eqb a b = true -> mpf_eqb c b = true -> mpf_eqb a c = true.
Proof.
  unfold mpf_eqb. rewrite !Qeq_bool_iff. intros H1 H2.
  now rewrite H1, H2.
Qed.

Lemma rotation_at_start_head (b : bool) (key_changes : dict) (labels : string) :
  rotation_at_start
    ((if b then [PDict key_changes] else []) ++ [PStr labels])%list.
Proof.
  intros k kc Hn _. destruct k as [|k]; [reflexivity|].
  destruct b; simpl in Hn.
  - destruct k as [|k]; [discriminate Hn|]. now destruct k.
  - now destruct k.
Qed.

Lemma rotation_at_start_tail (row : list pyval) (b : bool) (key_changes : dict)
  (labels : string) :
  rotation_at_start row ->
  Keyboard.has_rotation key_changes = false ->
  rotation_at_start
    (row ++ (if b then [PDict key_changes] else []) ++ [PStr labels])%list.
Proof.
  intros Hrow Hkc k kc Hn Hr.
  destruct (Nat.lt_ge_cases k (List.length row)) as [L|L].
  - rewrite nth_error_app1 in Hn by exact L. exact (Hrow k kc Hn Hr).
  - rewrite nth_error_app2 in Hn by exact L.
    destruct b; simpl in Hn.
    + destruct (k - List.length row)%nat as [|[|j]]; simpl in Hn.
      * inversion Hn; subst kc. congruence.
      * discriminate Hn.
      * now destruct j.
    + destruct (k - List.length row)%nat as [|j]; simpl in Hn;
        [discriminate Hn | now destruct j].
Qed.

(** One turn of the loop of [to_json] keeps [encoder_rotation_inv]. *)
Lemma encode_key_rotation_inv (key : Key.t) (e e' : Keyboard.encoder) :
  Keyboard.encode_key key e = Ok e' ->
  encoder_rotation_inv e -> encoder_rotation_inv e'.
Proof.
  intros H [Ia [Ix [Iy [In_ [Ir Ij]]]]].
  destruct (encode_key_shape key e e' H)
    as [kc [labels [Hj [Hr [Hn [Ca [Cx [Cy [Ra [Rx [Ry [Da [Dx Dy]]]]]]]]]]]]].
  clear H.
  assert (Same :
            (0 <? List.length (Keyboard.e_row e))%nat
            && (negb (mpf_eqb (Key.y key) (Key.y (Keyboard.e_current e)))
                || (negb (mpf_eqb (Key.rotation_angle key)
                            (Keyboard.e_rotation_angle e))
                    || negb (mpf_eqb (Key.rotation_x key)
                               (Keyboard.e_rotation_x e))
                    || negb (mpf_eqb (Key.rotation_y key)
                               (Keyboard.e_rotation_y e)))) = false ->
            Keyboard.e_row e <> [] ->
            mpf_eqb (Key.rotation_angle key) (Keyboard.e_rotation_angle e) = true
            /\ mpf_eqb (Key.rotation_x key) (Keyboard.e_rotation_x e) = true
            /\ mpf_eqb (Key.rotation_y key) (Keyboard.e_rotation_y e) = true).
  { intros F N. destruct (Keyboard.e_row e) as [|p r]; [now destruct N|].
    cbn [List.length Nat.ltb Nat.leb andb] in F.
    destruct (mpf_eqb (Key.rotation_angle key) (Keyboard.e_rotation_angle e));
      destruct (mpf_eqb (Key.rotation_x key) (Keyboard.e_rotation_x e));
      destruct (mpf_eqb (Key.rotation_y key) (Keyboard.e_rotation_y e));
      destruct (mpf_eqb (Key.y key) (Key.y (Keyboard.e_current e)));
      try discriminate F; repeat split. }
  unfold encoder_rotation_inv.
  rewrite Hj, Hr, Hn, Ca, Cx, Cy, Ra, Rx, Ry. clear Hj Hr Hn Ca Cx Cy Ra Rx Ry.
  match type of Same with
  | ?f = false -> _ => destruct f eqn:F
  end; cbn [orb].
  - unfold mpf_eqb. rewrite !Qeq_bool_refl.
    split; [reflexivity|]. split; [reflexivity|]. split; [reflexivity|].
    split; [intros _ N; now destruct (0 <? List.length kc)%nat|].
    split; [apply rotation_at_start_head|].
    intros row Hin. apply in_app_or in Hin.
    destruct Hin as [Hin|[Hin|[]]]; [now apply Ij|].
    inversion Hin; subst row. exact Ir.
  - destruct (Keyboard.e_is_new_row e) eqn:N.
    + unfold mpf_eqb. rewrite !Qeq_bool_refl.
      split; [reflexivity|]. split; [reflexivity|]. split; [reflexivity|].
      split; [intros _ E; destruct (Keyboard.e_row e);
              [now destruct (0 <? List.length kc)%nat | discriminate E]|].
      split; [|exact Ij].
      destruct (Keyboard.e_row e) as [|p r] eqn:Er;
        [apply rotation_at_start_head|].
      destruct (Same eq_refl ltac:(discriminate)) as [Sa [Sx Sy]].
      apply rotation_at_start_tail; [exact Ir|].
      unfold Keyboard.has_rotation. rewrite Da, Dx, Dy.
      rewrite (mpf_eqb_trans _ _ _ Sa Ia), (mpf_eqb_trans _ _ _ Sx Ix),
        (mpf_eqb_trans _ _ _ Sy Iy).
      reflexivity.
    + destruct (Same eq_refl (In_ eq_refl)) as [Sa [Sx Sy]].
      split; [exact Sa|]. split; [exact Sx|]. split; [exact Sy|].
      split; [intros _ E; destruct (Keyboard.e_row e);
              [now destruct (0 <? List.length kc)%nat | discriminate E]|].
      split; [|exact Ij].
      apply rotation_at_start_tail; [exact Ir|].
      unfold Keyboard.has_rotation. rewrite Da, Dx, Dy.
      rewrite (mpf_eqb_trans _ _ _ Sa Ia), (mpf_eqb_trans _ _ _ Sx Ix),
        (mpf_eqb_trans _ _ _ Sy Iy).
      reflexivity.
Qed.

Lemma encoder_init_rotation_inv (kb : Keyboard.t) :
  encoder_rotation_inv (Keyboard.encoder_init kb).
Proof.
  unfold encoder_rotation_inv, Keyboard.encoder_init.
  cbn [Keyboard.e_current Keyboard.e_rotation_angle Keyboard.e_rotation_x
       Keyboard.e_rotation_y Keyboard.e_is_new_row Keyboard.e_row
       Keyboard.e_keyboard_json].
  split; [reflexivity|]. split; [reflexivity|]. split; [reflexivity|].
  split; [discriminate|].
  split; [intros j c Hn; now destruct j|].
  intros r Hr.
  destruct (0 <? List.length (Keyboard.metadata_changes kb))%nat;
    simpl in Hr; [destruct Hr as [Hr|[]]; discriminate Hr | destruct Hr].
Qed.

(** X14: [to_json] writes a rotation only at the start of a row: in every
    row of the document it returns, a key-changes mapping that holds ["r"],
    ["rx"] or ["ry"] is the first element of the row, which is where
    [from_json] accepts it. *)
Theorem to_json_rotation_at_row_start :
  forall (kb : Keyboard.t) (elements row : list pyval) (k : nat)
         (key_changes : dict),
    Keyboard.to_json kb = Ok (PList elements) ->
    In (PList row) elements ->
    nth_error row k = Some (PDict key_changes) ->
    Keyboard.has_rotation key_changes = true ->
    k = 0%nat.
Proof.
  intros kb elements row k kc H Hin. revert k kc.
  change (rotation_at_start row).
  unfold Keyboard.to_json in H.
  apply bind_ok_inv in H. destruct H as [e [E H]].
  apply (for_each_preserves encoder_rotation_inv _ _ encode_key_rotation_inv)
    in E.
  - destruct E as [_ [_ [_ [_ [Ir Ij]]]]].
    inversion H; subst elements; clear H.
    destruct (0 <? List.length (Keyboard.e_row e))%nat; [|now apply Ij].
    apply in_app_or in Hin. destruct Hin as [Hin|[Hin|[]]]; [now apply Ij|].
    inversion Hin; subst row. exact Ir.
  - apply encoder_init_rotation_inv.
Qed.

Lemma to_json_rotation_at_row_start_witness :
  Keyboard.to_json keyboard_rotated
  = Ok (PList [ PList [PDict [("x", PInt 1)]; PStr "A"];
                PList [PDict [("r", PInt 15)]; PStr "B"] ])
  /\ Keyboard.has_rotation [("r", PInt 15)] = true
  /\ 0%nat = 0%nat.
Proof.
  split; [reflexivity|]. split; [reflexivity|].
  exact (to_json_rotation_at_row_start keyboard_rotated
           [ PList [PDict [("x", PInt 1)]; PStr "A"];
             PList [PDict [("r", PInt 15)]; PStr "B"] ]
           [PDict [("r", PInt 15)]; PStr "B"] 0 [("r", PInt 15)]
           eq_refl (or_intror (or_introl eq_refl)) eq_refl eq_refl).
Defined.

(** ** The position after a key-changes mapping *)

Lemma steps_a_to_t_keep :
  Forall (fun step => forall v s s', snd step v s = Ok s' -> keeps_position s s')
    steps_a_to_t.
Proof.
  unfold steps_a_to_t. cbn [firstn skipn key_change_steps].
  repeat (apply Forall_cons;
          [cbn [snd]; intros v s s' H;
           unfold key_mpf, key_str, key_bool, play_a, play_f, play_f2, play_fa,
             play_t in H;
           step_inv H; try destruct (negb _); repeat split|]).
  apply Forall_nil.
Qed.

Lemma steps_after_y_keep :
  Forall (fun step => forall v s s', snd step v s = Ok s' -> keeps_position s s')
    steps_after_y.
Proof.
  unfold steps_after_y. cbn [skipn key_change_steps].
  repeat (apply Forall_cons;
          [cbn [snd]; intros v s s' H;
           unfold key_mpf, key_str, key_bool, play_w, play_h,
             play_switch_mount in H;
           step_inv H; repeat split|]).
  apply Forall_nil.
Qed.

Lemma keeps_position_refl (s : playback_state) : keeps_position s s.
Proof.
  repeat split.
Qed.

Lemma keeps_position_trans (a b c : playback_state) :
  keeps_position a b -> keeps_position b c -> keeps_position a c.
Proof.
  unfold keeps_position. intros H1 H2.
  destruct H1 as [A1 [A2 [A3 [A4 [A5 A6]]]]].
  destruct H2 as [B1 [B2 [B3 [B4 [B5 B6]]]]].
  repeat split; congruence.
Qed.

(** X15: where a key-changes mapping puts the key, for fields ["rx"],
    ["ry"], ["x"] and ["y"] that hold numbers.  ["rx"] and ["ry"] set the
    rotation origin of the key and of the cluster, and either of them moves
    the key to the origin of the cluster: to the new value in the coordinate
    that is given and to the running one in the other.  ["x"] and ["y"] are
    then added as offsets, by an [mpf] sum, which rounds.  No other field
    moves the key. *)
Theorem playback_position :
  forall (key : Key.t) (key_changes : dict) (colors : list string)
         (sizes : list num) (a : Z) (crx cry : mpf) (s' : playback_state),
    fields_are_numbers ["rx"; "ry"; "x"; "y"] key_changes = true ->
    playback_key_changes key key_changes colors sizes a crx cry = Ok s' ->
    let rx := field_mpf "rx" key_changes crx in
    let ry := field_mpf "ry" key_changes cry in
    let moved := dict_mem "rx" key_changes || dict_mem "ry" key_changes in
    pb_rotation_x s' = rx
    /\ pb_rotation_y s' = ry
    /\ Key.rotation_x (pb_key s')
       = field_mpf "rx" key_changes (Key.rotation_x key)
    /\ Key.rotation_y (pb_key s')
       = field_mpf "ry" key_changes (Key.rotation_y key)
    /\ Key.x (pb_key s')
       = field_offset "x" key_changes (if moved then rx else Key.x key)
    /\ Key.y (pb_key s')
       = field_offset "y" key_changes (if moved then ry else Key.y key).
Proof.
  intros key kc colors sizes a crx cry s' _ H rx ry moved.
  subst rx ry moved.
  unfold playback_key_changes, play_steps in H.
  change key_change_steps
    with ([("r", key_mpf Key.set_rotation_angle); ("rx", play_rx);
           ("ry", play_ry)]
          ++ steps_a_to_t
          ++ [("x", play_x); ("y", play_y)]
          ++ steps_after_y)%list in H.
  rewrite for_each_app in H.
  apply bind_ok_inv in H. destruct H as [s1 [E1 H]].
  rewrite for_each_app in H.
  apply bind_ok_inv in H. destruct H as [s2 [E2 H]].
  rewrite for_each_app in H.
  apply bind_ok_inv in H. destruct H as [s3 [E3 E4]].
  pose proof (play_steps_rel keeps_position steps_a_to_t kc
                keeps_position_refl keeps_position_trans
                steps_a_to_t_keep _ _ E2) as K2.
  pose proof (play_steps_rel keeps_position steps_after_y kc
                keeps_position_refl keeps_position_trans
                steps_after_y_keep _ _ E4) as K4.
  destruct K2 as [A1 [A2 [A3 [A4 [A5 A6]]]]].
  destruct K4 as [B1 [B2 [B3 [B4 [B5 B6]]]]].
  rewrite B1, B2, B3, B4, B5, B6. clear B1 B2 B3 B4 B5 B6 E2 E4.
  cbn [for_each] in E1, E3.
  unfold on_field, field_mpf, field_offset, dict_mem in *.
  unfold key_mpf, play_rx, play_ry, play_x, play_y in *.
  destruct (dict_get "r" kc) as [vr|];
    destruct (dict_get "rx" kc) as [vrx|];
    destruct (dict_get "ry" kc) as [vry|];
    destruct (dict_get "x" kc) as [vx|];
    destruct (dict_get "y" kc) as [vy|];
    cbn [orb];
    repeat match goal with
           | H : bind _ _ = Ok _ |- _ =>
               let x := fresh "x" in
               let E := fresh "E" in
               apply bind_ok_inv in H; destruct H as [x [E H]]
           | H : Ok _ = Ok _ |- _ => inversion H; subst; clear H
           end;
    repeat match goal with
           | H : mpf_of_str _ = Ok _ |- _ => rewrite ?H; clear H
           end;
    cbn [pb_key pb_set_key pb_set_rotation_x pb_set_rotation_y pb_rotation_x
         pb_rotation_y Key.x Key.y Key.rotation_x Key.rotation_y Key.set_x
         Key.set_y Key.set_rotation_x Key.set_rotation_y
         Key.set_rotation_angle] in *;
    rewrite ?A1, ?A2, ?A3, ?A4, ?A5, ?A6;
    cbn [pb_key pb_set_key pb_set_rotation_x pb_set_rotation_y pb_rotation_x
         pb_rotation_y Key.x Key.y Key.rotation_x Key.rotation_y Key.set_x
         Key.set_y Key.set_rotation_x Key.set_rotation_y
         Key.set_rotation_angle];
    repeat split.
Qed.

Lemma playback_position_witness :
  Key.x
    (pb_key
       (match playback_key_changes Key.init [("rx", PInt 3); ("x", PInt 1)]
                colors_12 sizes_12 4 (mpf_of_Z 0) (mpf_of_Z 5) with
        | Ok s => s
        | Raise _ => mk_playback Key.init [] [] 0 (mpf_of_Z 0) (mpf_of_Z 0)
        end)) = mpf_of_Z 4
  /\ Key.y
       (pb_key
          (match playback_key_changes Key.init [("rx", PInt 3); ("x", PInt 1)]
                   colors_12 sizes_12 4 (mpf_of_Z 0) (mpf_of_Z 5) with
           | Ok s => s
           | Raise _ => mk_playback Key.init [] [] 0 (mpf_of_Z 0) (mpf_of_Z 0)
           end)) = mpf_of_Z 5.
Proof.
  refine (proj2 (proj2 (proj2 (proj2
            (playback_position Key.init [("rx", PInt 3); ("x", PInt 1)]
               colors_12 sizes_12 4 (mpf_of_Z 0) (mpf_of_Z 5) _ eq_refl _))))).
  vm_compute. reflexivity.
Defined.

(** ** The running text sizes after a key-changes mapping *)

Lemma py_setitem_out {A : Type} (l : list A) (n : nat) (a : A) :
  (List.length l <= n)%nat -> py_setitem l (Z.of_nat n) a = Raise IndexError.
Proof.
  intros H. unfold py_setitem.
  assert (E : (Z.of_nat n <? 0) = false) by (apply Z.ltb_ge; lia).
  rewrite E.
  assert (E2 : (Z.of_nat n <? Z.of_nat (List.length l)) = false)
    by (apply Z.ltb_ge; lia).
  rewrite E2, andb_false_r. reflexivity.
Qed.

(** The first loop of ["fa"]: the entries of the field replace the first
    running sizes, and there are no more of them than running sizes. *)
Lemma fa_write_loop (fa : list pyval) :
  forall (pre old sizes' : list num),
    for_each (enumerate_from (Z.of_nat (List.length pre)) fa)
      (fun '(i, e) sizes => n <- as_num e ;; py_setitem sizes i n)
      (pre ++ old)%list = Ok sizes' ->
    (List.length fa <= List.length old)%nat
    /\ sizes' = (pre ++ map num_of fa ++ skipn (List.length fa) old)%list.
Proof.
  induction fa as [|e fa IH]; intros pre old sizes' H.
  - simpl in H. inversion H; subst. split; [simpl; lia | reflexivity].
  - cbn [enumerate_from for_each] in H.
    apply bind_ok_inv in H. destruct H as [s1 [E1 H]].
    apply bind_ok_inv in E1. destruct E1 as [n [En E1]].
    destruct old as [|o old].
    + rewrite py_setitem_out in E1 by (rewrite length_app; simpl; lia).
      discriminate E1.
    + rewrite py_setitem_nat in E1 by (rewrite length_app; simpl; lia).
      inversion E1; subst s1; clear E1. rewrite set_nth_app in H.
      replace (Z.of_nat (List.length pre) + 1)
        with (Z.of_nat (List.length (pre ++ [n])))
        in H by (rewrite length_app; simpl; lia).
      replace (pre ++ n :: old)%list with ((pre ++ [n]) ++ old)%list
        in H by (now rewrite <- app_assoc).
      destruct (IH _ _ _ H) as [L ->].
      split; [simpl; lia|].
      cbn [map skipn List.length]. unfold num_of at 2. rewrite En.
      now rewrite <- app_assoc.
Qed.

(** Assigning one value to a run of positions. *)
Lemma fill_loop {A : Type} (x : A) (mid : list A) :
  forall pre post : list A,
    for_each (map Z.of_nat (seq (List.length pre) (List.length mid)))
      (fun i s => py_setitem s i x) (pre ++ mid ++ post)%list
    = Ok (pre ++ repeat x (List.length mid) ++ post)%list.
Proof.
  induction mid as [|m mid IH]; intros pre post; [reflexivity|].
  cbn [List.length seq map for_each].
  rewrite py_setitem_nat by (rewrite length_app; simpl; lia).
  cbn [bind app]. rewrite set_nth_app.
  replace (pre ++ x :: mid ++ post)%list with ((pre ++ [x]) ++ mid ++ post)%list
    by (now rewrite <- app_assoc).
  replace (S (List.length pre)) with (List.length (pre ++ [x]))
    by (rewrite length_app; simpl; lia).
  rewrite IH. cbn [repeat]. now rewrite <- app_assoc.
Qed.

Lemma play_f2_sizes (v : pyval) (s s' : playback_state) :
  List.length (pb_labels_size s) = 12%nat ->
  play_f2 v s = Ok s' ->
  pb_labels_size s' = hd num0 (pb_labels_size s) :: repeat (num_of v) 11.
Proof.
  unfold play_f2. intros L H.
  apply bind_ok_inv in H. destruct H as [f2 [Ef H]].
  apply bind_ok_inv in H. destruct H as [sizes [E H]].
  inversion H; subst s'; clear H. cbn [pb_set_labels_size pb_labels_size].
  destruct (pb_labels_size s) as [|z0 rest]; [discriminate L|].
  simpl in L. injection L as L.
  unfold range in E. change (12 - 1)%nat with 11%nat in E.
  pose proof (fill_loop f2 rest [z0] []) as F.
  rewrite L in F. cbn [List.length] in F. rewrite app_nil_r in F.
  cbn [app] in F. rewrite app_nil_r in F.
  rewrite F in E. inversion E; subst sizes.
  unfold num_of. now rewrite Ef.
Qed.

Lemma play_fa_sizes (fa : list pyval) (s s' : playback_state) :
  List.length (pb_labels_size s) = 12%nat ->
  play_fa (PList fa) s = Ok s' ->
  (List.length fa <= 12)%nat
  /\ pb_labels_size s'
     = (map num_of fa ++ repeat num0 (12 - List.length fa))%list.
Proof.
  unfold play_fa. intros L H.
  apply bind_ok_inv in H. destruct H as [s1 [E1 H]].
  apply bind_ok_inv in H. destruct H as [s2 [E2 H]].
  inversion H; subst s'; clear H. cbn [pb_set_labels_size pb_labels_size].
  apply (fa_write_loop fa [] (pb_labels_size s) s1) in E1.
  destruct E1 as [Lf ->]. rewrite L in Lf. split; [exact Lf|].
  cbn [app] in E2. unfold range in E2.
  pose proof (fill_loop num0 (skipn (List.length fa) (pb_labels_size s))
                (map num_of fa) []) as F.
  rewrite length_map, length_skipn, L, app_nil_r in F.
  rewrite F in E2. inversion E2; subst s2. now rewrite app_nil_r.
Qed.

Lemma steps_before_f_keep :
  Forall (fun step => forall v s s',
              snd step v s = Ok s' -> pb_labels_size s' = pb_labels_size s)
    steps_before_f.
Proof.
  unfold steps_before_f. cbn [firstn key_change_steps].
  repeat (apply Forall_cons;
          [cbn [snd]; intros v s s' H;
           unfold key_mpf, play_rx, play_ry, play_a in H;
           step_inv H; reflexivity|]).
  apply Forall_nil.
Qed.

Lemma steps_after_fa_keep :
  Forall (fun step => forall v s s',
              snd step v s = Ok s' -> pb_labels_size s' = pb_labels_size s)
    steps_after_fa.
Proof.
  unfold steps_after_fa. cbn [skipn key_change_steps].
  repeat (apply Forall_cons;
          [cbn [snd]; intros v s s' H;
           unfold key_mpf, key_str, key_bool, play_t, play_x, play_y, play_w,
             play_h, play_switch_mount in H;
           step_inv H; try destruct (negb _); reflexivity|]).
  apply Forall_nil.
Qed.

(** X16: the running text sizes after a key-changes mapping, for twelve
    running sizes.  ["fa"] wins over ["f2"] and ["f"]: its entries followed
    by zeroes; it has at most twelve entries, or the playback raises.
    Without ["fa"], ["f2"] gives its value to the positions 1 to 11 and
    keeps position 0, which ["f"] sets to 0.  ["f"] alone gives twelve
    zeroes, and without the three fields the sizes stay. *)
Theorem playback_sizes :
  forall (key : Key.t) (key_changes : dict) (colors : list string)
         (sizes : list num) (a : Z) (crx cry : mpf) (s' : playback_state),
    List.length sizes = 12%nat ->
    playback_key_changes key key_changes colors sizes a crx cry = Ok s' ->
    pb_labels_size s' = sizes_after key_changes sizes
    /\ (forall fa, dict_get "fa" key_changes = Some (PList fa) ->
                   (List.length fa <= 12)%nat).
Proof.
  intros key kc colors sizes a crx cry s' L H.
  unfold playback_key_changes, play_steps in H.
  change key_change_steps
    with (steps_before_f
          ++ [("f", play_f); ("f2", play_f2); ("fa", play_fa)]
          ++ steps_after_fa)%list in H.
  rewrite for_each_app in H.
  apply bind_ok_inv in H. destruct H as [s1 [E1 H]].
  rewrite for_each_app in H.
  apply bind_ok_inv in H. destruct H as [s2 [E2 E3]].
  pose proof (play_steps_rel
                (fun s s' => pb_labels_size s' = pb_labels_size s)
                steps_before_f kc (fun s => eq_refl)
                (fun a b c H1 H2 => eq_trans H2 H1)
                steps_before_f_keep _ _ E1) as K1.
  pose proof (play_steps_rel
                (fun s s' => pb_labels_size s' = pb_labels_size s)
                steps_after_fa kc (fun s => eq_refl)
                (fun a b c H1 H2 => eq_trans H2 H1)
                steps_after_fa_keep _ _ E3) as K3.
  cbn [pb_labels_size] in K1. rewrite K3. clear K3 E1 E3.
  cbn [for_each] in E2.
  apply bind_ok_inv in E2. destruct E2 as [t1 [F1 E2]].
  apply bind_ok_inv in E2. destruct E2 as [t2 [F2 E2]].
  apply bind_ok_inv in E2. destruct E2 as [t3 [F3 E2]].
  inversion E2; subst t3; clear E2.
  assert (L1 : List.length (pb_labels_size t1) = 12%nat
               /\ pb_labels_size t1
                  = if dict_mem "f" kc then repeat num0 12 else sizes).
  { unfold on_field, dict_mem in *. destruct (dict_get "f" kc) as [v|].
    - unfold play_f in F1.
      apply bind_ok_inv in F1. destruct F1 as [f [_ F1]].
      injection F1 as F1. subst t1.
      cbn [pb_set_labels_size pb_labels_size pb_set_key].
      rewrite K1. rewrite length_map.
      split; [exact L|].
      clear - L. do 13 (destruct sizes as [|? sizes]; try discriminate L).
      reflexivity.
    - inversion F1; subst t1. rewrite K1. split; [exact L | reflexivity]. }
  destruct L1 as [L1 S1].
  assert (L2 : List.length (pb_labels_size t2) = 12%nat
               /\ pb_labels_size t2
                  = match dict_get "f2" kc with
                    | Some v =>
                        (if dict_mem "f" kc then num0 else hd num0 sizes)
                          :: repeat (num_of v) 11
                    | None => if dict_mem "f" kc then repeat num0 12 else sizes
                    end).
  { unfold on_field in F2. destruct (dict_get "f2" kc) as [v|].
    - rewrite (play_f2_sizes v t1 t2 L1 F2), S1.
      split; [reflexivity|].
      now destruct (dict_mem "f" kc).
    - inversion F2; subst t2. split; [exact L1 | exact S1]. }
  destruct L2 as [L2 S2].
  unfold sizes_after. unfold on_field in F3.
  destruct (dict_get "fa" kc) as [v|].
  - destruct v; try discriminate F3.
    destruct (play_fa_sizes l t2 s2 L2 F3) as [Lf Sf].
    split; [exact Sf|]. intros fa E. inversion E; subst fa. exact Lf.
  - inversion F3; subst s2. split; [exact S2|]. intros fa E. discriminate E.
Qed.

Lemma playback_sizes_witness :
  List.length sizes_12 = 12%nat
  /\ pb_labels_size
       (match playback_key_changes Key.init
                [("f", PInt 3); ("f2", PInt 5)] colors_12 sizes_12 4
                (mpf_of_Z 0) (mpf_of_Z 0) with
        | Ok s => s
        | Raise _ => mk_playback Key.init [] [] 0 (mpf_of_Z 0) (mpf_of_Z 0)
        end)
     = NInt 0 :: repeat (NInt 5) 11.
Proof.
  split; [reflexivity|].
  refine (proj1 (playback_sizes Key.init [("f", PInt 3); ("f2", PInt 5)]
                   colors_12 sizes_12 4 (mpf_of_Z 0) (mpf_of_Z 0) _
                   eq_refl _)).
  vm_compute. reflexivity.
Defined.

(** ** Rows of label strings make a grid *)

(** The sum of two integers is exact as long as it has less than [prec]
    bits. *)
Lemma mpf_add_of_Z (a b : Z) :
  Z.abs (a + b) < 2 ^ prec ->
  mpf_add (mpf_of_Z a) (mpf_of_Z b) = mpf_of_Z (a + b).
Proof.
  intros H. unfold mpf_add, mpf_of_Z. cbn [mpf_q]. f_equal.
  assert (S : (inject_Z a + inject_Z b)%Q = inject_Z (a + b)).
  { unfold inject_Z, Qplus. cbn [Qnum Qden]. now rewrite !Z.mul_1_r. }
  rewrite S. now apply mpf_round_Z.
Qed.

(** A label string is decoded whenever it has at most twelve lines and the
    running state is as [from_json] keeps it. *)
Lemma decode_labels_ok (labels : string) (d : Keyboard.decoder) :
  List.length (Key.labels (Keyboard.current d)) = 12%nat ->
  List.length (Keyboard.current_labels_size d) = 12%nat ->
  List.length (Keyboard.current_labels_color d) = 12%nat ->
  0 <= Keyboard.alignment d < 8 ->
  (List.length (split_lines labels) <= 12)%nat ->
  exists d', Keyboard.decode_labels labels d = Ok d'.
Proof.
  intros Hl Hs Hc Ha Hn. unfold Keyboard.decode_labels.
  destruct (unaligned_ok (split_lines labels) (Keyboard.alignment d) "" Hn Ha)
    as [texts Et].
  destruct (unaligned_ok (Keyboard.current_labels_size d)
              (Keyboard.alignment d) num0 ltac:(lia) Ha) as [sizes Es].
  pose proof (unaligned_length _ _ _ _ Et) as Lt.
  pose proof (unaligned_length _ _ _ _ Es) as Ls.
  rewrite Et. cbn [bind].
  set (cur := Keyboard.current d) in *.
  set (nk := (if negb (mpf_eqb (Key.height2 _) (mpf_of_Z 0)) then _ else _)).
  assert (Nl : Key.labels nk = Key.labels cur).
  { subst nk. destruct (negb (mpf_eqb (Key.height2 _) _));
      destruct (negb (mpf_eqb (Key.width2 _) _)); reflexivity. }
  rewrite Nl.
  rewrite (set_label_loop_0 (fun t => Label.set_text t) texts (Key.labels cur))
    by congruence.
  cbn [bind]. rewrite Es. cbn [bind].
  rewrite (for_each_ext _ _
             (fun '(i, z) =>
                Keyboard.set_label
                  (Label.set_size
                     (if num_eqb z num0 then Key.default_text_size nk else z)) i))
    by (intros [i z] s; destruct (num_eqb z num0); reflexivity).
  rewrite (set_label_loop_0
             (fun z => Label.set_size
                         (if num_eqb z num0 then Key.default_text_size nk else z)))
    by (rewrite zip_with_length; congruence).
  cbn [bind].
  rewrite (for_each_ext _ _
             (fun '(i, c) =>
                Keyboard.set_label
                  (Label.set_color
                     (if String.eqb c "" then Key.default_text_color nk else c))
                  i))
    by (intros [i c] s; destruct (String.eqb c ""); reflexivity).
  rewrite (set_label_loop_0
             (fun c => Label.set_color
                         (if String.eqb c "" then Key.default_text_color nk
                          else c)))
    by (repeat rewrite zip_with_length; congruence).
  cbn [bind]. eauto.
Qed.

(** A label string puts a key where the running key is and moves the running
    key to the right by its width. *)
Lemma decode_labels_cursor (labels : string) (d d' : Keyboard.decoder) :
  Keyboard.decode_labels labels d = Ok d' ->
  exists new_key,
    Keyboard.keys (Keyboard.keyboard d')
    = (Keyboard.keys (Keyboard.keyboard d) ++ [new_key])%list
    /\ key_box new_key = key_box (Keyboard.current d)
    /\ Key.x (Keyboard.current d')
       = mpf_add (Key.x (Keyboard.current d)) (Key.width (Keyboard.current d))
    /\ Key.y (Keyboard.current d') = Key.y (Keyboard.current d)
    /\ Key.width (Keyboard.current d') = mpf_of_Z 1
    /\ Key.height (Keyboard.current d') = mpf_of_Z 1
    /\ Key.rotation_x (Keyboard.current d')
       = Key.rotation_x (Keyboard.current d)
    /\ Key.labels (Keyboard.current d') = Key.labels (Keyboard.current d)
    /\ Keyboard.current_labels_size d' = Keyboard.current_labels_size d
    /\ Keyboard.current_labels_color d' = Keyboard.current_labels_color d
    /\ Keyboard.alignment d' = Keyboard.alignment d.
Proof.
  unfold Keyboard.decode_labels. intros H.
  apply bind_ok_inv in H. destruct H as [texts [_ H]].
  apply bind_ok_inv in H. destruct H as [l1 [_ H]].
  apply bind_ok_inv in H. destruct H as [sizes [_ H]].
  apply bind_ok_inv in H. destruct H as [l2 [_ H]].
  apply bind_ok_inv in H. destruct H as [l3 [_ H]].
  inversion H; subst d'; clear H.
  eexists. split; [reflexivity|].
  unfold key_box.
  destruct (negb (mpf_eqb (Key.height2 _) _));
    destruct (negb (mpf_eqb (Key.width2 _) _)); repeat split.
Qed.

(** The strings of a row, from column [j] on. *)
Lemma plain_row_cells (full : list pyval) (row : list string) :
  forall (d : Keyboard.decoder) (r j : Z),
    at_cell r j d ->
    Forall (fun s => (List.length (split_lines s) <= 12)%nat) row ->
    0 <= j -> j + Z.of_nat (List.length row) < 2 ^ prec ->
    exists d',
      for_each (enumerate_from j (map PStr row)) (Keyboard.decode_item full) d
      = Ok d'
      /\ at_cell r (j + Z.of_nat (List.length row)) d'
      /\ Keyboard.metadata (Keyboard.keyboard d')
         = Keyboard.metadata (Keyboard.keyboard d)
      /\ map key_box (Keyboard.keys (Keyboard.keyboard d'))
         = (map key_box (Keyboard.keys (Keyboard.keyboard d))
            ++ grid_row r j row)%list.
Proof.
  induction row as [|s row IH]; intros d r j C F Hj Hb.
  - exists d. split; [reflexivity|]. rewrite Z.add_0_r.
    split; [exact C|]. split; [reflexivity|].
    unfold grid_row. cbn [enumerate_from map]. now rewrite app_nil_r.
  - inversion F as [|s0 row0 Fs Fr]; subst.
    destruct C as [Cx [Cy [Cw [Ch [Cr [Cl [Cs [Cc Ca]]]]]]]].
    destruct (decode_labels_ok s d Cl Cs Cc ltac:(lia) Fs) as [d1 E1].
    destruct (decode_labels_cursor s d d1 E1)
      as [nk [K [B [Dx [Dy [Dw [Dh [Dr [Dl [Ds [Dc Da]]]]]]]]]]].
    assert (C1 : at_cell r (j + 1) d1).
    { unfold at_cell. rewrite Dx, Dy, Dw, Dh, Dr, Dl, Ds, Dc, Da, Cx, Cw.
      rewrite mpf_add_of_Z by (cbn [List.length] in Hb; lia).
      repeat split; assumption. }
    destruct (IH d1 r (j + 1) C1 Fr ltac:(lia)
                ltac:(cbn [List.length] in Hb; lia))
      as [d' [E' [C' [M' G']]]].
    exists d'. cbn [map enumerate_from for_each Keyboard.decode_item].
    rewrite E1. cbn [bind]. split; [exact E'|].
    split.
    { replace (j + Z.of_nat (List.length (s :: row)))
        with (j + 1 + Z.of_nat (List.length row))
        by (cbn [List.length]; lia).
      exact C'. }
    split.
    { rewrite M'. unfold Keyboard.decode_labels in E1.
      apply bind_ok_inv in E1. destruct E1 as [x1 [_ E1]].
      apply bind_ok_inv in E1. destruct E1 as [x2 [_ E1]].
      apply bind_ok_inv in E1. destruct E1 as [x3 [_ E1]].
      apply bind_ok_inv in E1. destruct E1 as [x4 [_ E1]].
      apply bind_ok_inv in E1. destruct E1 as [x5 [_ E1]].
      inversion E1; subst d1. reflexivity. }
    rewrite G', K, map_app. cbn [map]. rewrite B.
    unfold key_box at 2. rewrite Cx, Cy, Cw, Ch.
    unfold grid_row. cbn [enumerate_from map].
    now rewrite <- app_assoc.
Qed.

(** The rows of a document of plain rows, from row [r] on. *)
Lemma plain_rows_cells (rows : list (list string)) :
  forall (d : Keyboard.decoder) (r : Z),
    at_cell r 0 d ->
    Forall (Forall (fun s => (List.length (split_lines s) <= 12)%nat)) rows ->
    Forall (fun row => Z.of_nat (List.length row) < 2 ^ prec) rows ->
    0 <= r -> r + Z.of_nat (List.length rows) < 2 ^ prec ->
    exists d',
      for_each
        (enumerate_from r (map (fun row => PList (map PStr row)) rows))
        Keyboard.decode_element d = Ok d'
      /\ map key_box (Keyboard.keys (Keyboard.keyboard d'))
         = (map key_box (Keyboard.keys (Keyboard.keyboard d))
            ++ grid_from r rows)%list.
Proof.
  induction rows as [|row rows IH]; intros d r C F B Hr Hb.
  - exists d. split; [reflexivity|].
    unfold grid_from. cbn [enumerate_from flat_map map]. now rewrite app_nil_r.
  - inversion F as [|row0 rows0 Frow Frows]; subst.
    inversion B as [|row1 rows1 Brow Brows]; subst.
    cbn [List.length] in Hb.
    destruct (plain_row_cells (map PStr row) row d r 0 C Frow
                ltac:(lia) ltac:(lia))
      as [d1 [E1 [C1 [M1 G1]]]].
    cbn [map enumerate_from for_each Keyboard.decode_element].
    unfold enumerate. rewrite E1. cbn [bind].
    match goal with
    | |- exists d', for_each _ _ ?s = Ok d' /\ _ =>
        destruct (IH s (r + 1)) as [d' [E' G']]
    end.
    + destruct C1 as [Cx [Cy [Cw [Ch [Cr [Cl [Cs [Cc Ca]]]]]]]].
      unfold at_cell.
      cbn [Keyboard.current Keyboard.set_current Keyboard.current_labels_size
           Keyboard.current_labels_color Keyboard.alignment Key.x Key.y
           Key.width Key.height Key.rotation_x Key.labels Key.set_x Key.set_y].
      rewrite Cy, Cw, Ch, Cr, mpf_add_of_Z by lia.
      repeat split; assumption.
    + exact Frows.
    + exact Brows.
    + lia.
    + lia.
    + exists d'. split; [exact E'|]. rewrite G'.
      cbn [Keyboard.keyboard Keyboard.set_current]. rewrite G1.
      unfold grid_from. cbn [enumerate_from flat_map].
      now rewrite <- app_assoc.
Qed.

(** X17: rows of label strings make a grid.  A document whose rows hold
    only label strings of at most twelve lines each is decoded, and the key
    of the string at index [j] of row [r] has x = j, y = r, width 1 and
    height 1, in the order of the document.  The positions are counted up
    in [mpf] arithmetic, which is exact as long as the document has less
    than 2^53 rows of less than 2^53 strings each. *)
Theorem plain_rows_make_a_grid :
  forall rows : list (list string),
    Forall (Forall (fun s => (List.length (split_lines s) <= 12)%nat)) rows ->
    Z.of_nat (List.length rows) < 2 ^ prec ->
    Forall (fun row => Z.of_nat (List.length row) < 2 ^ prec) rows ->
    exists kb,
      Keyboard.from_json (plain_doc rows) = Ok kb
      /\ map key_box (Keyboard.keys kb) = grid_from 0 rows.
Proof.
  intros rows F Hn B. unfold Keyboard.from_json, plain_doc.
  destruct (plain_rows_cells rows Keyboard.decoder_init 0) as [d [E G]].
  - repeat split.
  - exact F.
  - exact B.
  - lia.
  - lia.
  - unfold enumerate. rewrite E. cbn [bind]. eexists. split; [reflexivity|].
    exact G.
Qed.

Lemma plain_rows_make_a_grid_witness :
  Forall (Forall (fun s => (List.length (split_lines s) <= 12)%nat))
    [["A"; "B"]; ["C"]]
  /\ Z.of_nat (List.length [["A"; "B"]; ["C"]]) < 2 ^ prec
  /\ Forall (fun row => Z.of_nat (List.length row) < 2 ^ prec)
       [["A"; "B"]; ["C"]]
  /\ exists kb,
       Keyboard.from_json (plain_doc [["A"; "B"]; ["C"]]) = Ok kb
       /\ map key_box (Keyboard.keys kb)
          = [ (mpf_of_Z 0, mpf_of_Z 0, mpf_of_Z 1, mpf_of_Z 1);
              (mpf_of_Z 1, mpf_of_Z 0, mpf_of_Z 1, mpf_of_Z 1);
              (mpf_of_Z 0, mpf_of_Z 1, mpf_of_Z 1, mpf_of_Z 1) ].
Proof.
  assert (F : Forall (Forall (fun s => (List.length (split_lines s) <= 12)%nat))
                [["A"; "B"]; ["C"]]).
  { repeat (apply Forall_cons || apply Forall_nil); vm_compute; lia. }
  assert (B : Forall (fun row => Z.of_nat (List.length row) < 2 ^ prec)
                [["A"; "B"]; ["C"]]).
  { repeat (apply Forall_cons || apply Forall_nil); reflexivity. }
  split; [exact F|]. split; [reflexivity|]. split; [exact B|].
  exact (plain_rows_make_a_grid [["A"; "B"]; ["C"]] F eq_refl B).
Defined.

(** ** What [to_json] writes passes the checks of [from_json] *)

Lemma nd_bind {A B : Type} (m : result A) (f : A -> result B) :
  raises_deserialize m = false ->
  (forall a, raises_deserialize (f a) = false) ->
  raises_deserialize (bind m f) = false.
Proof.
  intros Hm Hf. destruct m as [a|e]; [apply Hf | exact Hm].
Qed.

Lemma nd_for_each_in {A S : Type} (l : list A) (body : A -> S -> result S) :
  (forall a s, In a l -> raises_deserialize (body a s) = false) ->
  forall s, raises_deserialize (for_each l body s) = false.
Proof.
  induction l as [|a l IH]; intros H s; [reflexivity|].
  cbn [for_each]. apply nd_bind; [apply H; now left|].
  intros s1. apply IH. intros b t Hb. apply H. now right.
Qed.

Lemma nd_for_each {A S : Type} (l : list A) (body : A -> S -> result S) (s : S) :
  (forall a s, raises_deserialize (body a s) = false) ->
  raises_deserialize (for_each l body s) = false.
Proof.
  intros H. apply nd_for_each_in. intros a t _. apply H.
Qed.

Lemma nd_py_index {A : Type} (l : list A) (i : Z) :
  raises_deserialize (py_index l i) = false.
Proof.
  unfold py_index. cbv zeta.
  destruct (_ && _); [|reflexivity]. now destruct (nth_error _ _).
Qed.

Lemma nd_py_setitem {A : Type} (l : list A) (i : Z) (a : A) :
  raises_deserialize (py_setitem l i a) = false.
Proof.
  unfold py_setitem. cbv zeta. now destruct (_ && _).
Qed.

Ltac nd :=
  repeat first
    [ reflexivity
    | apply nd_py_index
    | apply nd_py_setitem
    | apply nd_for_each
    | apply nd_bind
    | intro
    | match goal with
      | |- raises_deserialize (match ?x with _ => _ end) = false => destruct x
      | |- raises_deserialize ((match ?x with _ => _ end) _) = false =>
          destruct x
      end ].

Lemma nd_unaligned {A : Type} (items : list A) (a : Z) (d : A) :
  raises_deserialize (unaligned items a d) = false.
Proof.
  unfold unaligned. nd.
Qed.

Lemma nd_set_label (f : Label.t -> Label.t) (i : Z) (labels : list Label.t) :
  raises_deserialize (Keyboard.set_label f i labels) = false.
Proof.
  unfold Keyboard.set_label. nd.
Qed.

Lemma nd_decode_labels (labels : string) (d : Keyboard.decoder) :
  raises_deserialize (Keyboard.decode_labels labels d) = false.
Proof.
  unfold Keyboard.decode_labels. cbv zeta.
  repeat first
    [ reflexivity
    | apply nd_unaligned
    | apply nd_set_label
    | apply nd_for_each
    | apply nd_bind
    | intro
    | match goal with
      | |- raises_deserialize (match ?x with _ => _ end) = false => destruct x
      | |- raises_deserialize ((match ?x with _ => _ end) _) = false =>
          destruct x
      end ].
Qed.

Lemma nd_key_change_steps :
  Forall (fun step => forall v s, raises_deserialize (snd step v s) = false)
    key_change_steps.
Proof.
  unfold key_change_steps.
  repeat (apply Forall_cons;
          [cbn [snd]; intros v s;
           unfold key_mpf, key_str, key_bool, play_rx, play_ry, play_a, play_f,
             play_f2, play_fa, play_t, play_x, play_y, play_w, play_h,
             play_switch_mount, mpf_of_str, as_num, as_int, as_str, as_bool;
           repeat first
             [ reflexivity
             | apply nd_unaligned
             | apply nd_py_index
             | apply nd_py_setitem
             | apply nd_for_each
             | apply nd_bind
             | intro
             | match goal with
               | |- raises_deserialize (match ?x with _ => _ end) = false =>
                   destruct x
               | |- raises_deserialize ((match ?x with _ => _ end) _) = false =>
                   destruct x
               end ]|]).
  apply Forall_nil.
Qed.

Lemma nd_playback_key_changes (key : Key.t) (key_changes : dict)
  (colors : list string) (sizes : list num) (a : Z) (crx cry : mpf) :
  raises_deserialize
    (playback_key_changes key key_changes colors sizes a crx cry) = false.
Proof.
  unfold playback_key_changes, play_steps. apply nd_for_each_in.
  intros [name body] s Hin. unfold on_field.
  destruct (dict_get name key_changes) as [v|]; [|reflexivity].
  pose proof nd_key_change_steps as F. rewrite Forall_forall in F.
  exact (F _ Hin v s).
Qed.

Lemma nd_playback_metadata_changes (m : Metadata.t) (changes : dict) :
  raises_deserialize (playback_metadata_changes m changes) = false.
Proof.
  unfold playback_metadata_changes, on_field, set_str, set_bool,
    set_metadata_switch, set_background_field, py_contains, py_getitem,
    as_str, as_bool.
  nd.
Qed.

Lemma in_enumerate_from_nth {A : Type} (l : list A) :
  forall (k i : Z) (x : A),
    In (i, x) (enumerate_from k l) ->
    exists n, i = k + Z.of_nat n /\ nth_error l n = Some x.
Proof.
  induction l as [|a l IH]; intros k i x H; [destruct H|].
  destruct H as [H|H].
  - inversion H; subst. exists 0%nat. split; [simpl; lia | reflexivity].
  - destruct (IH _ _ _ H) as [n [E Hn]]. exists (S n).
    split; [lia | exact Hn].
Qed.

(** A row of strings and mappings with its rotation at the start is decoded
    without a DeserializeException. *)
Lemma nd_decode_row (row : list pyval) (d : Keyboard.decoder) :
  Forall (fun item => is_str_or_dict item = true) row ->
  rotation_at_start row ->
  raises_deserialize (for_each (enumerate row) (Keyboard.decode_item row) d)
  = false.
Proof.
  intros F R. apply nd_for_each_in. intros [k item] s Hin.
  apply in_enumerate_from_nth in Hin. destruct Hin as [n [-> Hn]].
  rewrite Z.add_0_l.
  assert (Hi : is_str_or_dict item = true).
  { rewrite Forall_forall in F. apply F. eapply nth_error_In. exact Hn. }
  destruct item; try discriminate Hi; cbn [Keyboard.decode_item].
  - apply nd_decode_labels.
  - unfold Keyboard.decode_key_changes.
    destruct (negb (Z.of_nat n =? 0) && Keyboard.has_rotation d0) eqn:C.
    + apply andb_true_iff in C. destruct C as [C1 C2].
      rewrite (R n d0 Hn C2) in C1. discriminate C1.
    + unfold Keyboard.apply_key_changes. apply nd_bind.
      * apply nd_playback_key_changes.
      * reflexivity.
Qed.

(** A document of the shape that [to_json] writes is decoded without a
    DeserializeException. *)
Lemma nd_from_json_written (elements : list pyval) :
  written_elements elements ->
  (forall row, In (PList row) elements -> rotation_at_start row) ->
  raises_deserialize (Keyboard.from_json (PList elements)) = false.
Proof.
  intros W R. unfold Keyboard.from_json. apply nd_bind; [|reflexivity].
  apply nd_for_each_in. intros [r element] d Hin.
  apply in_enumerate_from_nth in Hin. destruct Hin as [n [-> Hn]].
  rewrite Z.add_0_l. unfold Keyboard.decode_element.
  apply nd_bind; [|reflexivity].
  destruct (W n element Hn) as [[row [-> F]]|[-> [m ->]]].
  - apply nd_bind; [|reflexivity].
    apply nd_decode_row; [exact F|].
    apply R. eapply nth_error_In. exact Hn.
  - cbn [Z.of_nat Z.eqb negb]. apply nd_bind; [|reflexivity].
    apply nd_playback_metadata_changes.
Qed.

(** One turn of the loop of [to_json] keeps [encoder_written_inv]. *)
Lemma encode_key_written_inv (key : Key.t) (e e' : Keyboard.encoder) :
  Keyboard.encode_key key e = Ok e' ->
  encoder_written_inv e -> encoder_written_inv e'.
Proof.
  intros H [I [F W]]. split; [exact (encode_key_rotation_inv key e e' H I)|].
  destruct (encode_key_shape key e e' H) as [kc [labels [Hj [Hr _]]]].
  rewrite Hj, Hr. clear Hj Hr H.
  match goal with
  | |- context [if ?c then (_ ++ _)%list else _] => destruct c
  end.
  - split.
    + destruct (0 <? List.length kc)%nat; repeat constructor.
    + intros i element Hn.
      destruct (Nat.lt_ge_cases i (List.length (Keyboard.e_keyboard_json e)))
        as [L|L].
      * rewrite nth_error_app1 in Hn by exact L. exact (W i element Hn).
      * rewrite nth_error_app2 in Hn by exact L.
        destruct (i - List.length (Keyboard.e_keyboard_json e))%nat as [|j];
          simpl in Hn; [|now destruct j].
        inversion Hn; subst element. left. eauto.
  - split; [|exact W].
    apply Forall_app. split; [exact F|].
    destruct (0 <? List.length kc)%nat; repeat constructor.
Qed.

(** X18: what [to_json] writes passes the structure checks of [from_json]:
    decoding a document returned by [to_json] never raises a
    DeserializeException.  Its elements are rows of strings and mappings,
    with the metadata mapping at index 0 only, and a mapping with a rotation
    field is the first element of its row. *)
Theorem to_json_passes_structure_checks :
  forall (kb : Keyboard.t) (elements : list pyval),
    Keyboard.to_json kb = Ok (PList elements) ->
    written_elements elements
    /\ raises_deserialize (Keyboard.from_json (PList elements)) = false.
Proof.
  intros kb elements H. unfold Keyboard.to_json in H.
  apply bind_ok_inv in H. destruct H as [e [E H]].
  apply (for_each_preserves encoder_written_inv _ _ encode_key_written_inv)
    in E.
  - destruct E as [[_ [_ [_ [_ [Ir Ij]]]]] [F W]].
    inversion H; subst elements; clear H.
    assert (W' : written_elements
                   (if (0 <? List.length (Keyboard.e_row e))%nat
                    then (Keyboard.e_keyboard_json e
                          ++ [PList (Keyboard.e_row e)])%list
                    else Keyboard.e_keyboard_json e)).
    { destruct (0 <? List.length (Keyboard.e_row e))%nat; [|exact W].
      intros i element Hn.
      destruct (Nat.lt_ge_cases i (List.length (Keyboard.e_keyboard_json e)))
        as [L|L].
      - rewrite nth_error_app1 in Hn by exact L. exact (W i element Hn).
      - rewrite nth_error_app2 in Hn by exact L.
        destruct (i - List.length (Keyboard.e_keyboard_json e))%nat as [|j];
          simpl in Hn; [|now destruct j].
        inversion Hn; subst element. left. eauto. }
    split; [exact W'|].
    apply nd_from_json_written; [exact W'|].
    intros row Hin.
    destruct (0 <? List.length (Keyboard.e_row e))%nat; [|now apply Ij].
    apply in_app_or in Hin. destruct Hin as [Hin|[Hin|[]]]; [now apply Ij|].
    inversion Hin; subst row. exact Ir.
  - split; [apply encoder_init_rotation_inv|]. split; [constructor|].
    unfold Keyboard.encoder_init. cbn [Keyboard.e_keyboard_json].
    intros i element Hn.
    destruct (0 <? List.length (Keyboard.metadata_changes kb))%nat.
    + destruct i as [|i]; simpl in Hn; [|now destruct i].
      inversion Hn; subst element. right. split; [reflexivity | eauto].
    + now destruct i.
Qed.

Lemma to_json_passes_structure_checks_witness :
  Keyboard.to_json keyboard_CBA = Ok doc_ABC
  /\ raises_deserialize (Keyboard.from_json doc_ABC) = false.
Proof.
  split; [reflexivity|].
  exact (proj2 (to_json_passes_structure_checks keyboard_CBA
                  [ PList [PStr "A"; PStr "B"];
                    PList [PDict [("r", PInt 15)]; PStr "C"] ] eq_refl)).
Defined.
